(** * salesforce_bulk: the Bulk API client, its batches and jobs

    A shallow embedding of [salesforce_bulk/salesforce_bulk.py].  Python
    objects that are mutated in place ([Batch._status], [Job.batches]) live
    in an explicit store; the remote server, the HTTP library, the clock and
    the XML and URL helpers are interfaces of an environment class. *)

From Stdlib Require Import ZArith List Lia Bool.
From stdpp Require Import base option list gmap strings.

Set Warnings "-register-all,-clear-no-such-hyp".

Open Scope string_scope.
Open Scope list_scope.
Open Scope Z_scope.

(** ** Values *)

(** What [resp.json()] can return.  JSON [null] is Python's [None]. *)
Inductive json : Type :=
| JNull
| JBool (b : bool)
| JNum (n : Z)      (* the client never computes with numbers; integers stand for them *)
| JStr (s : string)
| JArr (l : list json)
| JObj (m : gmap string json).

(** A Python value that is [None] or a string (credentials, header values). *)
Abbreviation pystr := (option string).

(** Attribute values of a response object. *)
Inductive attr_value : Type :=
| AInt (n : Z)
| AText (s : string).

(** ** Exceptions *)

Inductive exn : Type :=
| BulkApiError (message : string) (status_code : option attr_value)
| BulkBatchFailed (job_id batch_id state_message : json)
| RuntimeError (message : string)
| AttributeError (name : string)
| KeyError (key : string)
| TypeError
| ValueError
| IOError
| ParseError
| RequestException.

(** The result of running a piece of code: a value, an exception, or a loop
    that was cut off by the step bound of the model. *)
Inductive outcome (A : Type) : Type :=
| Ok (a : A)
| Raise (e : exn)
| OutOfFuel.
Arguments Ok {A} a.
Arguments Raise {A} e.
Arguments OutOfFuel {A}.

(** ** HTTP messages *)

(** A [requests.Response]: [json_body] is what [.json()] returns, [None]
    standing for the [ValueError] of a body that is not JSON. *)
Record Response : Type := mkResponse {
  status_code : Z;
  text : string;
  json_body : option json
}.

(** [r.content]: the raw body. *)
Definition content (r : Response) : string := text r.

(** Attribute lookup by name.  A [requests.Response] has [status_code],
    [text] and [content]; it has no attribute [status]. *)
Definition Response_getattr (r : Response) (name : string) : option attr_value :=
  if decide (name = "status_code") then Some (AInt (status_code r))
  else if decide (name = "text") then Some (AText (text r))
  else if decide (name = "content") then Some (AText (content r))
  else None.

(** [SalesforceBulk.check_status] *)
Definition check_status (response : Response) : outcome unit :=
  if 400 <=? status_code response then
    let msg := "Bulk API HTTP Error result: " +:+ text response in
    match Response_getattr response "status" with
    | Some st => Raise (BulkApiError msg (Some st))
    | None => Raise (AttributeError "status")
    end
  else Ok tt.

(** ** Python operations on parsed JSON *)

(** [v == s] for a string constant [s]. *)
Definition json_eq_str (v : json) (s : string) : bool :=
  match v with
  | JStr t => bool_decide (t = s)
  | _ => false
  end.

(** [v in states] for a tuple of string constants. *)
Definition py_in (v : json) (states : list string) : bool :=
  existsb (json_eq_str v) states.

(** [key in v] *)
Definition py_contains (key : string) (v : json) : outcome bool :=
  match v with
  | JObj m => Ok (bool_decide (is_Some (m !! key)))
  | JArr l => Ok (existsb (fun x => json_eq_str x key) l)
  | JStr s => Ok (bool_decide (is_Some (String.index 0 key s)))
  | JNull | JBool _ | JNum _ => Raise TypeError
  end.

(** [v[key]] for a string key. *)
Definition py_getitem (v : json) (key : string) : outcome json :=
  match v with
  | JObj m =>
      match m !! key with
      | Some x => Ok x
      | None => Raise (KeyError key)
      end
  | _ => Raise TypeError
  end.

Fixpoint chars (s : string) : list json :=
  match s with
  | EmptyString => []
  | String c rest => JStr (String c EmptyString) :: chars rest
  end.

(** The elements [for row in v] visits.  A dict is visited by its keys;
    Python 2 leaves their order unspecified, the model takes the order in
    which the map enumerates them. *)
Definition py_iter (v : json) : outcome (list json) :=
  match v with
  | JArr l => Ok l
  | JObj m => Ok (JStr <$> (map_to_list m).*1)
  | JStr s => Ok (chars s)
  | JNull | JBool _ | JNum _ => Raise TypeError
  end.

(** [not v] for a value that is [None] or a string. *)
Definition py_not (v : pystr) : bool :=
  match v with
  | None => true
  | Some s => bool_decide (s = "")
  end.

(** [str(v)] for a value that is [None] or a string. *)
Definition str_of (v : pystr) : string := default "None" v.

(** [xrange(start, stop, step)] *)
Definition xrange (start stop step : Z) : outcome (list Z) :=
  if step =? 0 then Raise ValueError
  else
    let count :=
      if 0 <? step then (stop - start + step - 1) / step
      else (start - stop - step - 1) / (- step) in
    Ok ((fun k => start + Z.of_nat k * step) <$> seq 0 (Z.to_nat count)).

(** [l[i:j]] *)
Definition py_slice {A} (l : list A) (i j : Z) : list A :=
  let len := Z.of_nat (length l) in
  let clip k := if k <? 0 then Z.max 0 (len + k) else Z.min k len in
  take (Z.to_nat (clip j - clip i)) (drop (Z.to_nat (clip i)) l).

(** ** Requests and sessions *)

Inductive Method : Type := GET | POST.

Inductive Body : Type :=
| NoBody
| DataBody (data : string)
| JsonBody (j : json).

Record Request : Type := mkRequest {
  method : Method;
  url : string;
  req_headers : gmap string pystr;
  body : Body
}.

(** A [requests.Session], as far as this client uses it. *)
Record Session : Type := mkSession {
  headers : gmap string pystr
}.

(** What the program does to the outside, in order. *)
Inductive Event : Type :=
| EvRequest (req : Request)
| EvSleep (seconds : Z).

(** ** Objects *)

Inductive BatchClass : Type := PlainBatch | QueryBatch.

(** A [Batch] (or [BatchQuery]) object: the attributes set once by
    [__init__], its class, and the identity under which the store keeps
    its [_status]. *)
Record Batch : Type := mkBatch {
  batch_class : BatchClass;
  batch_session : Session;
  batch_endpoint : string;
  batch_id : json;
  batch_self : nat
}.

(** A [Job] object; the store keeps its [batches] list. *)
Record Job : Type := mkJob {
  job_session : Session;
  job_endpoint : string;
  job_id : json;
  job_self : nat
}.

(** A [SalesforceBulk] object. *)
Record SalesforceBulk : Type := mkSalesforceBulk {
  endpoint : string;
  session : Session
}.

Definition DEFAULT_BATCH_SIZE : Z := 2500.

(** ** The environment: server, clock and library helpers *)

Class Env : Type := {
  (** the remote side: it answers a request, or the transport fails *)
  ServerState : Type;
  serve : ServerState -> Request -> option Response * ServerState;
  (** time passing during [time.sleep] *)
  elapse : Z -> ServerState -> ServerState;
  (** [str(v)], as [str.format] applies it *)
  py_str : json -> string;
  (** the headers of a new [requests.Session] *)
  default_headers : gmap string pystr;
  (** [ET.parse], [tree.find(path).text], [urlparse(url).hostname] *)
  ElementTree : Type;
  ET_parse : string -> option ElementTree;
  ET_find_text : ElementTree -> string -> option pystr;
  urlparse_hostname : string -> pystr
}.

(** The two [assert] statements that open [create_job] fail before
    anything else happens: a call either is an [AssertionError] or runs its
    body. *)
Inductive checked (A : Type) : Type :=
| AssertionError
| Checked (run : A).
Arguments AssertionError {A}.
Arguments Checked {A} run.

(** The constants of the [bulk_states] module, which the source imports but
    which is not part of it, taken as parameters: the tuple of error state
    names and the name of the completed state. *)
Class bulk_states : Type := {
  ERROR_STATES : list string;
  COMPLETED : string
}.

Section Client.
Context `{Env} `{bulk_states}.

(** ** The world and the monad of effects *)

Record World : Type := mkWorld {
  remote : ServerState;
  trace : list Event;
  (** [_status] of each batch object *)
  statuses : gmap nat json;
  (** [batches] of each job object *)
  batch_lists : gmap nat (list Batch);
  (** the next unused object identity *)
  next_id : nat
}.

Definition M (A : Type) : Type := World -> outcome A * World.

Definition ret {A} (a : A) : M A := fun w => (Ok a, w).

Definition raise {A} (e : exn) : M A := fun w => (Raise e, w).

Definition lift {A} (o : outcome A) : M A := fun w => (o, w).

Definition bind {A B} (c : M A) (k : A -> M B) : M B :=
  fun w =>
    match c w with
    | (Ok a, w') => k a w'
    | (Raise e, w') => (Raise e, w')
    | (OutOfFuel, w') => (OutOfFuel, w')
    end.

Notation "'let!' x ':=' c 'in' k" := (bind c (fun x => k))
  (at level 10, x name, c at level 100, k at level 200).
Notation "c ';;;' k" := (bind c (fun _ => k))
  (at level 100, k at level 200, right associativity).

Definition outcome_bind {A B} (o : outcome A) (k : A -> outcome B) : outcome B :=
  match o with
  | Ok a => k a
  | Raise e => Raise e
  | OutOfFuel => OutOfFuel
  end.

(** *** Primitive effects *)

(** Sending a request: it is recorded, and the server answers or the
    transport raises. *)
Definition http (req : Request) : M Response :=
  fun w =>
    let '(answer, st) := serve (remote w) req in
    let w' := mkWorld st (trace w ++ [EvRequest req]) (statuses w)
                      (batch_lists w) (next_id w) in
    match answer with
    | Some resp => (Ok resp, w')
    | None => (Raise RequestException, w')
    end.

(** [session.get(url)] *)
Definition session_get (s : Session) (uri : string) : M Response :=
  http (mkRequest GET uri (headers s) NoBody).

(** [session.post(url, json=j)] *)
Definition session_post_json (s : Session) (uri : string) (j : json) : M Response :=
  http (mkRequest POST uri (headers s) (JsonBody j)).

(** [session.post(url, data=d)] *)
Definition session_post_data (s : Session) (uri : string) (d : string) : M Response :=
  http (mkRequest POST uri (headers s) (DataBody d)).

(** [requests.post(url, data=d, headers=h)]: a one-off session, the given
    headers laid over the default ones. *)
Definition requests_post (uri : string) (d : string) (h : gmap string pystr) : M Response :=
  http (mkRequest POST uri (h ∪ default_headers) (DataBody d)).

(** [time.sleep(seconds)]; a negative argument is refused. *)
Definition sleep (seconds : Z) : M unit :=
  fun w =>
    if seconds <? 0 then (Raise IOError, w)
    else (Ok tt, mkWorld (elapse seconds (remote w)) (trace w ++ [EvSleep seconds])
                         (statuses w) (batch_lists w) (next_id w)).

(** [resp.json()] *)
Definition resp_json (resp : Response) : outcome json :=
  match json_body resp with
  | Some j => Ok j
  | None => Raise ValueError
  end.

(** A new object identity. *)
Definition new_object : M nat :=
  fun w => (Ok (next_id w),
            mkWorld (remote w) (trace w) (statuses w) (batch_lists w) (S (next_id w))).

(** Reading and writing [self._status]. *)
Definition status_of (w : World) (self : Batch) : json :=
  default JNull (statuses w !! batch_self self).

Definition get_status (self : Batch) : M json :=
  fun w => (Ok (status_of w self), w).

Definition set_status (self : Batch) (v : json) : M unit :=
  fun w => (Ok tt, mkWorld (remote w) (trace w) (<[batch_self self := v]> (statuses w))
                           (batch_lists w) (next_id w)).

(** Reading [self.batches] and appending to it. *)
Definition batches_of (w : World) (self : Job) : list Batch :=
  default [] (batch_lists w !! job_self self).

Definition get_batches (self : Job) : M (list Batch) :=
  fun w => (Ok (batches_of w self), w).

Definition set_batches (self : Job) (l : list Batch) : M unit :=
  fun w => (Ok tt, mkWorld (remote w) (trace w) (statuses w)
                           (<[job_self self := l]> (batch_lists w)) (next_id w)).

Definition batches_append (self : Job) (b : Batch) : M unit :=
  let! l := get_batches self in set_batches self (l ++ [b]).

Definition is_None_json (v : json) : bool :=
  match v with JNull => true | _ => false end.

(** ** Batch *)

(** [Batch.__init__] and [BatchQuery.__init__] *)
Definition Batch_init (cls : BatchClass) (s : Session) (job_endpoint : string)
    (id : json) : M Batch :=
  let! me := new_object in
  let self := mkBatch cls s (job_endpoint +:+ "/batch/" +:+ py_str id) id me in
  set_status self JNull ;;;
  ret self.

(** [Batch.status] *)
Definition Batch_status (self : Batch) (reload : bool) : M json :=
  let! cached := get_status self in
  (if reload || is_None_json cached then
     let! resp := session_get (batch_session self) (batch_endpoint self) in
     lift (check_status resp) ;;;
     let! parsed := lift (resp_json resp) in
     set_status self parsed
   else ret tt) ;;;
  get_status self.

(** [Batch.is_done] *)
Definition Batch_is_done (self : Batch) (reload : bool) : M bool :=
  let! batch_status := Batch_status self reload in
  let! has_state := lift (py_contains "state" batch_status) in
  let! batch_state :=
    (if has_state : bool then lift (py_getitem batch_status "state") else ret JNull) in
  if py_in batch_state ERROR_STATES then
    let! job := lift (py_getitem batch_status "jobId") in
    let! id := lift (py_getitem batch_status "id") in
    let! message := lift (py_getitem batch_status "stateMessage") in
    raise (BulkBatchFailed job id message)
  else ret (json_eq_str batch_state COMPLETED).

(** The loop of [Batch.wait]; every evaluation of its condition takes one
    unit of [fuel]. *)
Fixpoint wait_loop (fuel : nat) (self : Batch) (timeout sleep_interval waited : Z)
    : M unit :=
  match fuel with
  | O => lift OutOfFuel
  | S fuel' =>
      let! done := Batch_is_done self true in
      if negb done && (waited <? timeout) then
        sleep sleep_interval ;;;
        wait_loop fuel' self timeout sleep_interval (waited + sleep_interval)
      else ret tt
  end.

(** [Batch.wait] *)
Definition Batch_wait (fuel : nat) (self : Batch) (timeout sleep_interval : Z) : M unit :=
  wait_loop fuel self timeout sleep_interval 0.

(** ** Generators

    A generator function is modelled by what draining it does: the rows it
    yields, in order, and how it ends (exhausted, or by an exception, which
    keeps the rows yielded before it).  A consumer that stops early has seen
    a prefix of the rows. *)

Definition Gen : Type := World -> list json * outcome unit * World.

(** Code of the generator body that yields nothing itself. *)
Definition gen_bind {A} (c : M A) (k : A -> Gen) : Gen :=
  fun w =>
    match c w with
    | (Ok a, w') => k a w'
    | (Raise e, w') => ([], Raise e, w')
    | (OutOfFuel, w') => ([], OutOfFuel, w')
    end.

(** [for row in rows: yield row] *)
Definition yield_each (rows : list json) : Gen :=
  fun w => (rows, Ok tt, w).

(** One generator body after another. *)
Definition gen_seq (g1 g2 : Gen) : Gen :=
  fun w =>
    match g1 w with
    | (rows1, Ok _, w1) =>
        let '(rows2, o, w2) := g2 w1 in (rows1 ++ rows2, o, w2)
    | (rows1, o, w1) => (rows1, o, w1)
    end.

(** [for x in xs: <body x>] where the body yields. *)
Fixpoint gen_for {A} (xs : list A) (body : A -> Gen) : Gen :=
  match xs with
  | [] => yield_each []
  | x :: xs' => gen_seq (body x) (gen_for xs' body)
  end.

Notation "'gen!' x ':=' c 'in' k" := (gen_bind c (fun x => k))
  (at level 10, x name, c at level 100, k at level 200).

(** [Batch.results] *)
Definition Batch_results (fuel : nat) (self : Batch) : Gen :=
  gen! done := Batch_is_done self false in
  gen! _ := (if negb done then Batch_wait fuel self (60 * 10) 10 else ret tt) in
  let uri := batch_endpoint self +:+ "/result" in
  gen! resp := session_get (batch_session self) uri in
  gen! _ := lift (check_status resp) in
  gen! rows := lift (outcome_bind (resp_json resp) py_iter) in
  yield_each rows.

(** [BatchQuery.results] *)
Definition BatchQuery_results (fuel : nat) (self : Batch) : Gen :=
  gen! done := Batch_is_done self false in
  gen! _ := (if negb done then Batch_wait fuel self (60 * 10) 10 else ret tt) in
  let uri := batch_endpoint self +:+ "/result" in
  gen! resp := session_get (batch_session self) uri in
  gen! _ := lift (check_status resp) in
  gen! parsed := lift (resp_json resp) in
  gen! result_ids := lift (py_iter parsed) in
  gen_for result_ids (fun result_id =>
    let uri := batch_endpoint self +:+ "/result/" +:+ py_str result_id in
    gen! resp := session_get (batch_session self) uri in
    gen! _ := lift (check_status resp) in
    gen! rows := lift (outcome_bind (resp_json resp) py_iter) in
    yield_each rows).

(** [batch.results()], by the class of the object. *)
Definition results (fuel : nat) (batch : Batch) : Gen :=
  match batch_class batch with
  | PlainBatch => Batch_results fuel batch
  | QueryBatch => BatchQuery_results fuel batch
  end.

(** ** Job *)

(** [Job.__init__] *)
Definition Job_init (s : Session) (base : string) (id : json) : M Job :=
  let! me := new_object in
  let self := mkJob s (base +:+ "/job/" +:+ py_str id) id me in
  set_batches self [] ;;;
  ret self.

Definition state_change (state : string) : json :=
  JObj {[ "state" := JStr state ]}.

(** [Job.close] *)
Definition Job_close (self : Job) : M unit :=
  let! resp := session_post_json (job_session self) (job_endpoint self)
                 (state_change "Closed") in
  lift (check_status resp).

(** [Job.abort] *)
Definition Job_abort (self : Job) : M unit :=
  let! resp := session_post_json (job_session self) (job_endpoint self)
                 (state_change "Aborted") in
  lift (check_status resp).

(** [Job.query] *)
Definition Job_query (self : Job) (soql : string) : M Batch :=
  let uri := job_endpoint self +:+ "/batch" in
  let! resp := session_post_data (job_session self) uri soql in
  lift (check_status resp) ;;;
  let! parsed := lift (resp_json resp) in
  let! id := lift (py_getitem parsed "id") in
  let! batch := Batch_init QueryBatch (job_session self) (job_endpoint self) id in
  batches_append self batch ;;;
  ret batch.

(** The body of the loop of [Job.post], for the start indices that are left;
    [batches] is the local list. *)
Fixpoint post_loop (self : Job) (uri : string) (data : list json) (batch_size : Z)
    (starts : list Z) (batches : list Batch) : M (list Batch) :=
  match starts with
  | [] => ret batches
  | i :: starts' =>
      let! resp := session_post_json (job_session self) uri
                     (JArr (py_slice data i (i + batch_size))) in
      lift (check_status resp) ;;;
      let! parsed := lift (resp_json resp) in
      let! id := lift (py_getitem parsed "id") in
      let! batch := Batch_init PlainBatch (job_session self) (job_endpoint self) id in
      batches_append self batch ;;;
      post_loop self uri data batch_size starts' (batches ++ [batch])
  end.

(** [Job.post] *)
Definition Job_post (self : Job) (data : list json) (batch_size : Z) : M (list Batch) :=
  let uri := job_endpoint self +:+ "/batch" in
  let! starts := lift (xrange 0 (Z.of_nat (length data)) batch_size) in
  post_loop self uri data batch_size starts [].

(** The loop of [Job.is_done]. *)
Fixpoint is_done_loop (batches : list Batch) : M bool :=
  match batches with
  | [] => ret true
  | batch :: rest =>
      let! done := Batch_is_done batch false in
      if negb done then ret false else is_done_loop rest
  end.

(** [Job.is_done] *)
Definition Job_is_done (self : Job) : M bool :=
  let! batches := get_batches self in
  is_done_loop batches.

(** The loop of [Job.wait]. *)
Fixpoint job_wait_loop (fuel : nat) (batches : list Batch) (timeout sleep_interval : Z)
    : M unit :=
  match batches with
  | [] => ret tt
  | batch :: rest =>
      Batch_wait fuel batch timeout sleep_interval ;;;
      job_wait_loop fuel rest timeout sleep_interval
  end.

(** [Job.wait]; [fuel] bounds each batch's own loop. *)
Definition Job_wait (fuel : nat) (self : Job) (timeout sleep_interval : Z) : M unit :=
  let! batches := get_batches self in
  job_wait_loop fuel batches timeout sleep_interval.

(** [Job.results] *)
Definition Job_results (fuel : nat) (self : Job) : Gen :=
  gen! done := Job_is_done self in
  gen! _ := (if negb done then Job_wait fuel self (60 * 10) 10 else ret tt) in
  gen! batches := get_batches self in
  gen_for batches (fun batch => results fuel batch).

(** [Job.__enter__] *)
Definition Job_enter (self : Job) : M Job := ret self.

(** [Job.__exit__]: the arguments describe how the block ended; the method
    returns [None]. *)
Definition Job_exit (self : Job) (exc : option exn) : M json :=
  Job_close self ;;;
  ret JNull.

(** Truth value of what [__exit__] returned. *)
Definition py_truthy (v : json) : bool :=
  match v with
  | JNull => false
  | JBool b => b
  | JNum n => negb (n =? 0)
  | JStr s => negb (bool_decide (s = ""))
  | JArr l => negb (bool_decide (l = []))
  | JObj m => negb (bool_decide (m = ∅))
  end.

(** Python's [with manager as x: block]: [__enter__] gives [x]; when the
    block ends, normally or by an exception, [__exit__] is called; an
    exception of the block is raised again unless [__exit__] returned a true
    value, and an exception of [__exit__] itself takes its place. *)
Definition with_statement {A} (enter : M A) (exit : option exn -> M json)
    (block : A -> M unit) : M unit :=
  let! x := enter in
  fun w =>
    match block x w with
    | (Ok _, w1) => (exit None ;;; ret tt) w1
    | (Raise e, w1) =>
        (let! suppress := exit (Some e) in
         if py_truthy suppress then ret tt else raise e) w1
    | (OutOfFuel, w1) => (OutOfFuel, w1)
    end.

(** [with job as j: block j] *)
Definition with_job (self : Job) (block : Job -> M unit) : M unit :=
  with_statement (Job_enter self) (Job_exit self) block.

(** ** SalesforceBulk *)

Definition dq : string := String (Ascii.ascii_of_nat 34) EmptyString.

(** [LOGIN.format(username=..., password=...)] *)
Definition LOGIN_format (username password : string) : string :=
  "<?xml version=" +:+ dq +:+ "1.0" +:+ dq +:+ " encoding=" +:+ dq +:+ "utf-8" +:+ dq +:+ " ?>"
  +:+ "<env:Envelope xmlns:xsd=" +:+ dq +:+ "http://www.w3.org/2001/XMLSchema" +:+ dq
  +:+ "    xmlns:xsi=" +:+ dq +:+ "http://www.w3.org/2001/XMLSchema-instance" +:+ dq
  +:+ "    xmlns:env=" +:+ dq +:+ "http://schemas.xmlsoap.org/soap/envelope/" +:+ dq +:+ ">"
  +:+ "  <env:Body>"
  +:+ "    <n1:login xmlns:n1=" +:+ dq +:+ "urn:partner.soap.sforce.com" +:+ dq +:+ ">"
  +:+ "      <n1:username>" +:+ username +:+ "</n1:username>"
  +:+ "      <n1:password>" +:+ password +:+ "</n1:password>"
  +:+ "    </n1:login>"
  +:+ "  </env:Body>"
  +:+ "</env:Envelope>".

Definition SERVER_URL : string := ".//{urn:partner.soap.sforce.com}serverUrl".
Definition SESSION_ID : string := ".//{urn:partner.soap.sforce.com}sessionId".

Definition login_headers : gmap string pystr :=
  {[ "Content-Type" := Some "text/xml; charset=UTF-8"; "SOAPAction" := Some "login" ]}.

(** [tree.find(path).text] *)
Definition find_text (tree : ElementTree) (path : string) : outcome pystr :=
  match ET_find_text tree path with
  | Some t => Ok t
  | None => Raise (AttributeError "text")
  end.

(** [urlparse.urlparse(u).hostname] *)
Definition hostname_of (u : pystr) : outcome pystr :=
  match u with
  | Some s => Ok (urlparse_hostname s)
  | None => Raise (AttributeError "find")
  end.

(** [SalesforceBulk.login] *)
Definition login (username password : pystr) (host API_version : string)
    : M (pystr * pystr) :=
  let payload := LOGIN_format (str_of username) (str_of password) in
  let login_endpoint := "https://" +:+ host +:+ "/services/Soap/u/" +:+ API_version in
  let! r := requests_post login_endpoint payload login_headers in
  let! tree := lift (match ET_parse (content r) with
                     | Some t => Ok t
                     | None => Raise ParseError
                     end) in
  let! server_url := lift (find_text tree SERVER_URL) in
  let! server_host := lift (hostname_of server_url) in
  let! session_id := lift (find_text tree SESSION_ID) in
  ret (server_host, session_id).

(** [SalesforceBulk.__init__] *)
Definition SalesforceBulk_init (sessionId : pystr) (host : string)
    (username password : pystr) (API_version : string) : M SalesforceBulk :=
  if py_not sessionId && py_not username then
    raise (RuntimeError "Must supply either sessionId/instance_url or username/password")
  else
    let! logged := login username password host API_version in
    let host := fst logged in
    let sessionId := snd logged in
    let endpoint := "https://" +:+ str_of host +:+ "/services/async/" +:+ API_version in
    let session := mkSession default_headers in
    let session := mkSession (<["X-SFDC-Session" := sessionId]> (headers session)) in
    let session := mkSession (<["Content-Type" := Some "application/json"]> (headers session)) in
    ret (mkSalesforceBulk endpoint session).

(** The [description] dict that [create_job] builds. *)
Definition job_description (object_name operation concurrency external_id_name : json)
    : gmap string json :=
  let description : gmap string json :=
    {[ "operation" := operation; "object" := object_name; "contentType" := JStr "JSON" ]} in
  let description :=
    if py_truthy external_id_name
    then <["externalIdFieldName" := external_id_name]> description
    else description in
  let description :=
    if py_truthy concurrency
    then <["concurrencyMode" := concurrency]> description
    else description in
  description.

(** [SalesforceBulk.create_job]; an argument left out is [None]. *)
Definition create_job (self : SalesforceBulk)
    (object_name operation concurrency external_id_name : json) : checked (M Job) :=
  if is_None_json object_name then AssertionError
  else if is_None_json operation then AssertionError
  else Checked (
    let description :=
      job_description object_name operation concurrency external_id_name in
    let! resp := session_post_json (session self) (endpoint self +:+ "/job")
                   (JObj description) in
    lift (check_status resp) ;;;
    let! parsed := lift (resp_json resp) in
    let! id := lift (py_getitem parsed "id") in
    Job_init (session self) (endpoint self) id).

(** The call [self.create_job(object_name, operation, **kwargs)] with
    further arguments [given] by keyword: a keyword in [kwargs] that names
    no parameter of [create_job], or one that is already given, is a
    [TypeError] of the call. *)
Definition call_create_job (self : SalesforceBulk) (object_name operation : json)
    (given kwargs : gmap string json) : checked (M Job) :=
  let free : gset string := {[ "concurrency"; "external_id_name" ]} ∖ dom given in
  if bool_decide (dom kwargs ⊆ free) then
    let args := given ∪ kwargs in
    create_job self object_name operation
               (default JNull (args !! "concurrency"))
               (default JNull (args !! "external_id_name"))
  else Checked (raise TypeError).

(** [create_query_job], [create_insert_job], [create_upsert_job],
    [create_update_job], [create_delete_job] *)
Definition create_query_job (self : SalesforceBulk) (object_name : json)
    (kwargs : gmap string json) : checked (M Job) :=
  call_create_job self object_name (JStr "query") ∅ kwargs.

Definition create_insert_job (self : SalesforceBulk) (object_name : json)
    (kwargs : gmap string json) : checked (M Job) :=
  call_create_job self object_name (JStr "insert") ∅ kwargs.

Definition create_upsert_job (self : SalesforceBulk) (object_name external_id_name : json)
    (kwargs : gmap string json) : checked (M Job) :=
  call_create_job self object_name (JStr "upsert")
                  {[ "external_id_name" := external_id_name ]} kwargs.

Definition create_update_job (self : SalesforceBulk) (object_name : json)
    (kwargs : gmap string json) : checked (M Job) :=
  call_create_job self object_name (JStr "update") ∅ kwargs.

Definition create_delete_job (self : SalesforceBulk) (object_name : json)
    (kwargs : gmap string json) : checked (M Job) :=
  call_create_job self object_name (JStr "delete") ∅ kwargs.

End Client.

Notation "'let!' x ':=' c 'in' k" := (bind c (fun x => k))
  (at level 10, x name, c at level 100, k at level 200).
Notation "c ';;;' k" := (bind c (fun _ => k))
  (at level 100, k at level 200, right associativity).

(** ** Test doubles for the environment *)

Definition script_str (v : json) : string :=
  match v with
  | JStr s => s
  | JNull => "None"
  | JBool true => "True"
  | JBool false => "False"
  | _ => "?"
  end.

(** A toy XML reader: a non-empty body is a login answer for the server
    it names. *)
Definition toy_parse (body : string) : option (gmap string pystr) :=
  if decide (body = "") then None
  else Some {[ SERVER_URL := Some ("https://" +:+ body +:+ "/services");
               SESSION_ID := Some ("session-of-" +:+ body) ]}.

Definition toy_hostname (u : string) : pystr :=
  if decide (u = "https://na1.salesforce.com/services") then Some "na1.salesforce.com"
  else None.

(** A scripted server: it answers the requests it receives with the
    entries of a script, in order, whatever the request; an entry [None],
    or the end of the script, is a transport failure. *)
Definition script_env : Env := {|
  ServerState := list (option Response);
  serve := fun st _ =>
    match st with
    | [] => (None, [])
    | answer :: rest => (answer, rest)
    end;
  elapse := fun _ st => st;
  py_str := script_str;
  default_headers := ∅;
  ElementTree := gmap string pystr;
  ET_parse := toy_parse;
  ET_find_text := fun tree path => tree !! path;
  urlparse_hostname := toy_hostname
|}.

(** A steady server: it gives the same answer to every request, for ever. *)
Definition steady_env (answer : option Response) : Env := {|
  ServerState := unit;
  serve := fun st _ => (answer, st);
  elapse := fun _ st => st;
  py_str := script_str;
  default_headers := ∅;
  ElementTree := gmap string pystr;
  ET_parse := toy_parse;
  ET_find_text := fun tree path => tree !! path;
  urlparse_hostname := toy_hostname
|}.

(** The state names of the Bulk API. *)
Definition api_states : bulk_states := {|
  ERROR_STATES := ["Aborted"; "Failed"; "Not Processed"];
  COMPLETED := "Completed"
|}.

(** A response with a JSON body. *)
Definition ok_json (j : json) : option Response := Some (mkResponse 200 "" (Some j)).

Definition snapshot (state : string) : json :=
  JObj {[ "state" := JStr state ]}.

Definition failed_snapshot : gmap string json :=
  {[ "state" := JStr "Failed"; "jobId" := JStr "J1"; "id" := JStr "B1";
     "stateMessage" := JStr "bad row" ]}.

Definition created (id : string) : json :=
  JObj {[ "id" := JStr id ]}.

Definition world0 (script : list (option Response)) : @World script_env :=
  @mkWorld script_env script [] ∅ ∅ 2.

Definition steady_world (answer : option Response) : @World (steady_env answer) :=
  @mkWorld (steady_env answer) tt [] ∅ ∅ 2.

Definition session0 : Session := mkSession ∅.

Definition job0 : Job := mkJob session0 "svc/job/J1" (JStr "J1") 0.

Definition batch0 : Batch := mkBatch PlainBatch session0 "svc/job/J1/batch/B1" (JStr "B1") 1.

Definition query0 : Batch := mkBatch QueryBatch session0 "svc/job/J1/batch/B1" (JStr "B1") 1.

Definition client0 : SalesforceBulk := mkSalesforceBulk "svc" session0.

(** A response with an error status. *)
Definition busy : option Response := Some (mkResponse 500 "busy" None).

(** ** Vocabulary of the statements *)

Section Vocabulary.
Context `{Env} `{bulk_states}.

(** The world after a request was sent and the server moved to [st]. *)
Definition sent (w : World) (req : Request) (st : ServerState) : World :=
  mkWorld st (trace w ++ [EvRequest req]) (statuses w) (batch_lists w) (next_id w).

(** The world after [self._status] was set. *)
Definition cached (w : World) (self : Batch) (v : json) : World :=
  mkWorld (remote w) (trace w) (<[batch_self self := v]> (statuses w))
          (batch_lists w) (next_id w).

(** The status poll of a batch: a GET against its URI. *)
Definition poll_request (self : Batch) : Request :=
  mkRequest GET (batch_endpoint self) (headers (batch_session self)) NoBody.

(** A response that [check_status] lets through. *)
Definition accepted (resp : Response) : Prop := status_code resp < 400.

(** The state a snapshot reports, [None] when it has no such key. *)
Definition state_of (m : gmap string json) : json := default JNull (m !! "state").

(** What [is_done] makes of a snapshot that is a mapping. *)
Definition verdict (m : gmap string json) : outcome bool :=
  if py_in (state_of m) ERROR_STATES then
    outcome_bind (py_getitem (JObj m) "jobId") (fun job =>
    outcome_bind (py_getitem (JObj m) "id") (fun id =>
    outcome_bind (py_getitem (JObj m) "stateMessage") (fun message =>
    Raise (BulkBatchFailed job id message))))
  else Ok (json_eq_str (state_of m) COMPLETED).

(** The world after a sleep of [seconds]. *)
Definition slept (w : World) (seconds : Z) : World :=
  mkWorld (elapse seconds (remote w)) (trace w ++ [EvSleep seconds])
          (statuses w) (batch_lists w) (next_id w).

(** [ceil_div x y] is the ceiling of [x / y] for a positive [y]. *)
Definition ceil_div (x y : Z) : Z := (x + y - 1) / y.

(** The number of sleeps after which the accumulated time has reached
    [timeout]. *)
Definition sleeps_until (timeout sleep_interval : Z) : nat :=
  Z.to_nat (ceil_div timeout sleep_interval).

(** A status response that reports a batch still in progress. *)
Definition in_progress (resp : Response) : Prop :=
  accepted resp /\
  exists m, json_body resp = Some (JObj m) /\
            py_in (state_of m) ERROR_STATES = false /\
            state_of m <> JStr COMPLETED.

(** The batch never completes: in every server state that [inv] admits the
    poll is answered "in progress", and [inv] is kept by polls and by the
    passing of time. *)
Definition never_completes (self : Batch) (inv : ServerState -> Prop) : Prop :=
  (forall st, inv st ->
     exists resp st', serve st (poll_request self) = (Some resp, st') /\
                      in_progress resp /\ inv st') /\
  (forall st seconds, inv st -> inv (elapse seconds st)).

(** What [wait] does, from an accumulated sleep time of [waited]: it polls
    with [is_done(True)]; it returns when the poll says done, or when it
    does not and [waited] has reached [timeout]; otherwise it sleeps
    [sleep_interval] and goes on; an exception of the poll ends it. *)
Inductive waits (self : Batch) (timeout sleep_interval : Z)
    : Z -> World -> outcome unit -> World -> Prop :=
| waits_done waited w w' :
    Batch_is_done self true w = (Ok true, w') ->
    waits self timeout sleep_interval waited w (Ok tt) w'
| waits_timeout waited w w' :
    Batch_is_done self true w = (Ok false, w') ->
    timeout <= waited ->
    waits self timeout sleep_interval waited w (Ok tt) w'
| waits_raise waited w e w' :
    Batch_is_done self true w = (Raise e, w') ->
    waits self timeout sleep_interval waited w (Raise e) w'
| waits_sleep waited w w1 r w2 :
    Batch_is_done self true w = (Ok false, w1) ->
    waited < timeout ->
    waits self timeout sleep_interval (waited + sleep_interval)
          (slept w1 sleep_interval) r w2 ->
    waits self timeout sleep_interval waited w r w2.

(** The events of [n] rounds of sleeping and polling again. *)
Definition sleep_and_poll (self : Batch) (sleep_interval : Z) (n : nat) : list Event :=
  concat (repeat [EvSleep sleep_interval; EvRequest (poll_request self)] n).

(** Code that always comes to an end. *)
Definition total {A} (c : M A) : Prop := forall w, fst (c w) <> OutOfFuel.

(** Every batch of the list reports done when asked, in order, from world
    [w]; [w'] is the world after the last answer. *)
Inductive all_done : list Batch -> World -> World -> Prop :=
| all_done_nil w : all_done [] w w
| all_done_cons batch rest w w1 w2 :
    Batch_is_done batch false w = (Ok true, w1) ->
    all_done rest w1 w2 ->
    all_done (batch :: rest) w w2.

(** From [w] to [w'] only the batches of [examined] were evaluated: every
    other object's cached snapshot and every job's batch list are as they
    were, and every event added is a status poll of one of [examined]. *)
Definition examined_only (examined : list Batch) (w w' : World) : Prop :=
  batch_lists w' = batch_lists w /\
  (forall i, i ∉ batch_self <$> examined -> statuses w' !! i = statuses w !! i) /\
  exists events,
    trace w' = trace w ++ events /\
    Forall (fun ev => exists batch, batch ∈ examined /\
                                    ev = EvRequest (poll_request batch)) events.

(** The rows of [data] at the indices from [lo] up to, not including, [hi]. *)
Definition rows_between (data : list json) (lo hi : nat) : list json :=
  take (hi - lo) (drop lo data).

(** Chunk [i] of [data] for a batch size [b]: the rows at the indices from
    [i * b] up to, not including, [min ((i + 1) * b) n]. *)
Definition chunk (data : list json) (b : Z) (i : nat) : list json :=
  rows_between data (Z.to_nat (Z.of_nat i * b))
    (Z.to_nat (Z.min ((Z.of_nat i + 1) * b) (Z.of_nat (length data)))).

(** The batch-creation request for a list of rows. *)
Definition post_request (self : Job) (rows : list json) : Request :=
  mkRequest POST (job_endpoint self +:+ "/batch") (headers (job_session self))
            (JsonBody (JArr rows)).

(** The server accepts the batch-creation requests for [chunks], one after
    the other from state [st], answering them with [ids], and is left in
    state [st']. *)
Fixpoint creates (self : Job) (st : ServerState) (chunks : list (list json))
    (ids : list json) (st' : ServerState) : Prop :=
  match chunks, ids with
  | [], [] => st' = st
  | rows :: chunks', id :: ids' =>
      exists resp st1 m,
        serve st (post_request self rows) = (Some resp, st1) /\
        accepted resp /\ json_body resp = Some (JObj m) /\ m !! "id" = Some id /\
        creates self st1 chunks' ids' st'
  | _, _ => False
  end.

(** The batch objects made for the ids, the first with identity [from]. *)
Fixpoint new_batches (self : Job) (ids : list json) (from : nat) : list Batch :=
  match ids with
  | [] => []
  | id :: ids' =>
      mkBatch PlainBatch (job_session self)
              (job_endpoint self +:+ "/batch/" +:+ py_str id) id from
      :: new_batches self ids' (S from)
  end.

(** Running the generator bodies for [xs] one after the other from [w]:
    the rows each of them yielded, how the run ended and where.  The run
    stops at the first body that does not end normally. *)
Inductive each_yields {A} (body : A -> Gen)
    : list A -> World -> list (list json) -> outcome unit -> World -> Prop :=
| each_nil w : each_yields body [] w [] (Ok tt) w
| each_cons x xs w rows w1 rest o w2 :
    body x w = (rows, Ok tt, w1) ->
    each_yields body xs w1 rest o w2 ->
    each_yields body (x :: xs) w (rows :: rest) o w2
| each_stop x xs w rows o w1 :
    body x w = (rows, o, w1) -> o <> Ok tt ->
    each_yields body (x :: xs) w [rows] o w1.

(** What [Batch.results] and [BatchQuery.results] do before they fetch. *)
Definition batch_prelude (fuel : nat) (self : Batch) : M unit :=
  let! done := Batch_is_done self false in
  if negb done then Batch_wait fuel self (60 * 10) 10 else ret tt.

(** What [Job.results] does before it visits the batches. *)
Definition job_prelude (fuel : nat) (self : Job) : M unit :=
  let! done := Job_is_done self in
  if negb done then Job_wait fuel self (60 * 10) 10 else ret tt.

(** The request for a batch's results, and for one result chunk. *)
Definition result_request (self : Batch) : Request :=
  mkRequest GET (batch_endpoint self +:+ "/result") (headers (batch_session self)) NoBody.

Definition chunk_request (self : Batch) (result_id : json) : Request :=
  mkRequest GET (batch_endpoint self +:+ "/result/" +:+ py_str result_id)
            (headers (batch_session self)) NoBody.

(** The body of the loop of [BatchQuery.results]. *)
Definition fetch_chunk (self : Batch) (result_id : json) : Gen :=
  let uri := batch_endpoint self +:+ "/result/" +:+ py_str result_id in
  gen_bind (session_get (batch_session self) uri) (fun resp =>
  gen_bind (lift (check_status resp)) (fun _ =>
  gen_bind (lift (outcome_bind (resp_json resp) py_iter)) (fun rows =>
  yield_each rows))).

(** The server answers the chunk requests for [ids], one after the other
    from state [st], with the lists of [chunks], and is left in [st']. *)
Fixpoint serves_chunks (self : Batch) (st : ServerState) (ids : list json)
    (chunks : list (list json)) (st' : ServerState) : Prop :=
  match ids, chunks with
  | [], [] => st' = st
  | id :: ids', rows :: chunks' =>
      exists resp st1,
        serve st (chunk_request self id) = (Some resp, st1) /\
        accepted resp /\ json_body resp = Some (JArr rows) /\
        serves_chunks self st1 ids' chunks' st'
  | _, _ => False
  end.

(** A generator that comes to an end when drained. *)
Definition gen_total (g : Gen) : Prop := forall w, snd (fst (g w)) <> OutOfFuel.

(** The close request of a job. *)
Definition close_request (self : Job) : Request :=
  mkRequest POST (job_endpoint self) (headers (job_session self))
            (JsonBody (state_change "Closed")).

(** The login exchange for the given credentials. *)
Definition login_request (username password : pystr) (host API_version : string)
    : Request :=
  mkRequest POST ("https://" +:+ host +:+ "/services/Soap/u/" +:+ API_version)
            (login_headers ∪ default_headers)
            (DataBody (LOGIN_format (str_of username) (str_of password))).

(** The request of [Job.query] for a query text. *)
Definition query_request (self : Job) (soql : string) : Request :=
  mkRequest POST (job_endpoint self +:+ "/batch") (headers (job_session self))
            (DataBody soql).

(** The abort request of a job. *)
Definition abort_request (self : Job) : Request :=
  mkRequest POST (job_endpoint self) (headers (job_session self))
            (JsonBody (state_change "Aborted")).

(** What [is_done] makes of a snapshot, whatever JSON value it is. *)
Definition judge (snap : json) : outcome bool :=
  outcome_bind (py_contains "state" snap) (fun has_state =>
  outcome_bind (if has_state : bool then py_getitem snap "state" else Ok JNull)
    (fun batch_state =>
  if py_in batch_state ERROR_STATES then
    outcome_bind (py_getitem snap "jobId") (fun job =>
    outcome_bind (py_getitem snap "id") (fun id =>
    outcome_bind (py_getitem snap "stateMessage") (fun message =>
    Raise (BulkBatchFailed job id message))))
  else Ok (json_eq_str batch_state COMPLETED))).

(** From [w] to [w'] only the waiting on [self] happened: the batch lists
    and every other object's cached snapshot are as they were, and every
    event added is a status poll of [self] or a sleep of [sleep_interval]. *)
Definition only_waited (self : Batch) (sleep_interval : Z) (w w' : World) : Prop :=
  batch_lists w' = batch_lists w /\
  (forall i, i <> batch_self self -> statuses w' !! i = statuses w !! i) /\
  exists events,
    trace w' = trace w ++ events /\
    Forall (fun ev => ev = EvRequest (poll_request self) \/ ev = EvSleep sleep_interval)
           events.

(** The seconds slept in a trace. *)
Fixpoint sleep_time (events : list Event) : Z :=
  match events with
  | [] => 0
  | EvSleep seconds :: rest => seconds + sleep_time rest
  | EvRequest _ :: rest => sleep_time rest
  end.

(** The job-creation request for a description. *)
Definition job_request (self : SalesforceBulk) (description : gmap string json) : Request :=
  mkRequest POST (endpoint self +:+ "/job") (headers (session self))
            (JsonBody (JObj description)).

(** What [login] reads out of the body of the response. *)
Definition read_login (body : string) : outcome (pystr * pystr) :=
  match ET_parse body with
  | None => Raise ParseError
  | Some tree =>
      outcome_bind (find_text tree SERVER_URL) (fun server_url =>
      outcome_bind (hostname_of server_url) (fun server_host =>
      outcome_bind (find_text tree SESSION_ID) (fun session_id =>
      Ok (server_host, session_id))))
  end.

(** A batch whose cached snapshot reports the completed state. *)
Definition completed (w : World) (batch : Batch) : Prop :=
  exists m, status_of w batch = JObj m /\
            py_in (state_of m) ERROR_STATES = false /\
            state_of m = JStr COMPLETED.

(** The server answers the result requests of [batches], one batch after
    the other from state [st], and is left in [st']: for a plain batch the
    result request is answered with the list [rows]; for a query batch it
    is answered with a list of ids, the chunk requests for these ids are
    answered in their order, and [rows] is the chunks one after the other. *)
Fixpoint serves_results (st : ServerState) (batches : list Batch)
    (rowss : list (list json)) (st' : ServerState) : Prop :=
  match batches, rowss with
  | [], [] => st' = st
  | batch :: batches', rows :: rowss' =>
      exists resp st1,
        serve st (mkRequest GET (batch_endpoint batch +:+ "/result")
                    (headers (batch_session batch)) NoBody) = (Some resp, st1) /\
        status_code resp < 400 /\
        match batch_class batch with
        | PlainBatch =>
            json_body resp = Some (JArr rows) /\
            serves_results st1 batches' rowss' st'
        | QueryBatch =>
            exists ids chunks st2,
              json_body resp = Some (JArr ids) /\
              serves_chunks batch st1 ids chunks st2 /\
              rows = concat chunks /\
              serves_results st2 batches' rowss' st'
        end
  | _, _ => False
  end.

(** The fixed text of the login envelope around the two credentials. *)
Definition envelope_head : string :=
  "<?xml version=" +:+ dq +:+ "1.0" +:+ dq +:+ " encoding=" +:+ dq +:+ "utf-8" +:+ dq
  +:+ " ?><env:Envelope xmlns:xsd=" +:+ dq +:+ "http://www.w3.org/2001/XMLSchema" +:+ dq
  +:+ "    xmlns:xsi=" +:+ dq +:+ "http://www.w3.org/2001/XMLSchema-instance" +:+ dq
  +:+ "    xmlns:env=" +:+ dq +:+ "http://schemas.xmlsoap.org/soap/envelope/" +:+ dq
  +:+ ">  <env:Body>    <n1:login xmlns:n1=" +:+ dq +:+ "urn:partner.soap.sforce.com" +:+ dq
  +:+ ">      <n1:username>".

Definition envelope_middle : string := "</n1:username>      <n1:password>".

Definition envelope_tail : string :=
  "</n1:password>    </n1:login>  </env:Body></env:Envelope>".

End Vocabulary.

(** ** Properties *)

Section Properties.
Context `{Env} `{bulk_states}.

Lemma check_status_lt_400 (r : Response) :
  status_code r < 400 -> check_status r = Ok tt.
Proof.
  intros Hlt. unfold check_status.
  destruct (Z.leb_spec 400 (status_code r)); [lia | reflexivity].
Qed.

Lemma check_status_ge_400 (r : Response) :
  400 <= status_code r -> check_status r = Raise (AttributeError "status").
Proof.
  intros Hge. unfold check_status.
  destruct (Z.leb_spec 400 (status_code r)); [reflexivity | lia].
Qed.

(** No response makes [check_status] raise the Bulk API error. *)
Lemma check_status_never_BulkApiError (r : Response) msg code :
  check_status r <> Raise (BulkApiError msg code).
Proof.
  unfold check_status.
  destruct (400 <=? status_code r); simpl; discriminate.
Qed.

(** *** The status cache *)

Lemma Batch_status_cached (self : Batch) (w : World) :
  status_of w self <> JNull ->
  Batch_status self false w = (Ok (status_of w self), w).
Proof.
  intros Hsnap. unfold Batch_status, bind, get_status, ret.
  destruct (status_of w self) eqn:E; simpl; rewrite ?E; congruence.
Qed.

Lemma status_of_cached (w : World) (self : Batch) (v : json) :
  status_of (cached w self v) self = v.
Proof. unfold status_of, cached. simpl. by rewrite lookup_insert_eq. Qed.

Lemma Batch_status_fetched (self : Batch) (reload : bool) (w : World) answer st :
  reload = true \/ status_of w self = JNull ->
  serve (remote w) (poll_request self) = (answer, st) ->
  Batch_status self reload w =
    match answer with
    | None => (Raise RequestException, sent w (poll_request self) st)
    | Some resp =>
        match check_status resp with
        | Ok _ =>
            match json_body resp with
            | Some parsed => (Ok parsed, cached (sent w (poll_request self) st) self parsed)
            | None => (Raise ValueError, sent w (poll_request self) st)
            end
        | Raise e => (Raise e, sent w (poll_request self) st)
        | OutOfFuel => (OutOfFuel, sent w (poll_request self) st)
        end
    end.
Proof.
  intros Hwhy Hserve.
  assert (reload || is_None_json (status_of w self) = true) as Hcond.
  { destruct Hwhy as [-> | ->]; [reflexivity | apply orb_true_r]. }
  unfold Batch_status, bind, get_status at 1. simpl. rewrite Hcond.
  unfold session_get, http, poll_request in *. rewrite Hserve.
  destruct answer as [resp|]; [|reflexivity].
  unfold lift. destruct (check_status resp) as [[]|e|]; try reflexivity.
  unfold resp_json. destruct (json_body resp) as [parsed|]; [|reflexivity].
  unfold set_status, get_status, status_of, cached, sent. simpl.
  by rewrite lookup_insert_eq.
Qed.

(** What [status] returns is what the cache holds afterwards. *)
Lemma Batch_status_returns_cache (self : Batch) (reload : bool) (w w' : World) v :
  Batch_status self reload w = (Ok v, w') -> status_of w' self = v.
Proof.
  unfold Batch_status, bind, get_status.
  destruct (reload || is_None_json (status_of w self)).
  - destruct (session_get _ _ w) as [[resp|e|] w1]; try discriminate.
    unfold lift. destruct (check_status resp) as [[]|e|]; try discriminate.
    destruct (resp_json resp) as [parsed|e|]; try discriminate.
    unfold set_status. intros [= <- <-]. reflexivity.
  - unfold ret. intros [= <- <-]. reflexivity.
Qed.

(** *** Batch.is_done *)

Lemma Batch_is_done_verdict (self : Batch) (reload : bool) (w w' : World) m :
  Batch_status self reload w = (Ok (JObj m), w') ->
  Batch_is_done self reload w = (verdict m, w').
Proof.
  intros Hstatus. unfold Batch_is_done, bind at 1. rewrite Hstatus.
  unfold verdict, state_of, bind, lift, ret, raise. simpl.
  destruct (m !! "state") as [state|] eqn:Hstate; simpl.
  - destruct (py_in state ERROR_STATES); [|reflexivity].
    destruct (m !! "jobId"); simpl; [|reflexivity].
    destruct (m !! "id"); simpl; [|reflexivity].
    destruct (m !! "stateMessage"); reflexivity.
  - destruct (py_in JNull ERROR_STATES); [|reflexivity].
    destruct (m !! "jobId"); simpl; [|reflexivity].
    destruct (m !! "id"); simpl; [|reflexivity].
    destruct (m !! "stateMessage"); reflexivity.
Qed.

Lemma py_in_None (states : list string) : py_in JNull states = false.
Proof. unfold py_in. induction states; simpl; auto. Qed.

Lemma json_eq_str_true (v : json) (s : string) :
  json_eq_str v s = true <-> v = JStr s.
Proof.
  destruct v; simpl; try (split; [discriminate | congruence]).
  rewrite bool_decide_eq_true. split; congruence.
Qed.

(** C3. A batch whose status snapshot (cached or just polled) reports a
    state of the error set makes [is_done] raise the batch-failed error
    with the snapshot's job id, batch id and state message, and a later
    [is_done()] on the state so reached raises it again and changes
    nothing; for any other state [is_done] returns a boolean that is true
    exactly when the state is the completed one. *)
Theorem Batch_is_done_error_state (self : Batch) (reload : bool) (w w' : World)
    (m : gmap string json) :
  Batch_status self reload w = (Ok (JObj m), w') ->
  (py_in (state_of m) ERROR_STATES = true ->
   forall job id message,
     m !! "jobId" = Some job -> m !! "id" = Some id ->
     m !! "stateMessage" = Some message ->
     Batch_is_done self reload w = (Raise (BulkBatchFailed job id message), w') /\
     Batch_is_done self false w' = (Raise (BulkBatchFailed job id message), w')) /\
  (py_in (state_of m) ERROR_STATES = false ->
   exists done : bool,
     Batch_is_done self reload w = (Ok done, w') /\
     (done = true <-> state_of m = JStr COMPLETED)).
Proof.
  intros Hstatus. split.
  - intros Herr job id message Hjob Hid Hmsg.
    assert (verdict m = Raise (BulkBatchFailed job id message)) as Hverdict.
    { unfold verdict. rewrite Herr. simpl. rewrite Hjob. simpl. rewrite Hid. simpl.
      rewrite Hmsg. reflexivity. }
    split.
    + rewrite (Batch_is_done_verdict _ _ _ _ _ Hstatus). by rewrite Hverdict.
    + pose proof (Batch_status_returns_cache _ _ _ _ _ Hstatus) as Hcache.
      assert (Batch_status self false w' = (Ok (JObj m), w')) as Hagain.
      { rewrite <- Hcache. apply Batch_status_cached. by rewrite Hcache. }
      rewrite (Batch_is_done_verdict _ _ _ _ _ Hagain). by rewrite Hverdict.
  - intros Hfine. exists (json_eq_str (state_of m) COMPLETED). split.
    + rewrite (Batch_is_done_verdict _ _ _ _ _ Hstatus). unfold verdict.
      by rewrite Hfine.
    + apply json_eq_str_true.
Qed.

(** C10. A batch whose status snapshot has no ['state'] key: [is_done]
    raises nothing and returns false. *)
Theorem Batch_is_done_without_state (self : Batch) (reload : bool) (w w' : World)
    (m : gmap string json) :
  Batch_status self reload w = (Ok (JObj m), w') ->
  m !! "state" = None ->
  Batch_is_done self reload w = (Ok false, w').
Proof.
  intros Hstatus Hnone.
  rewrite (Batch_is_done_verdict _ _ _ _ _ Hstatus).
  unfold verdict, state_of. rewrite Hnone. simpl.
  by rewrite py_in_None.
Qed.

(** C7. With a snapshot in the cache, [status(reload=False)] sends nothing
    and returns the snapshot, the world unchanged; with [reload] true or no
    snapshot yet, exactly one GET against the batch URI is sent, and when
    its response passes [check_status] and parses, the parsed body is
    returned and replaces the cache; and after a call that returned a
    snapshot, [status(reload=False)] returns that snapshot again and changes
    nothing. *)
Theorem Batch_status_cache (self : Batch) (reload : bool) (w : World) :
  (reload = false -> status_of w self <> JNull ->
   Batch_status self reload w = (Ok (status_of w self), w)) /\
  (reload = true \/ status_of w self = JNull ->
   trace (snd (Batch_status self reload w)) = trace w ++ [EvRequest (poll_request self)] /\
   forall resp st parsed,
     serve (remote w) (poll_request self) = (Some resp, st) ->
     accepted resp -> json_body resp = Some parsed ->
     Batch_status self reload w =
       (Ok parsed, cached (sent w (poll_request self) st) self parsed)) /\
  (forall snap w',
     Batch_status self reload w = (Ok snap, w') -> snap <> JNull ->
     Batch_status self false w' = (Ok snap, w')).
Proof.
  split; [|split].
  - intros -> Hsnap. by apply Batch_status_cached.
  - intros Hwhy.
    destruct (serve (remote w) (poll_request self)) as [answer st0] eqn:Hserve.
    rewrite (Batch_status_fetched _ _ _ _ _ Hwhy Hserve). split.
    + destruct answer as [resp|]; [|reflexivity].
      destruct (check_status resp) as [[]|e|]; try reflexivity.
      destruct (json_body resp); reflexivity.
    + intros resp st parsed [= -> ->] Hok Hbody.
      rewrite (check_status_lt_400 _ Hok), Hbody. reflexivity.
  - intros snap w' Hstatus Hsnap.
    pose proof (Batch_status_returns_cache _ _ _ _ _ Hstatus) as Hcache.
    rewrite <- Hcache. apply Batch_status_cached. by rewrite Hcache.
Qed.

(** *** Code without loops comes to an end *)

Lemma total_ret {A} (a : A) : total (ret a).
Proof. intros w. discriminate. Qed.

Lemma total_raise {A} (e : exn) : total (raise (A := A) e).
Proof. intros w. discriminate. Qed.

Lemma total_lift {A} (o : outcome A) : o <> OutOfFuel -> total (lift o).
Proof. intros Ho w. exact Ho. Qed.

Lemma total_bind {A B} (c : M A) (k : A -> M B) :
  total c -> (forall a, total (k a)) -> total (bind c k).
Proof.
  intros Hc Hk w. unfold bind. specialize (Hc w).
  destruct (c w) as [[a|e|] w1]; simpl in *; [apply Hk | discriminate | congruence].
Qed.

Lemma total_http (req : Request) : total (http req).
Proof.
  intros w. unfold http. destruct (serve (remote w) req) as [[resp|] st]; discriminate.
Qed.

Lemma check_status_total (resp : Response) : check_status resp <> OutOfFuel.
Proof. unfold check_status. destruct (400 <=? status_code resp); discriminate. Qed.

Lemma py_getitem_total (v : json) (key : string) : py_getitem v key <> OutOfFuel.
Proof. destruct v; simpl; try discriminate. destruct (m !! key); discriminate. Qed.

Lemma py_contains_total (v : json) (key : string) : py_contains key v <> OutOfFuel.
Proof. destruct v; discriminate. Qed.

Lemma py_iter_total (v : json) : py_iter v <> OutOfFuel.
Proof. destruct v; discriminate. Qed.

Lemma resp_json_total (resp : Response) : resp_json resp <> OutOfFuel.
Proof. unfold resp_json. destruct (json_body resp); discriminate. Qed.

Lemma total_Batch_status (self : Batch) (reload : bool) : total (Batch_status self reload).
Proof.
  unfold Batch_status. apply total_bind; [intros w; discriminate|]. intros cached.
  apply total_bind; [|intros _ w; discriminate].
  destruct (reload || is_None_json cached); [|apply total_ret].
  apply total_bind; [apply total_http|]. intros resp.
  apply total_bind; [apply total_lift, check_status_total|]. intros _.
  apply total_bind; [apply total_lift, resp_json_total|]. intros parsed w. discriminate.
Qed.

Lemma total_Batch_is_done (self : Batch) (reload : bool) : total (Batch_is_done self reload).
Proof.
  unfold Batch_is_done. apply total_bind; [apply total_Batch_status|]. intros snap.
  apply total_bind; [apply total_lift, py_contains_total|]. intros has.
  apply total_bind.
  { destruct has; [apply total_lift, py_getitem_total | apply total_ret]. }
  intros state. destruct (py_in state ERROR_STATES); [|apply total_ret].
  repeat (apply total_bind; [apply total_lift, py_getitem_total|]; intros ?).
  apply total_raise.
Qed.

(** *** Batch.wait *)

Lemma ceil_div_step (x y : Z) : 0 < y -> ceil_div (x - y) y = ceil_div x y - 1.
Proof.
  intros Hy. unfold ceil_div.
  replace (x - y + y - 1) with (x + y - 1 + (-1) * y) by lia.
  rewrite Z.div_add by lia. lia.
Qed.

Lemma ceil_div_pos (x y : Z) : 0 < y -> 0 < x -> 0 < ceil_div x y.
Proof.
  intros Hy Hx. unfold ceil_div.
  apply Z.div_str_pos. lia.
Qed.

Lemma ceil_div_nonpos (x y : Z) : 0 < y -> x <= 0 -> ceil_div x y <= 0.
Proof.
  intros Hy Hx. unfold ceil_div.
  assert ((x + y - 1) / y < 1); [|lia].
  apply Z.div_lt_upper_bound; lia.
Qed.

(** [ceil_div x y] is the least [k] with [x <= k * y]. *)
Lemma ceil_div_least (x y : Z) :
  0 < y -> x <= ceil_div x y * y /\ (ceil_div x y - 1) * y < x.
Proof.
  intros Hy. unfold ceil_div.
  pose proof (Z.div_mod (x + y - 1) y ltac:(lia)) as Hdm.
  pose proof (Z.mod_pos_bound (x + y - 1) y Hy) as Hmod.
  nia.
Qed.

Lemma sleeps_until_step (timeout sleep_interval waited : Z) :
  0 < sleep_interval -> waited < timeout ->
  sleeps_until (timeout - waited) sleep_interval =
    S (sleeps_until (timeout - (waited + sleep_interval)) sleep_interval).
Proof.
  intros Hy Hlt. unfold sleeps_until.
  replace (timeout - (waited + sleep_interval)) with (timeout - waited - sleep_interval) by lia.
  rewrite ceil_div_step by lia.
  pose proof (ceil_div_pos (timeout - waited) sleep_interval Hy ltac:(lia)). lia.
Qed.

Lemma sleeps_until_done (timeout sleep_interval waited : Z) :
  0 < sleep_interval -> timeout <= waited ->
  sleeps_until (timeout - waited) sleep_interval = O.
Proof.
  intros Hy Hge. unfold sleeps_until.
  pose proof (ceil_div_nonpos (timeout - waited) sleep_interval Hy ltac:(lia)). lia.
Qed.

Lemma sleep_positive (seconds : Z) (w : World) :
  0 <= seconds -> sleep seconds w = (Ok tt, slept w seconds).
Proof.
  intros Hs. unfold sleep. destruct (Z.ltb_spec seconds 0); [lia | reflexivity].
Qed.

(** With a positive interval the loop ends within the sleeps that reach the
    timeout, and does what [waits] says. *)
Lemma wait_loop_waits (self : Batch) (timeout sleep_interval : Z) :
  0 < sleep_interval ->
  forall fuel waited w,
    (sleeps_until (timeout - waited) sleep_interval < fuel)%nat ->
    exists r w',
      wait_loop fuel self timeout sleep_interval waited w = (r, w') /\
      r <> OutOfFuel /\
      waits self timeout sleep_interval waited w r w'.
Proof.
  intros Hpos. induction fuel as [|fuel IH]; intros waited w Hfuel; [lia|].
  simpl. unfold bind at 1.
  pose proof (total_Batch_is_done self true w) as Htotal.
  destruct (Batch_is_done self true w) as [[[]|e|] w1] eqn:Hpoll; simpl in Htotal.
  - exists (Ok tt), w1. simpl. repeat split; [discriminate | by apply waits_done].
  - simpl. destruct (Z.ltb_spec waited timeout) as [Hlt|Hge].
    + unfold bind at 1. rewrite sleep_positive by lia.
      rewrite (sleeps_until_step _ _ _ Hpos Hlt) in Hfuel.
      destruct (IH (waited + sleep_interval) (slept w1 sleep_interval) ltac:(lia))
        as (r & w' & Hrun & Hr & Hwaits).
      exists r, w'. repeat split; try assumption.
      by eapply waits_sleep.
    + exists (Ok tt), w1. repeat split; [discriminate | by apply waits_timeout].
  - exists (Raise e), w1. repeat split; [discriminate | by apply waits_raise].
  - congruence.
Qed.

Lemma poll_in_progress (self : Batch) (inv : ServerState -> Prop) (w : World) :
  never_completes self inv -> inv (remote w) ->
  exists w1,
    Batch_is_done self true w = (Ok false, w1) /\
    trace w1 = trace w ++ [EvRequest (poll_request self)] /\
    inv (remote w1).
Proof.
  intros [Hpoll _] Hinv.
  destruct (Hpoll _ Hinv) as (resp & st & Hserve & (Hok & m & Hbody & Herr & Hstate) & Hinv').
  pose proof (Batch_status_fetched self true w _ _ (or_introl eq_refl) Hserve) as Hstatus.
  cbv beta iota in Hstatus.
  rewrite (check_status_lt_400 _ Hok), Hbody in Hstatus.
  exists (cached (sent w (poll_request self) st) self (JObj m)).
  rewrite (Batch_is_done_verdict _ _ _ _ _ Hstatus).
  unfold verdict. rewrite Herr.
  destruct (json_eq_str (state_of m) COMPLETED) eqn:Heq.
  - apply json_eq_str_true in Heq. contradiction.
  - repeat split. exact Hinv'.
Qed.

Lemma wait_loop_never_completes (self : Batch) (timeout sleep_interval : Z)
    (inv : ServerState -> Prop) :
  0 < sleep_interval -> never_completes self inv ->
  forall fuel waited w,
    inv (remote w) ->
    (sleeps_until (timeout - waited) sleep_interval < fuel)%nat ->
    exists w',
      wait_loop fuel self timeout sleep_interval waited w = (Ok tt, w') /\
      trace w' = trace w ++ EvRequest (poll_request self)
                   :: sleep_and_poll self sleep_interval
                        (sleeps_until (timeout - waited) sleep_interval) /\
      inv (remote w').
Proof.
  intros Hpos Hnever. induction fuel as [|fuel IH]; intros waited w Hinv Hfuel; [lia|].
  destruct (poll_in_progress self inv w Hnever Hinv) as (w1 & Hpoll & Htrace & Hinv1).
  simpl. unfold bind at 1. rewrite Hpoll. simpl.
  destruct (Z.ltb_spec waited timeout) as [Hlt|Hge].
  - unfold bind at 1. rewrite sleep_positive by lia.
    rewrite (sleeps_until_step _ _ _ Hpos Hlt) in Hfuel |- *.
    destruct (IH (waited + sleep_interval) (slept w1 sleep_interval)) as (w' & Hrun & Htr & Hinv').
    { simpl. by apply Hnever. }
    { lia. }
    exists w'. repeat split; try assumption.
    rewrite Htr. simpl. rewrite Htrace. unfold sleep_and_poll. simpl.
    rewrite <- !app_assoc. reflexivity.
  - rewrite (sleeps_until_done _ _ _ Hpos Hge).
    exists w1. repeat split; assumption.
Qed.

(** C4. [wait] with a positive poll interval comes to an end: it polls
    with [is_done(True)], sleeping the interval between polls, until a
    poll says done or the accumulated sleep time has reached the timeout,
    and then returns without raising; against a batch that never
    completes it returns normally after the initial poll and one sleep and
    poll for each of the sleeps that reach the timeout, which for
    [wait(30, 10)] are three. *)
Theorem Batch_wait_polls (self : Batch) (fuel : nat) (w : World) :
  (forall timeout sleep_interval,
     0 < sleep_interval -> (sleeps_until timeout sleep_interval < fuel)%nat ->
     exists r w',
       Batch_wait fuel self timeout sleep_interval w = (r, w') /\
       r <> OutOfFuel /\
       waits self timeout sleep_interval 0 w r w') /\
  (forall timeout sleep_interval inv,
     0 < sleep_interval -> (sleeps_until timeout sleep_interval < fuel)%nat ->
     never_completes self inv -> inv (remote w) ->
     exists w',
       Batch_wait fuel self timeout sleep_interval w = (Ok tt, w') /\
       trace w' = trace w ++ EvRequest (poll_request self)
                    :: sleep_and_poll self sleep_interval
                         (sleeps_until timeout sleep_interval) /\
       timeout <= Z.of_nat (sleeps_until timeout sleep_interval) * sleep_interval /\
       (0 < timeout ->
        (Z.of_nat (sleeps_until timeout sleep_interval) - 1) * sleep_interval < timeout)) /\
  (forall inv,
     (3 < fuel)%nat -> never_completes self inv -> inv (remote w) ->
     exists w',
       Batch_wait fuel self 30 10 w = (Ok tt, w') /\
       trace w' = trace w ++
         [EvRequest (poll_request self);
          EvSleep 10; EvRequest (poll_request self);
          EvSleep 10; EvRequest (poll_request self);
          EvSleep 10; EvRequest (poll_request self)]).
Proof.
  split; [|split].
  - intros timeout sleep_interval Hpos Hfuel. unfold Batch_wait.
    apply wait_loop_waits; [assumption|]. by rewrite Z.sub_0_r.
  - intros timeout sleep_interval inv Hpos Hfuel Hnever Hinv. unfold Batch_wait.
    destruct (wait_loop_never_completes self timeout sleep_interval inv Hpos Hnever
                fuel 0 w Hinv) as (w' & Hrun & Htrace & _).
    { by rewrite Z.sub_0_r. }
    rewrite Z.sub_0_r in Htrace.
    exists w'. split; [assumption|]. split; [assumption|].
    unfold sleeps_until.
    pose proof (ceil_div_least timeout sleep_interval Hpos) as [Hup Hlow].
    destruct (Z.le_gt_cases timeout 0) as [Hle|Hgt].
    + pose proof (ceil_div_nonpos timeout sleep_interval Hpos Hle). split; [nia | lia].
    + pose proof (ceil_div_pos timeout sleep_interval Hpos Hgt).
      rewrite Z2Nat.id by lia. split; [assumption | intros _; assumption].
  - intros inv Hfuel Hnever Hinv. unfold Batch_wait.
    destruct (wait_loop_never_completes self 30 10 inv ltac:(lia) Hnever
                fuel 0 w Hinv) as (w' & Hrun & Htrace & _).
    { exact Hfuel. }
    exists w'. split; [assumption | exact Htrace].
Qed.

(** *** Job.is_done *)

(** After the status was read, [is_done] changes nothing. *)
Lemma Batch_is_done_world (self : Batch) (reload : bool) (w : World) :
  snd (Batch_is_done self reload w) = snd (Batch_status self reload w).
Proof.
  unfold Batch_is_done, bind at 1.
  destruct (Batch_status self reload w) as [[snap|e|] w1]; simpl; try reflexivity.
  unfold bind, lift, ret, raise.
  destruct (py_contains "state" snap) as [[]|e|]; simpl; try reflexivity.
  - destruct (py_getitem snap "state") as [state|e|]; simpl; try reflexivity.
    destruct (py_in state ERROR_STATES); [|reflexivity].
    destruct (py_getitem snap "jobId"); simpl; try reflexivity.
    destruct (py_getitem snap "id"); simpl; try reflexivity.
    destruct (py_getitem snap "stateMessage"); reflexivity.
  - destruct (py_in JNull ERROR_STATES); [|reflexivity].
    destruct (py_getitem snap "jobId"); simpl; try reflexivity.
    destruct (py_getitem snap "id"); simpl; try reflexivity.
    destruct (py_getitem snap "stateMessage"); reflexivity.
Qed.

Lemma examined_only_refl (examined : list Batch) (w : World) :
  examined_only examined w w.
Proof.
  repeat split. exists []. split; [by rewrite app_nil_r | constructor].
Qed.

Lemma Batch_status_examined (self : Batch) (reload : bool) (w : World) :
  examined_only [self] w (snd (Batch_status self reload w)).
Proof.
  assert ((reload = true \/ status_of w self = JNull) \/
          (reload = false /\ status_of w self <> JNull)) as [Hwhy | [-> Hsnap]].
  { destruct reload; [by left; left|].
    destruct (status_of w self); (by left; right) || (right; split; congruence). }
  - destruct (serve (remote w) (poll_request self)) as [answer st] eqn:Hserve.
    rewrite (Batch_status_fetched _ _ _ _ _ Hwhy Hserve).
    assert (examined_only [self] w (sent w (poll_request self) st)) as Hsent.
    { repeat split. exists [EvRequest (poll_request self)]. split; [reflexivity|].
      constructor; [|constructor]. exists self. split; [set_solver | reflexivity]. }
    destruct answer as [resp|]; [|exact Hsent].
    destruct (check_status resp) as [[]|e|]; try exact Hsent.
    destruct (json_body resp) as [parsed|]; [|exact Hsent].
    destruct Hsent as (Hlists & Hstat & Hevents).
    split; [exact Hlists|]. split; [|exact Hevents].
    intros i Hi. simpl. rewrite lookup_insert_ne; [reflexivity|]. set_solver.
  - rewrite Batch_status_cached by assumption. apply examined_only_refl.
Qed.

Lemma Batch_is_done_examined (self : Batch) (reload : bool) (w w' : World) r :
  Batch_is_done self reload w = (r, w') -> examined_only [self] w w'.
Proof.
  intros Hrun. pose proof (Batch_is_done_world self reload w) as Hworld.
  rewrite Hrun in Hworld. simpl in Hworld. subst w'. apply Batch_status_examined.
Qed.

Lemma examined_only_trans (xs ys : list Batch) (w1 w2 w3 : World) :
  examined_only xs w1 w2 -> examined_only ys w2 w3 ->
  examined_only (xs ++ ys) w1 w3.
Proof.
  intros (Hl1 & Hs1 & ev1 & Ht1 & Hf1) (Hl2 & Hs2 & ev2 & Ht2 & Hf2).
  split; [congruence|]. split.
  - intros i Hi. rewrite fmap_app in Hi.
    rewrite Hs2, Hs1; [reflexivity | set_solver | set_solver].
  - exists (ev1 ++ ev2). split; [rewrite Ht2, Ht1; by rewrite app_assoc|].
    apply Forall_app. split.
    + eapply Forall_impl; [exact Hf1|]. intros ev (b & Hb & ->). exists b. set_solver.
    + eapply Forall_impl; [exact Hf2|]. intros ev (b & Hb & ->). exists b. set_solver.
Qed.

Lemma all_done_examined (batches : list Batch) (w w' : World) :
  all_done batches w w' -> examined_only batches w w'.
Proof.
  induction 1 as [w | batch rest w w1 w2 Hdone _ IH].
  - apply examined_only_refl.
  - change (batch :: rest) with ([batch] ++ rest).
    eapply examined_only_trans; [|exact IH]. by eapply Batch_is_done_examined.
Qed.

Lemma is_done_loop_true (batches : list Batch) (w w' : World) :
  is_done_loop batches w = (Ok true, w') <-> all_done batches w w'.
Proof.
  revert w. induction batches as [|batch rest IH]; intros w; simpl.
  - unfold ret. split.
    + intros [= <-]. constructor.
    + inversion 1. reflexivity.
  - unfold bind. split.
    + destruct (Batch_is_done batch false w) as [[[]|e|] w1] eqn:Hdone; simpl;
        try discriminate.
      intros Hrest. econstructor; [exact Hdone | by apply IH].
    + inversion 1 as [| ? ? ? w1 ? Hdone Hrest]; subst.
      rewrite Hdone. simpl. by apply IH.
Qed.

Lemma is_done_loop_false (batches : list Batch) (w w' : World) :
  is_done_loop batches w = (Ok false, w') <->
  exists before batch after w1,
    batches = before ++ batch :: after /\
    all_done before w w1 /\
    Batch_is_done batch false w1 = (Ok false, w').
Proof.
  revert w. induction batches as [|first rest IH]; intros w; simpl.
  - unfold ret. split; [discriminate|].
    intros (before & batch & after & w1 & Hsplit & _). by destruct before.
  - unfold bind. split.
    + destruct (Batch_is_done first false w) as [[[]|e|] w1] eqn:Hdone; simpl;
        try discriminate.
      * intros Hrest. apply IH in Hrest as (before & batch & after & w2 & -> & Hall & Hlast).
        exists (first :: before), batch, after, w2.
        split; [reflexivity|]. split; [|exact Hlast]. econstructor; eassumption.
      * unfold ret. intros [= <-]. exists [], first, rest, w.
        split; [reflexivity|]. split; [constructor | exact Hdone].
    + intros (before & batch & after & w1 & Hsplit & Hall & Hlast).
      destruct before as [|b0 before]; simpl in Hsplit; injection Hsplit as -> ->.
      * inversion Hall; subst. rewrite Hlast. reflexivity.
      * inversion Hall as [| ? ? ? w0 ? Hdone Hrest]; subst.
        rewrite Hdone. simpl. apply IH. by exists before, batch, after, w1.
Qed.

(** C6. [Job.is_done] returns true exactly when every owned batch, asked
    in insertion order, reports done; it returns false exactly when some
    batch reports not done after all batches before it reported done, and
    then the world is the one that batch's own check left: nothing was
    evaluated after it, the cached snapshots of all other batches are
    untouched and only batches up to it were polled. *)
Theorem Job_is_done_short_circuit (self : Job) (w w' : World) :
  (Job_is_done self w = (Ok true, w') <-> all_done (batches_of w self) w w') /\
  (Job_is_done self w = (Ok false, w') <->
   exists before batch after w1,
     batches_of w self = before ++ batch :: after /\
     all_done before w w1 /\
     Batch_is_done batch false w1 = (Ok false, w')) /\
  (forall before batch after w1,
     batches_of w self = before ++ batch :: after ->
     all_done before w w1 ->
     Batch_is_done batch false w1 = (Ok false, w') ->
     Job_is_done self w = (Ok false, w') /\
     examined_only (before ++ [batch]) w w').
Proof.
  unfold Job_is_done, bind, get_batches.
  split; [apply is_done_loop_true|]. split; [apply is_done_loop_false|].
  intros before batch after w1 Hsplit Hall Hlast. split.
  - apply is_done_loop_false. by exists before, batch, after, w1.
  - eapply examined_only_trans; [by apply all_done_examined|].
    by eapply Batch_is_done_examined.
Qed.

(** *** Job.post *)

Lemma rows_between_lookup (data : list json) (lo hi k : nat) :
  rows_between data lo hi !! k =
    if decide (lo + k < hi)%nat then data !! (lo + k)%nat else None.
Proof.
  unfold rows_between. destruct (decide (lo + k < hi)%nat) as [Hin|Hout].
  - rewrite lookup_take_lt by lia. apply lookup_drop.
  - apply lookup_take_ge. lia.
Qed.

(** The slice the loop takes at start index [i * b] is chunk [i]. *)
Lemma py_slice_chunk (data : list json) (b : Z) (i : nat) :
  0 < b ->
  py_slice data (Z.of_nat i * b) (Z.of_nat i * b + b) = chunk data b i.
Proof.
  intros Hb. unfold py_slice, chunk, rows_between.
  set (n := Z.of_nat (length data)). set (lo := Z.of_nat i * b).
  assert (0 <= lo) as Hlo by (subst lo; nia).
  assert (0 <= n) as Hn by (subst n; lia).
  destruct (Z.ltb_spec lo 0) as [|_]; [lia|].
  destruct (Z.ltb_spec (lo + b) 0) as [|_]; [lia|].
  replace ((Z.of_nat i + 1) * b) with (lo + b) by (subst lo; lia).
  destruct (Z.le_gt_cases lo n) as [Hin|Hout].
  - rewrite (Z.min_l lo n) by lia. f_equal. lia.
  - rewrite !drop_ge by (subst n; lia). by rewrite !take_nil.
Qed.

Lemma xrange_chunks (n b : Z) :
  0 < b ->
  xrange 0 n b = Ok ((fun i => Z.of_nat i * b) <$> seq 0 (Z.to_nat (ceil_div n b))).
Proof.
  intros Hb. unfold xrange, ceil_div.
  destruct (Z.eqb_spec b 0) as [|_]; [lia|].
  destruct (Z.ltb_spec 0 b) as [_|]; [|lia].
  rewrite Z.sub_0_r. reflexivity.
Qed.

(** One round of the loop of [Job.post], when the server accepts. *)
Lemma post_loop_step (self : Job) (data : list json) (b : Z) (i : Z) (starts : list Z)
    (acc : list Batch) (w : World) resp st m id :
  let rows := py_slice data i (i + b) in
  let batch := mkBatch PlainBatch (job_session self)
                 (job_endpoint self +:+ "/batch/" +:+ py_str id) id (next_id w) in
  serve (remote w) (post_request self rows) = (Some resp, st) ->
  accepted resp -> json_body resp = Some (JObj m) -> m !! "id" = Some id ->
  exists w1,
    post_loop self (job_endpoint self +:+ "/batch") data b (i :: starts) acc w =
      post_loop self (job_endpoint self +:+ "/batch") data b starts (acc ++ [batch]) w1 /\
    remote w1 = st /\
    trace w1 = trace w ++ [EvRequest (post_request self rows)] /\
    next_id w1 = S (next_id w) /\
    batches_of w1 self = batches_of w self ++ [batch].
Proof.
  intros rows batch Hserve Hok Hbody Hid. eexists.
  simpl post_loop.
  unfold bind at 1. unfold session_post_json, http.
  unfold post_request in Hserve. fold rows. rewrite Hserve.
  unfold bind at 1. unfold lift at 1. rewrite (check_status_lt_400 _ Hok).
  unfold bind at 1. unfold lift at 1. unfold resp_json. rewrite Hbody.
  unfold bind at 1. unfold lift at 1. simpl py_getitem. rewrite Hid.
  unfold bind at 1.
  unfold Batch_init, batches_append, get_batches, set_batches, set_status, new_object.
  unfold bind at 1 2 3 4. unfold ret at 1. simpl.
  split; [reflexivity|]. split; [reflexivity|]. split; [reflexivity|].
  split; [reflexivity|].
  unfold batches_of. simpl. by rewrite lookup_insert_eq.
Qed.

Lemma post_loop_run (self : Job) (data : list json) (b : Z) :
  0 < b ->
  forall (idxs : list nat) (ids : list json) (acc : list Batch) (w : World) st',
    creates self (remote w) (chunk data b <$> idxs) ids st' ->
    exists w',
      post_loop self (job_endpoint self +:+ "/batch") data b
                ((fun i => Z.of_nat i * b) <$> idxs) acc w
        = (Ok (acc ++ new_batches self ids (next_id w)), w') /\
      remote w' = st' /\
      trace w' = trace w ++ ((fun i => EvRequest (post_request self (chunk data b i))) <$> idxs) /\
      batches_of w' self = batches_of w self ++ new_batches self ids (next_id w) /\
      length ids = length idxs.
Proof.
  intros Hb. induction idxs as [|i idxs IH]; intros ids acc w st' Hcreates.
  - destruct ids; simpl in Hcreates; [|contradiction]. subst st'.
    exists w. simpl. unfold ret. by rewrite !app_nil_r.
  - destruct ids as [|id ids]; simpl in Hcreates; [contradiction|].
    destruct Hcreates as (resp & st1 & m & Hserve & Hok & Hbody & Hid & Hrest).
    rewrite <- (py_slice_chunk data b i Hb) in Hserve.
    destruct (post_loop_step self data b (Z.of_nat i * b) ((fun i => Z.of_nat i * b) <$> idxs)
                acc w resp st1 m id Hserve Hok Hbody Hid)
      as (w1 & Hstep & Hremote & Htrace & Hnext & Hlist).
    rewrite <- Hremote in Hrest.
    destruct (IH ids (acc ++ [mkBatch PlainBatch (job_session self)
                 (job_endpoint self +:+ "/batch/" +:+ py_str id) id (next_id w)]) w1 st' Hrest)
      as (w' & Hrun & Hremote' & Htrace' & Hlist' & Hlen).
    exists w'. rewrite fmap_cons, Hstep, Hrun, Hnext. simpl.
    rewrite <- app_assoc. split; [reflexivity|]. split; [assumption|].
    split; [|split].
    + rewrite Htrace', Htrace, (py_slice_chunk data b i Hb), <- app_assoc. reflexivity.
    + rewrite Hlist', Hlist, Hnext, <- app_assoc. reflexivity.
    + by rewrite Hlen.
Qed.

Lemma length_new_batches (self : Job) (ids : list json) (from : nat) :
  length (new_batches self ids from) = length ids.
Proof. revert from. induction ids; intros from; simpl; auto. Qed.

(** C2. For a positive batch size [b] and [n] rows, when the server
    accepts the batch-creation requests, [Job.post] sends exactly
    [ceil (n / b)] of them, the request number [i] carrying the rows at the
    indices from [i * b] up to [min ((i + 1) * b) n]; it returns exactly the
    batches it created, in that order, and has appended them, in that
    order, to the batches the job already had. *)
Theorem Job_post_chunks (self : Job) (data : list json) (b : Z) (w : World)
    (ids : list json) st' :
  let n := length data in
  let k := Z.to_nat (ceil_div (Z.of_nat n) b) in
  0 < b ->
  creates self (remote w) (chunk data b <$> seq 0 k) ids st' ->
  exists w',
    Job_post self data b w = (Ok (new_batches self ids (next_id w)), w') /\
    length (new_batches self ids (next_id w)) = k /\
    trace w' = trace w ++ ((fun i => EvRequest (post_request self (chunk data b i))) <$> seq 0 k) /\
    batches_of w' self = batches_of w self ++ new_batches self ids (next_id w) /\
    (Z.of_nat n <= Z.of_nat k * b /\ (Z.of_nat k - 1) * b < Z.of_nat n) /\
    (forall i j : nat,
       chunk data b i !! j =
         if decide (Z.of_nat i * b + Z.of_nat j <
                    Z.min ((Z.of_nat i + 1) * b) (Z.of_nat n))
         then data !! (Z.to_nat (Z.of_nat i * b + Z.of_nat j)) else None).
Proof.
  intros n k Hb Hcreates.
  destruct (post_loop_run self data b Hb (seq 0 k) ids [] w st' Hcreates)
    as (w' & Hrun & _ & Htrace & Hlist & Hlen).
  exists w'. split; [|split; [|split; [|split; [|split]]]].
  - unfold Job_post, bind at 1. unfold lift. rewrite (xrange_chunks _ b Hb). exact Hrun.
  - rewrite length_new_batches, Hlen. apply length_seq.
  - exact Htrace.
  - exact Hlist.
  - pose proof (ceil_div_least (Z.of_nat n) b Hb) as [Hup Hlow].
    destruct (Z.le_gt_cases (Z.of_nat n) 0) as [Hle|Hgt].
    + pose proof (ceil_div_nonpos _ b Hb Hle). subst k. split; [nia | lia].
    + pose proof (ceil_div_pos _ b Hb Hgt). subst k.
      rewrite Z2Nat.id by lia. split; assumption.
  - intros i j. unfold chunk. rewrite rows_between_lookup. fold n.
    assert (0 <= Z.of_nat i * b) by nia.
    destruct (decide (Z.of_nat i * b + Z.of_nat j <
                      Z.min ((Z.of_nat i + 1) * b) (Z.of_nat n))) as [Hin|Hout].
    + rewrite decide_True by lia. f_equal. lia.
    + rewrite decide_False by lia. reflexivity.
Qed.

(** *** Results *)

Lemma gen_for_each_yields {A} (body : A -> Gen) (xs : list A) (w : World) :
  exists rss o w',
    each_yields body xs w rss o w' /\ gen_for xs body w = (concat rss, o, w').
Proof.
  revert w. induction xs as [|x xs IH]; intros w.
  - exists [], (Ok tt), w. split; [constructor | reflexivity].
  - simpl. unfold gen_seq.
    destruct (body x w) as [[rows o] w1] eqn:Hbody.
    destruct o as [[]|e|].
    + destruct (IH w1) as (rss & o & w' & Hrest & Hrun).
      exists (rows :: rss), o, w'. split; [by econstructor|].
      rewrite Hrun. reflexivity.
    + exists [rows], (Raise e), w1. split; [by eapply each_stop|].
      simpl. by rewrite app_nil_r.
    + exists [rows], OutOfFuel, w1. split; [by eapply each_stop|].
      simpl. by rewrite app_nil_r.
Qed.

Lemma gen_bind_bind {A B} (c : M A) (k : A -> M B) (g : B -> Gen) (w : World) :
  gen_bind (bind c k) g w = gen_bind c (fun a => gen_bind (k a) g) w.
Proof.
  unfold gen_bind, bind. destruct (c w) as [[a|e|] w1]; reflexivity.
Qed.

Lemma Job_results_after_prelude (fuel : nat) (self : Job) (w : World) :
  Job_results fuel self w =
    gen_bind (job_prelude fuel self)
      (fun _ => gen_bind (get_batches self)
                  (fun batches => gen_for batches (results fuel))) w.
Proof. unfold Job_results, job_prelude. by rewrite gen_bind_bind. Qed.

Lemma Batch_results_after_prelude (fuel : nat) (self : Batch) (w : World) :
  Batch_results fuel self w =
    gen_bind (batch_prelude fuel self) (fun _ =>
      gen_bind (session_get (batch_session self) (batch_endpoint self +:+ "/result"))
        (fun resp =>
      gen_bind (lift (check_status resp)) (fun _ =>
      gen_bind (lift (outcome_bind (resp_json resp) py_iter)) (fun rows =>
      yield_each rows)))) w.
Proof. unfold Batch_results, batch_prelude. by rewrite gen_bind_bind. Qed.

Lemma BatchQuery_results_after_prelude (fuel : nat) (self : Batch) (w : World) :
  BatchQuery_results fuel self w =
    gen_bind (batch_prelude fuel self) (fun _ =>
      gen_bind (session_get (batch_session self) (batch_endpoint self +:+ "/result"))
        (fun resp =>
      gen_bind (lift (check_status resp)) (fun _ =>
      gen_bind (lift (resp_json resp)) (fun parsed =>
      gen_bind (lift (py_iter parsed)) (fun result_ids =>
      gen_for result_ids (fetch_chunk self)))))) w.
Proof. unfold BatchQuery_results, batch_prelude. by rewrite gen_bind_bind. Qed.

(** The chunks of a query batch, fetched in the order of their ids. *)
Lemma fetch_chunks_run (self : Batch) :
  forall (ids : list json) (chunks : list (list json)) (w : World) st',
    serves_chunks self (remote w) ids chunks st' ->
    exists w',
      gen_for ids (fetch_chunk self) w = (concat chunks, Ok tt, w') /\
      remote w' = st' /\
      trace w' = trace w ++ ((fun id => EvRequest (chunk_request self id)) <$> ids).
Proof.
  induction ids as [|id ids IH]; intros chunks w st' Hserves.
  - destruct chunks; simpl in Hserves; [|contradiction]. subst st'.
    exists w. simpl. unfold yield_each. by rewrite app_nil_r.
  - destruct chunks as [|rows chunks]; simpl in Hserves; [contradiction|].
    destruct Hserves as (resp & st1 & Hserve & Hok & Hbody & Hrest).
    destruct (IH chunks (sent w (chunk_request self id) st1) st' Hrest)
      as (w' & Hrun & Hremote & Htrace).
    exists w'. simpl gen_for. unfold gen_seq, fetch_chunk at 1.
    unfold gen_bind at 1. unfold session_get, http.
    unfold chunk_request in Hserve. rewrite Hserve.
    unfold gen_bind at 1. unfold lift at 1. rewrite (check_status_lt_400 _ Hok).
    unfold gen_bind at 1. unfold lift at 1. unfold resp_json. rewrite Hbody. simpl outcome_bind.
    unfold yield_each at 1.
    fold (chunk_request self id). fold (sent w (chunk_request self id) st1).
    rewrite Hrun. simpl. split; [reflexivity|]. split; [assumption|].
    rewrite Htrace. simpl. by rewrite <- app_assoc.
Qed.

(** *** Draining comes to an end *)

Lemma gen_total_bind {A} (c : M A) (k : A -> Gen) :
  total c -> (forall a, gen_total (k a)) -> gen_total (gen_bind c k).
Proof.
  intros Hc Hk w. unfold gen_bind. specialize (Hc w).
  destruct (c w) as [[a|e|] w1]; simpl in *; [apply Hk | discriminate | congruence].
Qed.

Lemma gen_total_yield_each (rows : list json) : gen_total (yield_each rows).
Proof. intros w. discriminate. Qed.

Lemma gen_total_for {A} (xs : list A) (body : A -> Gen) :
  (forall x, gen_total (body x)) -> gen_total (gen_for xs body).
Proof.
  intros Hbody. induction xs as [|x xs IH]; intros w; simpl; [discriminate|].
  unfold gen_seq. specialize (Hbody x w).
  destruct (body x w) as [[rows [[]|e|]] w1]; simpl in *; try discriminate; [|congruence].
  specialize (IH w1). destruct (gen_for xs body w1) as [[rows2 o] w2]. exact IH.
Qed.

Lemma total_Batch_wait (fuel : nat) (self : Batch) (timeout sleep_interval : Z) :
  0 < sleep_interval -> (sleeps_until timeout sleep_interval < fuel)%nat ->
  total (Batch_wait fuel self timeout sleep_interval).
Proof.
  intros Hpos Hfuel w. unfold Batch_wait.
  destruct (wait_loop_waits self timeout sleep_interval Hpos fuel 0 w) as (r & w' & Hrun & Hr & _).
  { by rewrite Z.sub_0_r. }
  by rewrite Hrun.
Qed.

Lemma sleeps_until_default : sleeps_until (60 * 10) 10 = 60%nat.
Proof. reflexivity. Qed.

Lemma total_batch_prelude (fuel : nat) (self : Batch) :
  (60 < fuel)%nat -> total (batch_prelude fuel self).
Proof.
  intros Hfuel. unfold batch_prelude.
  apply total_bind; [apply total_Batch_is_done|]. intros [|]; simpl.
  - apply total_ret.
  - apply total_Batch_wait; [lia | by rewrite sleeps_until_default].
Qed.

Lemma total_Job_is_done (self : Job) : total (Job_is_done self).
Proof.
  unfold Job_is_done. apply total_bind; [intros w; discriminate|].
  intros batches. induction batches as [|batch rest IH]; simpl; [apply total_ret|].
  apply total_bind; [apply total_Batch_is_done|]. intros [|]; simpl;
    [exact IH | apply total_ret].
Qed.

Lemma total_Job_wait (fuel : nat) (self : Job) (timeout sleep_interval : Z) :
  0 < sleep_interval -> (sleeps_until timeout sleep_interval < fuel)%nat ->
  total (Job_wait fuel self timeout sleep_interval).
Proof.
  intros Hpos Hfuel. unfold Job_wait. apply total_bind; [intros w; discriminate|].
  intros batches. induction batches as [|batch rest IH]; simpl; [apply total_ret|].
  apply total_bind; [by apply total_Batch_wait | intros _; exact IH].
Qed.

Lemma gen_total_fetch (resp : Response) :
  gen_total (gen_bind (lift (check_status resp)) (fun _ =>
             gen_bind (lift (outcome_bind (resp_json resp) py_iter)) (fun rows =>
             yield_each rows))).
Proof.
  apply gen_total_bind; [apply total_lift, check_status_total|]. intros _.
  apply gen_total_bind; [|intros rows; apply gen_total_yield_each].
  apply total_lift. unfold resp_json. destruct (json_body resp) as [j|]; simpl;
    [apply py_iter_total | discriminate].
Qed.

Lemma gen_total_results (fuel : nat) (batch : Batch) :
  (60 < fuel)%nat -> gen_total (results fuel batch).
Proof.
  intros Hfuel w. unfold results. destruct (batch_class batch).
  - rewrite Batch_results_after_prelude. revert w.
    apply gen_total_bind; [by apply total_batch_prelude|]. intros _.
    apply gen_total_bind; [apply total_http|]. intros resp. apply gen_total_fetch.
  - rewrite BatchQuery_results_after_prelude. revert w.
    apply gen_total_bind; [by apply total_batch_prelude|]. intros _.
    apply gen_total_bind; [apply total_http|]. intros resp.
    apply gen_total_bind; [apply total_lift, check_status_total|]. intros _.
    apply gen_total_bind; [apply total_lift, resp_json_total|]. intros parsed.
    apply gen_total_bind; [apply total_lift, py_iter_total|]. intros ids.
    apply gen_total_for. intros id. unfold fetch_chunk.
    apply gen_total_bind; [apply total_http|]. intros resp'. apply gen_total_fetch.
Qed.

Lemma gen_total_Job_results (fuel : nat) (self : Job) :
  (60 < fuel)%nat -> gen_total (Job_results fuel self).
Proof.
  intros Hfuel w. rewrite Job_results_after_prelude. revert w.
  apply gen_total_bind.
  - unfold job_prelude. apply total_bind; [apply total_Job_is_done|]. intros [|]; simpl.
    + apply total_ret.
    + apply total_Job_wait; [lia | by rewrite sleeps_until_default].
  - intros _. apply gen_total_bind; [intros w; discriminate|]. intros batches.
    apply gen_total_for. intros batch. by apply gen_total_results.
Qed.

(** *** Polling and waiting leave the jobs' batch lists alone *)

Lemma Batch_is_done_lists (self : Batch) (reload : bool) (w : World) :
  batch_lists (snd (Batch_is_done self reload w)) = batch_lists w.
Proof.
  destruct (Batch_is_done self reload w) as [r w'] eqn:Hrun.
  by destruct (Batch_is_done_examined _ _ _ _ _ Hrun) as [Hlists _].
Qed.

Lemma wait_loop_lists (self : Batch) (timeout sleep_interval : Z) :
  forall fuel waited w,
    batch_lists (snd (wait_loop fuel self timeout sleep_interval waited w)) = batch_lists w.
Proof.
  induction fuel as [|fuel IH]; intros waited w; [reflexivity|].
  simpl. unfold bind at 1.
  pose proof (Batch_is_done_lists self true w) as Hpoll.
  destruct (Batch_is_done self true w) as [[done|e|] w1]; simpl in *; try exact Hpoll.
  destruct (negb done && (waited <? timeout)); [|exact Hpoll].
  unfold bind, sleep. destruct (sleep_interval <? 0); [exact Hpoll|].
  rewrite IH. exact Hpoll.
Qed.

Lemma is_done_loop_lists (batches : list Batch) (w : World) :
  batch_lists (snd (is_done_loop batches w)) = batch_lists w.
Proof.
  revert w. induction batches as [|batch rest IH]; intros w; [reflexivity|].
  simpl. unfold bind.
  pose proof (Batch_is_done_lists batch false w) as Hpoll.
  destruct (Batch_is_done batch false w) as [[[]|e|] w1]; simpl in *; try exact Hpoll.
  rewrite IH. exact Hpoll.
Qed.

Lemma job_wait_loop_lists (fuel : nat) (timeout sleep_interval : Z)
    (batches : list Batch) (w : World) :
  batch_lists (snd (job_wait_loop fuel batches timeout sleep_interval w)) = batch_lists w.
Proof.
  revert w. induction batches as [|batch rest IH]; intros w; [reflexivity|].
  simpl. unfold bind, Batch_wait.
  pose proof (wait_loop_lists batch timeout sleep_interval fuel 0 w) as Hwait.
  destruct (wait_loop fuel batch timeout sleep_interval 0 w) as [[[]|e|] w1];
    simpl in *; try exact Hwait.
  rewrite IH. exact Hwait.
Qed.

Lemma job_prelude_batches (fuel : nat) (self : Job) (w w0 : World) r :
  job_prelude fuel self w = (r, w0) -> batches_of w0 self = batches_of w self.
Proof.
  intros Hrun. unfold batches_of. f_equal. f_equal.
  replace w0 with (snd (job_prelude fuel self w)) by (by rewrite Hrun).
  unfold job_prelude, bind at 1, Job_is_done, bind at 1, get_batches.
  pose proof (is_done_loop_lists (batches_of w self) w) as Hdone.
  destruct (is_done_loop (batches_of w self) w) as [[done|e|] w1]; simpl in *;
    try exact Hdone.
  destruct done; simpl; [exact Hdone|].
  unfold Job_wait, bind, get_batches. rewrite job_wait_loop_lists. exact Hdone.
Qed.

(** A batch with a completed snapshot in its cache is done, and says so
    without a request. *)
Lemma completed_is_done (w : World) (batch : Batch) :
  completed w batch -> Batch_is_done batch false w = (Ok true, w).
Proof.
  intros (m & Hcache & Hfine & Hstate).
  assert (Batch_status batch false w = (Ok (JObj m), w)) as Hstatus.
  { rewrite <- Hcache. apply Batch_status_cached. by rewrite Hcache. }
  rewrite (Batch_is_done_verdict _ _ _ _ _ Hstatus). unfold verdict.
  rewrite Hfine. apply json_eq_str_true in Hstate. by rewrite Hstate.
Qed.

Lemma completed_prelude (fuel : nat) (w : World) (batch : Batch) :
  completed w batch -> batch_prelude fuel batch w = (Ok tt, w).
Proof.
  intros Hdone. unfold batch_prelude, bind. by rewrite (completed_is_done _ _ Hdone).
Qed.

Lemma completed_statuses (w w' : World) (batch : Batch) :
  statuses w' = statuses w -> completed w batch -> completed w' batch.
Proof.
  intros Hsame (m & Hcache & Hrest). exists m. split; [|exact Hrest].
  unfold status_of in *. by rewrite Hsame.
Qed.

Lemma Batch_results_served (fuel : nat) (self : Batch) (w w0 : World) resp st rows :
  batch_prelude fuel self w = (Ok tt, w0) ->
  serve (remote w0) (result_request self) = (Some resp, st) ->
  accepted resp -> json_body resp = Some (JArr rows) ->
  Batch_results fuel self w = (rows, Ok tt, sent w0 (result_request self) st).
Proof.
  intros Hprelude Hserve Hok Hbody.
  rewrite Batch_results_after_prelude. unfold gen_bind at 1. rewrite Hprelude.
  unfold gen_bind at 1. unfold session_get, http.
  unfold result_request in Hserve. rewrite Hserve.
  unfold gen_bind at 1. unfold lift at 1. rewrite (check_status_lt_400 _ Hok).
  unfold gen_bind, lift, resp_json. rewrite Hbody. reflexivity.
Qed.

Lemma fetch_chunks_statuses (self : Batch) (ids : list json) (w : World) :
  statuses (snd (gen_for ids (fetch_chunk self) w)) = statuses w.
Proof.
  revert w. induction ids as [|id ids IH]; intros w; [reflexivity|].
  simpl. unfold gen_seq.
  assert (statuses (snd (fetch_chunk self id w)) = statuses w) as Hone.
  { unfold fetch_chunk, gen_bind at 1, session_get, http.
    destruct (serve _ _) as [[resp|] st]; [|reflexivity].
    unfold gen_bind, lift.
    destruct (check_status resp) as [[]|e|]; try reflexivity.
    destruct (outcome_bind (resp_json resp) py_iter); reflexivity. }
  destruct (fetch_chunk self id w) as [[rows [[]|e|]] w1]; simpl in *; try exact Hone.
  specialize (IH w1). destruct (gen_for ids (fetch_chunk self) w1) as [[rows2 o] w2].
  simpl in *. by rewrite IH.
Qed.

Lemma BatchQuery_results_served (fuel : nat) (self : Batch) (w w0 : World)
    resp st ids chunks st' :
  batch_prelude fuel self w = (Ok tt, w0) ->
  serve (remote w0) (result_request self) = (Some resp, st) ->
  accepted resp -> json_body resp = Some (JArr ids) ->
  serves_chunks self st ids chunks st' ->
  exists w',
    BatchQuery_results fuel self w = (concat chunks, Ok tt, w') /\
    remote w' = st' /\
    statuses w' = statuses w0 /\
    trace w' = trace w0 ++ EvRequest (result_request self)
                 :: ((fun id => EvRequest (chunk_request self id)) <$> ids).
Proof.
  intros Hprelude Hserve Hok Hbody Hchunks.
  destruct (fetch_chunks_run self ids chunks (sent w0 (result_request self) st) st' Hchunks)
    as (w' & Hrun & Hremote & Htrace).
  exists w'. split; [|split; [exact Hremote | split]].
  - rewrite BatchQuery_results_after_prelude. unfold gen_bind at 1. rewrite Hprelude.
    unfold gen_bind at 1. unfold session_get, http.
    unfold result_request in Hserve. rewrite Hserve.
    unfold gen_bind at 1. unfold lift at 1. rewrite (check_status_lt_400 _ Hok).
    unfold gen_bind at 1. unfold lift at 1. unfold resp_json. rewrite Hbody.
    unfold gen_bind at 1. unfold lift at 1. simpl py_iter. exact Hrun.
  - pose proof (fetch_chunks_statuses self ids (sent w0 (result_request self) st)) as Hstat.
    rewrite Hrun in Hstat. exact Hstat.
  - rewrite Htrace. simpl. by rewrite <- app_assoc.
Qed.

(** The batches of a list, all completed, give their results in the order
    of the list. *)
Lemma results_served (fuel : nat) :
  forall (batches : list Batch) (rowss : list (list json)) (w : World) st',
    Forall (completed w) batches ->
    serves_results (remote w) batches rowss st' ->
    exists w',
      gen_for batches (results fuel) w = (concat rowss, Ok tt, w') /\
      remote w' = st' /\ statuses w' = statuses w.
Proof.
  induction batches as [|batch batches IH]; intros rowss w st' Hdone Hserves.
  - destruct rowss; simpl in Hserves; [|contradiction]. subst st'.
    exists w. by repeat split.
  - destruct rowss as [|rows rowss]; simpl in Hserves; [contradiction|].
    destruct Hserves as (resp & st1 & Hserve & Hok & Hkind).
    apply Forall_cons in Hdone as [Hfirst Hrest].
    pose proof (completed_prelude fuel w batch Hfirst) as Hprelude.
    simpl gen_for. unfold gen_seq, results at 1.
    destruct (batch_class batch).
    + destruct Hkind as [Hbody Hnext].
      rewrite (Batch_results_served fuel batch w w resp st1 rows Hprelude Hserve Hok Hbody).
      destruct (IH rowss (sent w (result_request batch) st1) st') as (w' & Hrun & Hremote & Hstat).
      { eapply Forall_impl; [exact Hrest|]. intros b. by apply completed_statuses. }
      { exact Hnext. }
      exists w'. rewrite Hrun. by repeat split.
    + destruct Hkind as (ids & chunks & st2 & Hbody & Hchunks & -> & Hnext).
      destruct (BatchQuery_results_served fuel batch w w resp st1 ids chunks st2
                  Hprelude Hserve Hok Hbody Hchunks) as (w1 & Hquery & Hremote1 & Hstat1 & _).
      rewrite Hquery.
      destruct (IH rowss w1 st') as (w' & Hrun & Hremote & Hstat).
      { eapply Forall_impl; [exact Hrest|]. intros b. by apply completed_statuses. }
      { by rewrite Hremote1. }
      exists w'. rewrite Hrun. split; [reflexivity|]. split; [exact Hremote|]. congruence.
Qed.

(** C5. Drained, [Job.results] first checks the job and, if it is not
    done, waits with the defaults of 600 and 10 seconds; it then yields the
    rows of its batches one batch after the other in the order of the
    job's batch list, each batch's rows being what the [results] of its
    class yields and in its order.  A plain batch yields the rows of the
    result list in the order the server returned them; a query batch
    yields, for each result id in the order the server returned the ids,
    the rows of that chunk in the order the server returned them.  So for
    a job whose batches are completed, the rows drained are the rows the
    server returned for the first batch, then those for the second, and so
    on.  With fuel for the default wait, draining comes to an end. *)
Theorem results_in_order (fuel : nat) :
  (forall (self : Job) (w w1 : World),
     (Job_is_done self w = (Ok true, w1) -> job_prelude fuel self w = (Ok tt, w1)) /\
     (Job_is_done self w = (Ok false, w1) ->
      job_prelude fuel self w = Job_wait fuel self 600 10 w1)) /\
  (forall (self : Job) (w w0 : World),
     job_prelude fuel self w = (Ok tt, w0) ->
     exists rss o w',
       each_yields
         (fun batch => match batch_class batch with
                       | PlainBatch => Batch_results fuel batch
                       | QueryBatch => BatchQuery_results fuel batch
                       end)
         (batches_of w self) w0 rss o w' /\
       Job_results fuel self w = (concat rss, o, w')) /\
  (forall (self : Batch) (w w0 : World) resp st rows,
     batch_prelude fuel self w = (Ok tt, w0) ->
     serve (remote w0) (result_request self) = (Some resp, st) ->
     accepted resp -> json_body resp = Some (JArr rows) ->
     Batch_results fuel self w = (rows, Ok tt, sent w0 (result_request self) st)) /\
  (forall (self : Batch) (w w0 : World) resp st ids chunks st',
     batch_prelude fuel self w = (Ok tt, w0) ->
     serve (remote w0) (result_request self) = (Some resp, st) ->
     accepted resp -> json_body resp = Some (JArr ids) ->
     serves_chunks self st ids chunks st' ->
     exists w',
       BatchQuery_results fuel self w = (concat chunks, Ok tt, w') /\
       trace w' = trace w0 ++ EvRequest (result_request self)
                    :: ((fun id => EvRequest (chunk_request self id)) <$> ids)) /\
  (forall (self : Job) (w w0 : World) (rowss : list (list json)) st',
     job_prelude fuel self w = (Ok tt, w0) ->
     Forall (completed w0) (batches_of w self) ->
     serves_results (remote w0) (batches_of w self) rowss st' ->
     exists w',
       Job_results fuel self w = (concat rowss, Ok tt, w') /\
       remote w' = st' /\ length rowss = length (batches_of w self)) /\
  ((60 < fuel)%nat -> forall self : Job, gen_total (Job_results fuel self)).
Proof.
  split; [|split; [|split; [|split; [|split]]]].
  - intros self w w1. unfold job_prelude, bind.
    split; intros ->; reflexivity.
  - intros self w w0 Hprelude.
    rewrite Job_results_after_prelude. unfold gen_bind at 1. rewrite Hprelude.
    unfold gen_bind, get_batches.
    rewrite <- (job_prelude_batches _ _ _ _ _ Hprelude).
    apply (gen_for_each_yields (results fuel)).
  - intros self w w0 resp st rows. apply Batch_results_served.
  - intros self w w0 resp st ids chunks st' Hprelude Hserve Hok Hbody Hchunks.
    destruct (BatchQuery_results_served fuel self w w0 resp st ids chunks st'
                Hprelude Hserve Hok Hbody Hchunks) as (w' & Hrun & _ & _ & Htrace).
    by exists w'.
  - intros self w w0 rowss st' Hprelude Hdone Hserves.
    destruct (results_served fuel (batches_of w self) rowss w0 st' Hdone Hserves)
      as (w' & Hrun & Hremote & _).
    exists w'. split; [|split; [exact Hremote|]].
    + rewrite Job_results_after_prelude. unfold gen_bind at 1. rewrite Hprelude.
      unfold gen_bind, get_batches.
      rewrite (job_prelude_batches _ _ _ _ _ Hprelude). exact Hrun.
    + clear -Hserves. revert rowss Hserves. generalize (remote w0).
      induction (batches_of w self) as [|batch batches IH]; intros st0 [|rows rowss] Hserves;
        simpl in Hserves; try contradiction; [reflexivity|].
      destruct Hserves as (resp & st1 & _ & _ & Hkind). simpl. f_equal.
      destruct (batch_class batch).
      * destruct Hkind as [_ Hnext]. by eapply IH.
      * destruct Hkind as (ids & chunks & st2 & _ & _ & _ & Hnext). by eapply IH.
  - intros Hfuel self. by apply gen_total_Job_results.
Qed.

(** *** The job as a scoped resource *)

Lemma Job_close_run (self : Job) (w : World) answer st :
  serve (remote w) (close_request self) = (answer, st) ->
  Job_close self w =
    (match answer with
     | Some resp => check_status resp
     | None => Raise RequestException
     end, sent w (close_request self) st).
Proof.
  intros Hserve. unfold Job_close, bind, session_post_json, http.
  unfold close_request in Hserve. rewrite Hserve.
  destruct answer as [resp|]; [|reflexivity].
  unfold lift. destruct (check_status resp) as [[]|e|]; reflexivity.
Qed.

(** C8. Entering the scope of a job gives the job itself and changes
    nothing.  When the block ends, normally or by an exception, exactly one
    close request, a POST of [{state: Closed}] to the job's URI, is sent,
    after everything the block did.  A block that raised never makes the
    statement end normally.  When the close request is answered with a
    status below 400 the statement ends the way the block did, so that an
    exception of the block propagates after the close request; when the
    close request is answered with a status of 400 or more, or the
    transport fails, the error of the close is what propagates, whatever
    the block did. *)
Theorem Job_scope_closes (self : Job) (block : Job -> M unit) (w w1 : World)
    (r : outcome unit) :
  let close := mkRequest POST (job_endpoint self) (headers (job_session self))
                 (JsonBody (JObj {[ "state" := JStr "Closed" ]})) in
  Job_enter self w = (Ok self, w) /\
  (block self w = (r, w1) -> r <> OutOfFuel ->
   forall answer st,
     serve (remote w1) close = (answer, st) ->
     exists r' w',
       with_job self block w = (r', w') /\
       remote w' = st /\
       trace w' = trace w1 ++ [EvRequest close] /\
       statuses w' = statuses w1 /\ batch_lists w' = batch_lists w1 /\
       (forall e, r = Raise e -> exists e', r' = Raise e') /\
       (forall resp, answer = Some resp -> status_code resp < 400 -> r' = r) /\
       (forall resp, answer = Some resp -> 400 <= status_code resp ->
          exists e', r' = Raise e' /\ check_status resp = Raise e') /\
       (answer = None -> r' = Raise RequestException)).
Proof.
  intros close. change close with (close_request self).
  split; [reflexivity|]. intros Hblock Hr answer st Hserve.
  pose proof (Job_close_run self w1 answer st Hserve) as Hclose.
  unfold with_job, with_statement, Job_enter, bind at 1, ret at 1. rewrite Hblock.
  destruct r as [[]|e|]; [| |congruence].
  - unfold bind at 1. unfold Job_exit, bind at 1. rewrite Hclose.
    destruct answer as [resp|].
    + destruct (check_status resp) as [[]|e'|] eqn:Hcheck.
      * eexists _, _. split; [reflexivity|]. repeat split; try discriminate.
        intros resp' [= <-] Hbad.
        rewrite (check_status_ge_400 _ Hbad) in Hcheck. discriminate.
      * eexists _, _. split; [reflexivity|]. repeat split; try discriminate.
        -- intros resp' [= <-] Hok.
           rewrite (check_status_lt_400 _ Hok) in Hcheck. discriminate.
        -- intros resp' [= <-] _. by exists e'.
      * by destruct (check_status_total resp).
    + eexists _, _. split; [reflexivity|]. repeat split; discriminate.
  - unfold bind at 1. unfold Job_exit, bind at 1. rewrite Hclose.
    destruct answer as [resp|].
    + destruct (check_status resp) as [[]|e'|] eqn:Hcheck.
      * eexists _, _. split; [reflexivity|]. repeat split; try discriminate.
        -- intros ? _. by eexists.
        -- intros resp' [= <-] Hbad.
           rewrite (check_status_ge_400 _ Hbad) in Hcheck. discriminate.
      * eexists _, _. split; [reflexivity|]. repeat split; try discriminate.
        -- intros ? _. by eexists.
        -- intros resp' [= <-] Hok.
           rewrite (check_status_lt_400 _ Hok) in Hcheck. discriminate.
        -- intros resp' [= <-] _. by exists e'.
      * by destruct (check_status_total resp).
    + eexists _, _. split; [reflexivity|]. repeat split; try discriminate.
      intros ? _. by eexists.
Qed.

(** *** Construction of the client *)

Lemma login_run (username password : pystr) (host API_version : string) (w : World)
    answer st :
  serve (remote w) (login_request username password host API_version) = (answer, st) ->
  exists r,
    login username password host API_version w =
      (r, sent w (login_request username password host API_version) st).
Proof.
  intros Hserve. unfold login, bind at 1, requests_post, http.
  unfold login_request in Hserve. rewrite Hserve.
  destruct answer as [resp|]; [|by eexists].
  unfold bind, lift, ret.
  destruct (ET_parse (content resp)) as [tree|]; [|by eexists].
  destruct (find_text tree SERVER_URL) as [url|e|]; [|by eexists..].
  destruct (hostname_of url) as [h|e|]; [|by eexists..].
  destruct (find_text tree SESSION_ID) as [sid|e|]; by eexists.
Qed.

(** What a login that returned has read, and from which response. *)
Lemma login_returned (username password : pystr) (host API_version : string)
    (w w' : World) server_host session_id :
  login username password host API_version w = (Ok (server_host, session_id), w') ->
  exists resp st tree,
    serve (remote w) (login_request username password host API_version) = (Some resp, st) /\
    ET_parse (text resp) = Some tree /\
    ET_find_text tree SESSION_ID = Some session_id.
Proof.
  unfold login, bind at 1, requests_post, http. fold (login_request username password host API_version).
  destruct (serve (remote w) (login_request username password host API_version))
    as [[resp|] st]; [|discriminate].
  unfold bind, lift, ret, content.
  destruct (ET_parse (text resp)) as [tree|] eqn:Hparse; [|discriminate].
  destruct (find_text tree SERVER_URL) as [url|e|]; try discriminate.
  destruct (hostname_of url) as [h|e|]; try discriminate.
  unfold find_text.
  destruct (ET_find_text tree SESSION_ID) as [sid|] eqn:Hsid; [|discriminate].
  intros [= <- <- <-]. by exists resp, st, tree.
Qed.

(** C9. Whenever the check of the arguments passes, constructing the
    client performs the login exchange and nothing else: one POST to the
    SOAP URI of the host whose body is the login envelope with the given
    username and password in it, an absent one as the text [None].  The
    given session id plays no part in what happens.  A client that is
    returned carries, as its session header, the session id that login
    read from the response to that request.  In particular, with a session
    id and no username and password the check passes and the login is
    attempted with both absent. *)
Theorem SalesforceBulk_init_always_logs_in (sessionId : pystr) (host : string)
    (username password : pystr) (API_version : string) (w : World) :
  let text_of (v : pystr) := match v with Some s => s | None => "None" end in
  let request (user pass : pystr) :=
    mkRequest POST ("https://" +:+ host +:+ "/services/Soap/u/" +:+ API_version)
      ({[ "Content-Type" := Some "text/xml; charset=UTF-8"; "SOAPAction" := Some "login" ]}
         ∪ default_headers)
      (DataBody (envelope_head +:+ text_of user +:+ envelope_middle
                 +:+ text_of pass +:+ envelope_tail)) in
  (py_not sessionId && py_not username = false ->
   trace (snd (SalesforceBulk_init sessionId host username password API_version w)) =
     trace w ++ [EvRequest (request username password)] /\
   (forall other : pystr,
      py_not other && py_not username = false ->
      SalesforceBulk_init other host username password API_version w =
      SalesforceBulk_init sessionId host username password API_version w) /\
   (forall client w',
      SalesforceBulk_init sessionId host username password API_version w = (Ok client, w') ->
      exists server_host session_id resp st tree,
        serve (remote w) (request username password) = (Some resp, st) /\
        ET_parse (text resp) = Some tree /\
        ET_find_text tree ".//{urn:partner.soap.sforce.com}sessionId" = Some session_id /\
        login username password host API_version w = (Ok (server_host, session_id), w') /\
        headers (session client) !! "X-SFDC-Session" = Some session_id)) /\
  (py_not sessionId = false ->
   py_not sessionId && py_not None = false /\
   trace (snd (SalesforceBulk_init sessionId host None None API_version w)) =
     trace w ++ [EvRequest (request None None)]).
Proof.
  intros text_of request.
  assert (forall user pass, request user pass = login_request user pass host API_version)
    as Hrequest.
  { intros [user|] [pass|]; reflexivity. }
  assert (forall sid user pass,
            py_not sid && py_not user = false ->
            SalesforceBulk_init sid host user pass API_version w =
              match login user pass host API_version w with
              | (Ok logged, w') =>
                  (Ok (mkSalesforceBulk
                         ("https://" +:+ str_of (fst logged) +:+ "/services/async/" +:+ API_version)
                         (mkSession (<["Content-Type" := Some "application/json"]>
                                       (<["X-SFDC-Session" := snd logged]> default_headers)))), w')
              | (Raise e, w') => (Raise e, w')
              | (OutOfFuel, w') => (OutOfFuel, w')
              end) as Hinit.
  { intros sid user pass Hcheck. unfold SalesforceBulk_init. rewrite Hcheck.
    unfold bind. destruct (login user pass host API_version w) as [[logged|e|] w']; reflexivity. }
  assert (forall sid user pass,
            py_not sid && py_not user = false ->
            trace (snd (SalesforceBulk_init sid host user pass API_version w)) =
              trace w ++ [EvRequest (request user pass)]) as Htrace.
  { intros sid user pass Hcheck. rewrite (Hinit _ _ _ Hcheck), Hrequest.
    destruct (serve (remote w) (login_request user pass host API_version)) as [answer st] eqn:Hserve.
    destruct (login_run user pass host API_version w answer st Hserve) as [r ->].
    destruct r; reflexivity. }
  split.
  - intros Hcheck. split; [by apply Htrace|]. split.
    + intros other Hother. by rewrite !Hinit.
    + intros client w' Hrun. rewrite (Hinit _ _ _ Hcheck) in Hrun.
      destruct (login username password host API_version w) as [[[server_host sid]|e|] w0]
        eqn:Hlogin; try discriminate.
      injection Hrun as <- <-.
      destruct (login_returned _ _ _ _ _ _ _ _ Hlogin) as (resp & st & tree & Hserve & Hparse & Hsid).
      exists server_host, sid, resp, st, tree. rewrite Hrequest.
      split; [exact Hserve|]. split; [exact Hparse|]. split; [exact Hsid|].
      split; [reflexivity|].
      simpl. rewrite lookup_insert_ne by discriminate. apply lookup_insert_eq.
  - intros Hsid. assert (py_not sessionId && py_not None = false) as Hcheck.
    { by rewrite Hsid. }
    split; [exact Hcheck | by apply Htrace].
Qed.

(** C1. On a response with status 404, [check_status] does not raise the
    Bulk API error with the body text and the status code: building the
    error it reads the attribute [status], which a response does not have,
    and the attribute error is what is raised; no response at all makes it
    raise the Bulk API error.  Below 400 it returns normally. *)
Theorem check_status_http_error :
  check_status (mkResponse 404 "Not Found" None) = Raise (AttributeError "status") /\
  (forall r msg code, check_status r <> Raise (BulkApiError msg code)) /\
  (forall r, 400 <= status_code r -> check_status r = Raise (AttributeError "status")) /\
  (forall r, status_code r < 400 -> check_status r = Ok tt).
Proof.
  split; [reflexivity|]. split; [apply check_status_never_BulkApiError|].
  split; [apply check_status_ge_400 | apply check_status_lt_400].
Qed.

(** ** Further properties *)

(** *** Job.post at the edges *)

(** X1. [Job.post] with a batch size of zero raises the [ValueError] of
    [xrange] before anything is sent; with no rows, or with a negative
    batch size, it sends nothing, returns the empty list and changes
    nothing. *)
Theorem Job_post_sends_nothing (self : Job) (data : list json) (b : Z) (w : World) :
  (b = 0 -> Job_post self data b w = (Raise ValueError, w)) /\
  (b < 0 \/ (b <> 0 /\ data = []) -> Job_post self data b w = (Ok [], w)).
Proof.
  unfold Job_post, bind, lift, xrange. split.
  - intros ->. reflexivity.
  - intros Hcase. destruct (Z.eqb_spec b 0) as [|_]; [lia|].
    assert (Z.to_nat (if 0 <? b then (Z.of_nat (length data) - 0 + b - 1) / b
                      else (0 - Z.of_nat (length data) - b - 1) / - b) = O) as ->.
    { destruct (Z.ltb_spec 0 b) as [Hpos|Hneg].
      - destruct Hcase as [|[_ ->]]; [lia|]. simpl length.
        rewrite Z.div_small by lia. reflexivity.
      - assert ((0 - Z.of_nat (length data) - b - 1) / - b < 1); [|lia].
        apply Z.div_lt_upper_bound; lia. }
    reflexivity.
Qed.

Lemma chunk_take_drop (data : list json) (b : Z) (i : nat) :
  0 < b ->
  chunk data b i = take (Z.to_nat b) (drop (i * Z.to_nat b) data).
Proof.
  intros Hb. unfold chunk, rows_between.
  replace (Z.to_nat (Z.of_nat i * b)) with (i * Z.to_nat b)%nat by nia.
  destruct (Z.le_gt_cases ((Z.of_nat i + 1) * b) (Z.of_nat (length data))) as [Hin|Hout].
  - rewrite Z.min_l by lia. f_equal. nia.
  - rewrite Z.min_r by lia. rewrite Nat2Z.id.
    rewrite !take_ge; [reflexivity | rewrite length_drop; nia | rewrite length_drop; lia].
Qed.

Lemma concat_chunks (data : list json) (b : Z) (k : nat) :
  0 < b ->
  concat (chunk data b <$> seq 0 k) = take (k * Z.to_nat b) data.
Proof.
  intros Hb. induction k as [|k IH]; [reflexivity|].
  rewrite seq_S, fmap_app, concat_app, IH. simpl.
  rewrite app_nil_r, (chunk_take_drop _ _ _ Hb), take_take_drop.
  f_equal. lia.
Qed.

(** X2. For a positive batch size the slices that the loop of [Job.post]
    takes are a partition of the rows: there are [ceil (n / b)] of them,
    none is empty, none is longer than the batch size, and one after the
    other they give back the rows, none lost, repeated or reordered. *)
Theorem post_slices_partition (data : list json) (b : Z) :
  0 < b ->
  exists starts,
    xrange 0 (Z.of_nat (length data)) b = Ok starts /\
    length starts = Z.to_nat (ceil_div (Z.of_nat (length data)) b) /\
    concat ((fun i => py_slice data i (i + b)) <$> starts) = data /\
    Forall (fun i => (0 < length (py_slice data i (i + b)) <= Z.to_nat b)%nat) starts.
Proof.
  intros Hb. set (n := Z.of_nat (length data)). set (k := Z.to_nat (ceil_div n b)).
  exists ((fun i => Z.of_nat i * b) <$> seq 0 k).
  pose proof (ceil_div_least n b Hb) as [Hup Hlow].
  assert (n <= Z.of_nat k * b /\ (Z.of_nat k - 1) * b < n \/ (n = 0 /\ k = O)) as Hk.
  { destruct (Z.le_gt_cases n 0) as [Hle|Hgt].
    - right. pose proof (ceil_div_nonpos n b Hb Hle). subst n k. lia.
    - left. pose proof (ceil_div_pos n b Hb Hgt). subst k.
      rewrite Z2Nat.id by lia. split; assumption. }
  split; [apply xrange_chunks; assumption|].
  split; [by rewrite length_fmap, length_seq|]. split.
  - rewrite <- list_fmap_compose.
    rewrite (list_fmap_ext _ (chunk data b) (seq 0 k)).
    + rewrite (concat_chunks _ _ _ Hb). apply take_ge. subst n. nia.
    + intros _ i _. apply (py_slice_chunk data b i Hb).
  - apply Forall_fmap, Forall_forall. intros i Hi.
    apply elem_of_seq in Hi. simpl. rewrite (py_slice_chunk data b i Hb).
    rewrite (chunk_take_drop _ _ _ Hb), length_take, length_drop.
    subst n. nia.
Qed.

Lemma post_loop_prefix (self : Job) (data : list json) (b : Z) :
  0 < b ->
  forall (idxs rest : list nat) (ids : list json) (acc : list Batch) (w : World) st',
    creates self (remote w) (chunk data b <$> idxs) ids st' ->
    exists w1,
      post_loop self (job_endpoint self +:+ "/batch") data b
                ((fun i => Z.of_nat i * b) <$> (idxs ++ rest)) acc w
        = post_loop self (job_endpoint self +:+ "/batch") data b
                    ((fun i => Z.of_nat i * b) <$> rest)
                    (acc ++ new_batches self ids (next_id w)) w1 /\
      remote w1 = st' /\
      trace w1 = trace w ++ ((fun i => EvRequest (post_request self (chunk data b i))) <$> idxs) /\
      batches_of w1 self = batches_of w self ++ new_batches self ids (next_id w) /\
      length ids = length idxs.
Proof.
  intros Hb. induction idxs as [|i idxs IH]; intros rest ids acc w st' Hcreates.
  - destruct ids; simpl in Hcreates; [|contradiction]. subst st'.
    exists w. simpl. by rewrite !app_nil_r.
  - destruct ids as [|id ids]; simpl in Hcreates; [contradiction|].
    destruct Hcreates as (resp & st1 & m & Hserve & Hok & Hbody & Hid & Hrest).
    rewrite <- (py_slice_chunk data b i Hb) in Hserve.
    destruct (post_loop_step self data b (Z.of_nat i * b)
                ((fun i => Z.of_nat i * b) <$> (idxs ++ rest))
                acc w resp st1 m id Hserve Hok Hbody Hid)
      as (w1 & Hstep & Hremote & Htrace & Hnext & Hlist).
    rewrite <- Hremote in Hrest.
    destruct (IH rest ids (acc ++ [mkBatch PlainBatch (job_session self)
                 (job_endpoint self +:+ "/batch/" +:+ py_str id) id (next_id w)]) w1 st' Hrest)
      as (w' & Hrun & Hremote' & Htrace' & Hlist' & Hlen).
    exists w'. simpl app. rewrite fmap_cons, Hstep, Hrun, Hnext. simpl.
    rewrite <- app_assoc. split; [reflexivity|]. split; [assumption|].
    split; [|split].
    + rewrite Htrace', Htrace, (py_slice_chunk data b i Hb), <- app_assoc. reflexivity.
    + rewrite Hlist', Hlist, Hnext, <- app_assoc. reflexivity.
    + by rewrite Hlen.
Qed.

Lemma post_loop_rejected (self : Job) (data : list json) (b : Z) (i : Z) (starts : list Z)
    (acc : list Batch) (w : World) resp st :
  serve (remote w) (post_request self (py_slice data i (i + b))) = (Some resp, st) ->
  400 <= status_code resp ->
  post_loop self (job_endpoint self +:+ "/batch") data b (i :: starts) acc w =
    (Raise (AttributeError "status"),
     sent w (post_request self (py_slice data i (i + b))) st).
Proof.
  intros Hserve Hbad. simpl post_loop.
  unfold bind at 1. unfold session_post_json, http.
  unfold post_request in Hserve. rewrite Hserve.
  unfold bind at 1. unfold lift at 1. rewrite (check_status_ge_400 _ Hbad). reflexivity.
Qed.

(** X3. [Job.post] is not all-or-nothing: when the server accepts the
    first [j] batch-creation requests and answers the next with a status of
    400 or more, the call raises after that request, and the [j] batches
    already created stay appended to the job's batch list. *)
Theorem Job_post_not_atomic (self : Job) (data : list json) (b : Z) (w : World)
    (j : nat) (ids : list json) st1 resp st2 :
  0 < b ->
  (j < Z.to_nat (ceil_div (Z.of_nat (length data)) b))%nat ->
  creates self (remote w) (chunk data b <$> seq 0 j) ids st1 ->
  serve st1 (post_request self (chunk data b j)) = (Some resp, st2) ->
  400 <= status_code resp ->
  exists w',
    Job_post self data b w = (Raise (AttributeError "status"), w') /\
    trace w' = trace w ++
      ((fun i => EvRequest (post_request self (chunk data b i))) <$> seq 0 (S j)) /\
    batches_of w' self = batches_of w self ++ new_batches self ids (next_id w) /\
    length ids = j.
Proof.
  intros Hb Hj Hcreates Hserve Hbad.
  set (k := Z.to_nat (ceil_div (Z.of_nat (length data)) b)) in *.
  assert (seq 0 k = seq 0 j ++ j :: seq (S j) (k - S j)) as Hsplit.
  { replace k with (j + S (k - S j))%nat at 1 by lia. by rewrite seq_app. }
  destruct (post_loop_prefix self data b Hb (seq 0 j) (j :: seq (S j) (k - S j)) ids [] w st1
              Hcreates) as (w1 & Hrun & Hremote & Htrace & Hlist & Hlen).
  rewrite <- Hremote, <- (py_slice_chunk data b j Hb) in Hserve.
  eexists. split; [|split; [|split]].
  - unfold Job_post, bind at 1. unfold lift. rewrite (xrange_chunks _ b Hb).
    fold k. rewrite Hsplit, Hrun, fmap_cons.
    apply (post_loop_rejected self data b _ _ _ w1 resp st2 Hserve Hbad).
  - rewrite seq_S, fmap_app. unfold sent. cbn [trace].
    rewrite Htrace, (py_slice_chunk data b j Hb). simpl. by rewrite <- app_assoc.
  - exact Hlist.
  - rewrite Hlen. apply length_seq.
Qed.

(** *** Job.query, Job.close, Job.abort *)

(** X4. When the server accepts the query, [Job.query] sends one POST
    with the query text as body to the job's batch URI, returns a query
    batch with the returned id, its URI under the job's, and an empty
    status cache, and appends it to the end of the job's batch list; the
    cached snapshots of the other batches are untouched, and the results
    of the new batch are fetched the query way.  When the server answers
    with a status of 400 or more the call raises and the batch list is as
    it was. *)
Theorem Job_query_appends (self : Job) (soql : string) (w : World) resp st :
  serve (remote w) (query_request self soql) = (Some resp, st) ->
  (forall m id,
     accepted resp -> json_body resp = Some (JObj m) -> m !! "id" = Some id ->
     let batch := mkBatch QueryBatch (job_session self)
                    (job_endpoint self +:+ "/batch/" +:+ py_str id) id (next_id w) in
     exists w',
       Job_query self soql w = (Ok batch, w') /\
       trace w' = trace w ++ [EvRequest (query_request self soql)] /\
       batches_of w' self = batches_of w self ++ [batch] /\
       status_of w' batch = JNull /\
       (forall i, i <> next_id w -> statuses w' !! i = statuses w !! i) /\
       (forall fuel, results fuel batch = BatchQuery_results fuel batch)) /\
  (400 <= status_code resp ->
   Job_query self soql w =
     (Raise (AttributeError "status"), sent w (query_request self soql) st)).
Proof.
  intros Hserve. unfold query_request in Hserve. split.
  - intros m id Hok Hbody Hid batch. eexists.
    unfold Job_query.
    unfold bind at 1. unfold session_post_data, http. rewrite Hserve.
    unfold bind at 1. unfold lift at 1. rewrite (check_status_lt_400 _ Hok).
    unfold bind at 1. unfold lift at 1. unfold resp_json. rewrite Hbody.
    unfold bind at 1. unfold lift at 1. simpl py_getitem. rewrite Hid.
    unfold bind at 1.
    unfold Batch_init, batches_append, get_batches, set_batches, set_status, new_object.
    unfold bind at 1 2 3 4. unfold ret at 1. simpl.
    split; [reflexivity|]. split; [reflexivity|].
    unfold batches_of, status_of. simpl. rewrite !lookup_insert_eq.
    split; [reflexivity|]. split; [reflexivity|]. split; [|reflexivity].
    intros i Hi. by rewrite lookup_insert_ne.
  - intros Hbad. unfold Job_query.
    unfold bind at 1. unfold session_post_data, http. rewrite Hserve.
    unfold bind at 1. unfold lift at 1. rewrite (check_status_ge_400 _ Hbad). reflexivity.
Qed.

Lemma state_change_run (self : Job) (state : string) (w : World) answer st :
  serve (remote w) (mkRequest POST (job_endpoint self) (headers (job_session self))
                      (JsonBody (state_change state))) = (answer, st) ->
  (let! resp := session_post_json (job_session self) (job_endpoint self)
                  (state_change state) in
   lift (check_status resp)) w =
    (match answer with
     | Some resp => check_status resp
     | None => Raise RequestException
     end,
     sent w (mkRequest POST (job_endpoint self) (headers (job_session self))
               (JsonBody (state_change state))) st).
Proof.
  intros Hserve. unfold bind, session_post_json, http. rewrite Hserve.
  destruct answer as [resp|]; [|reflexivity].
  unfold lift. destruct (check_status resp) as [[]|e|]; reflexivity.
Qed.

(** X5. [Job.close] and [Job.abort] each send exactly one POST to the
    job's URI, with the body [{state: Closed}] and [{state: Aborted}], and
    change nothing else: batch lists and cached snapshots are as they
    were.  They return normally when the response has a status below 400,
    and raise when it has not or when the transport fails. *)
Theorem Job_close_abort (self : Job) (w : World) :
  let request (state : string) :=
    mkRequest POST (job_endpoint self) (headers (job_session self))
              (JsonBody (JObj {[ "state" := JStr state ]})) in
  (forall answer st,
     serve (remote w) (request "Closed") = (answer, st) ->
     exists r w',
       Job_close self w = (r, w') /\
       remote w' = st /\ trace w' = trace w ++ [EvRequest (request "Closed")] /\
       statuses w' = statuses w /\ batch_lists w' = batch_lists w /\
       (forall resp, answer = Some resp -> status_code resp < 400 -> r = Ok tt) /\
       (forall resp, answer = Some resp -> 400 <= status_code resp -> exists e, r = Raise e) /\
       (answer = None -> r = Raise RequestException)) /\
  (forall answer st,
     serve (remote w) (request "Aborted") = (answer, st) ->
     exists r w',
       Job_abort self w = (r, w') /\
       remote w' = st /\ trace w' = trace w ++ [EvRequest (request "Aborted")] /\
       statuses w' = statuses w /\ batch_lists w' = batch_lists w /\
       (forall resp, answer = Some resp -> status_code resp < 400 -> r = Ok tt) /\
       (forall resp, answer = Some resp -> 400 <= status_code resp -> exists e, r = Raise e) /\
       (answer = None -> r = Raise RequestException)) /\
  request "Closed" <> request "Aborted".
Proof.
  intros request. split; [|split].
  - intros answer st Hserve.
    eexists _, _. split; [apply (state_change_run self "Closed" w answer st Hserve)|].
    repeat split.
    + intros resp -> Hok. by apply check_status_lt_400.
    + intros resp -> Hbad. eexists. by apply check_status_ge_400.
    + by intros ->.
  - intros answer st Hserve.
    eexists _, _. split; [apply (state_change_run self "Aborted" w answer st Hserve)|].
    repeat split.
    + intros resp -> Hok. by apply check_status_lt_400.
    + intros resp -> Hbad. eexists. by apply check_status_ge_400.
    + by intros ->.
  - unfold request. intros Hsame.
    assert (({[ "state" := JStr "Closed" ]} : gmap string json) !! "state"
            = ({[ "state" := JStr "Aborted" ]} : gmap string json) !! "state") as Hlookup
      by congruence.
    rewrite !lookup_singleton_eq in Hlookup. discriminate.
Qed.

(** *** Batch.status and Batch.is_done *)

Lemma Batch_status_raise_cases (self : Batch) (reload : bool) (w w' : World) e :
  Batch_status self reload w = (Raise e, w') ->
  (exists st, w' = sent w (poll_request self) st) /\
  (e = RequestException \/ e = AttributeError "status" \/ e = ValueError).
Proof.
  assert ((reload = true \/ status_of w self = JNull) \/
          (reload = false /\ status_of w self <> JNull)) as [Hwhy | [-> Hsnap]].
  { destruct reload; [by left; left|].
    destruct (status_of w self); (by left; right) || (right; split; congruence). }
  - destruct (serve (remote w) (poll_request self)) as [answer st] eqn:Hserve.
    rewrite (Batch_status_fetched _ _ _ _ _ Hwhy Hserve).
    destruct answer as [resp|].
    + destruct (Z.lt_ge_cases (status_code resp) 400) as [Hok|Hbad].
      * rewrite (check_status_lt_400 _ Hok).
        destruct (json_body resp); [discriminate|].
        intros [= <- <-]. split; [by eexists | tauto].
      * rewrite (check_status_ge_400 _ Hbad).
        intros [= <- <-]. split; [by eexists | tauto].
    + intros [= <- <-]. split; [by eexists | tauto].
  - rewrite Batch_status_cached by assumption. discriminate.
Qed.

(** X6. A call of [Batch.status] that raises leaves the cache as it was:
    the request was sent, and no snapshot, batch list or other state was
    changed.  What it raises is the failure of the transport, of
    [check_status] or of the JSON parser. *)
Theorem Batch_status_failure_keeps_cache (self : Batch) (reload : bool) (w w' : World) e :
  Batch_status self reload w = (Raise e, w') ->
  statuses w' = statuses w /\
  batch_lists w' = batch_lists w /\
  trace w' = trace w ++ [EvRequest (poll_request self)] /\
  (e = RequestException \/ e = AttributeError "status" \/ e = ValueError).
Proof.
  intros Hrun. destruct (Batch_status_raise_cases _ _ _ _ _ Hrun) as [[st ->] He].
  repeat split. exact He.
Qed.

Lemma Batch_is_done_judge (self : Batch) (reload : bool) (w w' : World) snap :
  Batch_status self reload w = (Ok snap, w') ->
  Batch_is_done self reload w = (judge snap, w').
Proof.
  intros Hstatus. unfold Batch_is_done, bind at 1. rewrite Hstatus.
  unfold judge, bind, lift, ret, raise.
  destruct (py_contains "state" snap) as [[]|e|]; simpl; try reflexivity.
  - destruct (py_getitem snap "state") as [state|e|]; simpl; try reflexivity.
    destruct (py_in state ERROR_STATES); [|reflexivity].
    destruct (py_getitem snap "jobId"); simpl; try reflexivity.
    destruct (py_getitem snap "id"); simpl; try reflexivity.
    destruct (py_getitem snap "stateMessage"); reflexivity.
  - destruct (py_in JNull ERROR_STATES); [|reflexivity].
    destruct (py_getitem snap "jobId"); simpl; try reflexivity.
    destruct (py_getitem snap "id"); simpl; try reflexivity.
    destruct (py_getitem snap "stateMessage"); reflexivity.
Qed.

Lemma Batch_is_done_status_raise (self : Batch) (reload : bool) (w w' : World) e :
  Batch_status self reload w = (Raise e, w') ->
  Batch_is_done self reload w = (Raise e, w').
Proof. intros Hstatus. unfold Batch_is_done, bind at 1. by rewrite Hstatus. Qed.

(** X7. What [is_done] has found stays found: after a call that returned a
    boolean, or raised the batch-failed error, [is_done()] without reload
    gives the same answer again without sending anything or changing
    anything. *)
Theorem Batch_is_done_stable (self : Batch) (reload : bool) (w w' : World)
    (r : outcome bool) :
  Batch_is_done self reload w = (r, w') ->
  (exists done, r = Ok done) \/
  (exists job id message, r = Raise (BulkBatchFailed job id message)) ->
  Batch_is_done self false w' = (r, w').
Proof.
  intros Hrun Hr.
  destruct (Batch_status self reload w) as [[snap|e|] w0] eqn:Hstatus.
  - rewrite (Batch_is_done_judge _ _ _ _ _ Hstatus) in Hrun.
    injection Hrun as <- <-.
    assert (snap <> JNull) as Hsnap.
    { intros ->. destruct Hr as [[done Hr] | (job & id & message & Hr)]; discriminate. }
    apply Batch_is_done_judge.
    pose proof (Batch_status_returns_cache _ _ _ _ _ Hstatus) as Hcache.
    rewrite <- Hcache. apply Batch_status_cached. by rewrite Hcache.
  - rewrite (Batch_is_done_status_raise _ _ _ _ _ Hstatus) in Hrun.
    injection Hrun as <- <-.
    destruct (Batch_status_raise_cases _ _ _ _ _ Hstatus) as [_ He].
    destruct Hr as [[done Hr] | (job & id & message & Hr)]; [discriminate|].
    injection Hr as ->. destruct He as [He | [He | He]]; discriminate.
  - by destruct (total_Batch_status self reload w); rewrite Hstatus.
Qed.

(** *** Batch.wait and Job.wait *)

(** X8. What the first poll of [wait] decides.  When the server answers it
    with a snapshot in the completed state, [wait] returns after that one
    request, without sleeping, and [is_done()] is then true from the cache;
    when the snapshot is in an error state, [wait] raises the batch-failed
    error after that one request; and when the timeout is not positive,
    [wait] still polls once, and returns without sleeping if the batch is
    in progress. *)
Theorem Batch_wait_first_poll (self : Batch) (fuel : nat) (timeout sleep_interval : Z)
    (w : World) resp st (m : gmap string json) :
  (0 < fuel)%nat ->
  serve (remote w) (poll_request self) = (Some resp, st) ->
  accepted resp -> json_body resp = Some (JObj m) ->
  let w1 := cached (sent w (poll_request self) st) self (JObj m) in
  (py_in (state_of m) ERROR_STATES = false -> state_of m = JStr COMPLETED ->
   Batch_wait fuel self timeout sleep_interval w = (Ok tt, w1) /\
   Batch_is_done self false w1 = (Ok true, w1)) /\
  (py_in (state_of m) ERROR_STATES = true ->
   forall job id message,
     m !! "jobId" = Some job -> m !! "id" = Some id ->
     m !! "stateMessage" = Some message ->
     Batch_wait fuel self timeout sleep_interval w
       = (Raise (BulkBatchFailed job id message), w1)) /\
  (py_in (state_of m) ERROR_STATES = false -> timeout <= 0 ->
   Batch_wait fuel self timeout sleep_interval w = (Ok tt, w1)).
Proof.
  intros Hfuel Hserve Hok Hbody w1.
  pose proof (Batch_status_fetched self true w _ _ (or_introl eq_refl) Hserve) as Hstatus.
  cbv beta iota in Hstatus. rewrite (check_status_lt_400 _ Hok), Hbody in Hstatus.
  fold w1 in Hstatus.
  pose proof (Batch_is_done_verdict _ _ _ _ _ Hstatus) as Hpoll.
  destruct fuel as [|fuel]; [lia|]. unfold Batch_wait. simpl wait_loop.
  split; [|split]; intros Hstate; unfold bind at 1; rewrite Hpoll; unfold verdict;
    rewrite Hstate.
  - intros Hdone.
    apply json_eq_str_true in Hdone. rewrite Hdone. split; [reflexivity|].
    assert (Batch_status self false w1 = (Ok (JObj m), w1)) as Hagain.
    { pose proof (Batch_status_returns_cache _ _ _ _ _ Hstatus) as Hcache.
      rewrite <- Hcache. apply Batch_status_cached. by rewrite Hcache. }
    rewrite (Batch_is_done_verdict _ _ _ _ _ Hagain). unfold verdict.
    by rewrite Hstate, Hdone.
  - intros job id message Hjob Hid Hmsg. simpl.
    rewrite Hjob. simpl. rewrite Hid. simpl. rewrite Hmsg. reflexivity.
  - intros Htimeout.
    destruct (json_eq_str (state_of m) COMPLETED); simpl; [reflexivity|].
    destruct (Z.ltb_spec 0 timeout); [lia | reflexivity].
Qed.

Lemma only_waited_refl (self : Batch) (sleep_interval : Z) (w : World) :
  only_waited self sleep_interval w w.
Proof.
  repeat split. exists []. split; [by rewrite app_nil_r | constructor].
Qed.

Lemma only_waited_trans (self : Batch) (sleep_interval : Z) (w1 w2 w3 : World) :
  only_waited self sleep_interval w1 w2 -> only_waited self sleep_interval w2 w3 ->
  only_waited self sleep_interval w1 w3.
Proof.
  intros (Hl1 & Hs1 & ev1 & Ht1 & Hf1) (Hl2 & Hs2 & ev2 & Ht2 & Hf2).
  split; [congruence|]. split.
  - intros i Hi. by rewrite Hs2, Hs1.
  - exists (ev1 ++ ev2). split; [rewrite Ht2, Ht1; by rewrite app_assoc|].
    apply Forall_app. by split.
Qed.

Lemma only_waited_poll (self : Batch) (sleep_interval : Z) (reload : bool) (w : World) :
  only_waited self sleep_interval w (snd (Batch_is_done self reload w)).
Proof.
  destruct (Batch_is_done self reload w) as [r w'] eqn:Hrun.
  destruct (Batch_is_done_examined _ _ _ _ _ Hrun) as (Hlists & Hstat & events & Htrace & Hall).
  split; [exact Hlists|]. split.
  - intros i Hi. apply Hstat. set_solver.
  - exists events. split; [exact Htrace|].
    eapply Forall_impl; [exact Hall|]. intros ev (batch & Hin & ->).
    left. apply list_elem_of_singleton in Hin. by subst batch.
Qed.

Lemma only_waited_loop (self : Batch) (timeout sleep_interval : Z) :
  forall fuel waited w,
    only_waited self sleep_interval w
      (snd (wait_loop fuel self timeout sleep_interval waited w)).
Proof.
  induction fuel as [|fuel IH]; intros waited w; [apply only_waited_refl|].
  simpl. unfold bind at 1.
  pose proof (only_waited_poll self sleep_interval true w) as Hpoll.
  destruct (Batch_is_done self true w) as [[done|e|] w1]; simpl in *; try exact Hpoll.
  destruct (negb done && (waited <? timeout)); [|exact Hpoll].
  unfold bind, sleep. destruct (sleep_interval <? 0); [exact Hpoll|].
  eapply only_waited_trans; [exact Hpoll|].
  eapply only_waited_trans; [|apply IH].
  repeat split. exists [EvSleep sleep_interval]. split; [reflexivity|].
  constructor; [by right | constructor].
Qed.

(** X9. [Batch.wait] keeps to its own batch, however it ends: the only
    requests it sends are status polls of this batch, the only sleeps are
    of the given interval, and the cached snapshots of all other batches
    and the batch lists of all jobs are as they were. *)
Theorem Batch_wait_frame (fuel : nat) (self : Batch) (timeout sleep_interval : Z)
    (w : World) :
  only_waited self sleep_interval w
    (snd (Batch_wait fuel self timeout sleep_interval w)).
Proof. unfold Batch_wait. apply only_waited_loop. Qed.

Lemma sleep_time_app (xs ys : list Event) :
  sleep_time (xs ++ ys) = sleep_time xs + sleep_time ys.
Proof.
  induction xs as [|[req|seconds] xs IH]; simpl; lia.
Qed.

Lemma sleep_time_sleep_and_poll (self : Batch) (sleep_interval : Z) (n : nat) :
  sleep_time (sleep_and_poll self sleep_interval n) = Z.of_nat n * sleep_interval.
Proof.
  unfold sleep_and_poll. induction n as [|n IH]; [reflexivity|].
  cbn [repeat concat]. rewrite sleep_time_app, IH. simpl. lia.
Qed.

Lemma sleep_time_rounds (sleep_interval : Z) (n : nat) (batches : list Batch) :
  sleep_time (concat ((fun batch => EvRequest (poll_request batch)
                                    :: sleep_and_poll batch sleep_interval n)
                      <$> batches)) =
    Z.of_nat (length batches) * (Z.of_nat n * sleep_interval).
Proof.
  induction batches as [|batch rest IH]; [reflexivity|].
  rewrite fmap_cons. cbn [concat]. rewrite sleep_time_app. cbn [sleep_time].
  rewrite sleep_time_sleep_and_poll, IH. cbn [length]. lia.
Qed.

Lemma job_wait_loop_never_completes (fuel : nat) (timeout sleep_interval : Z)
    (inv : ServerState -> Prop) :
  0 < sleep_interval -> (sleeps_until timeout sleep_interval < fuel)%nat ->
  forall (batches : list Batch) (w : World),
    (forall batch, batch ∈ batches -> never_completes batch inv) ->
    inv (remote w) ->
    exists w',
      job_wait_loop fuel batches timeout sleep_interval w = (Ok tt, w') /\
      trace w' = trace w ++
        concat ((fun batch => EvRequest (poll_request batch)
                              :: sleep_and_poll batch sleep_interval
                                   (sleeps_until timeout sleep_interval)) <$> batches) /\
      inv (remote w').
Proof.
  intros Hpos Hfuel. induction batches as [|batch rest IH]; intros w Hnever Hinv.
  - exists w. simpl. by rewrite app_nil_r.
  - destruct (wait_loop_never_completes batch timeout sleep_interval inv Hpos
                (Hnever batch ltac:(set_solver)) fuel 0 w Hinv)
      as (w1 & Hrun & Htrace & Hinv1).
    { by rewrite Z.sub_0_r. }
    rewrite Z.sub_0_r in Htrace.
    destruct (IH w1) as (w' & Hrest & Htrace' & Hinv'); [set_solver | assumption |].
    exists w'. simpl. unfold bind, Batch_wait. rewrite Hrun, Hrest.
    split; [reflexivity|]. split; [|assumption].
    rewrite Htrace', Htrace, <- app_assoc. reflexivity.
Qed.

(** X10. [Job.wait] gives every batch its own full budget, one batch
    after the other: against batches that never complete it waits on each
    of them up to the timeout before turning to the next, so that with [k]
    batches the time slept is [k] times what reaches the timeout, which is
    at least [k] times the timeout; and it returns without raising. *)
Theorem Job_wait_sequential (self : Job) (fuel : nat) (timeout sleep_interval : Z)
    (inv : ServerState -> Prop) (w : World) :
  0 < sleep_interval -> (sleeps_until timeout sleep_interval < fuel)%nat ->
  (forall batch, batch ∈ batches_of w self -> never_completes batch inv) ->
  inv (remote w) ->
  exists w' events,
    Job_wait fuel self timeout sleep_interval w = (Ok tt, w') /\
    trace w' = trace w ++ events /\
    events = concat ((fun batch => EvRequest (poll_request batch)
                                   :: sleep_and_poll batch sleep_interval
                                        (sleeps_until timeout sleep_interval))
                     <$> batches_of w self) /\
    sleep_time events =
      Z.of_nat (length (batches_of w self)) *
      (Z.of_nat (sleeps_until timeout sleep_interval) * sleep_interval) /\
    Z.of_nat (length (batches_of w self)) * timeout <= sleep_time events.
Proof.
  intros Hpos Hfuel Hnever Hinv.
  destruct (job_wait_loop_never_completes fuel timeout sleep_interval inv Hpos Hfuel
              (batches_of w self) w Hnever Hinv) as (w' & Hrun & Htrace & _).
  eexists w', _. split; [|split; [exact Htrace | split; [reflexivity|]]].
  - unfold Job_wait, bind, get_batches. exact Hrun.
  - pose proof (sleep_time_rounds sleep_interval (sleeps_until timeout sleep_interval)
                  (batches_of w self)) as Htime.
    split; [exact Htime|]. rewrite Htime.
    pose proof (ceil_div_least timeout sleep_interval Hpos) as [Hup _].
    unfold sleeps_until.
    destruct (Z.le_gt_cases (ceil_div timeout sleep_interval) 0) as [Hle|Hgt].
    + rewrite Z2Nat.nonpos by lia. nia.
    + rewrite Z2Nat.id by lia. nia.
Qed.

(** *** A failed batch in a job *)

Lemma is_done_loop_raise (before : list Batch) (batch : Batch) (after : list Batch)
    (w w1 w' : World) e :
  all_done before w w1 ->
  Batch_is_done batch false w1 = (Raise e, w') ->
  is_done_loop (before ++ batch :: after) w = (Raise e, w').
Proof.
  intros Hall Hlast. induction Hall as [w | first rest w w0 w1 Hdone _ IH]; simpl.
  - unfold bind. by rewrite Hlast.
  - unfold bind at 1. rewrite Hdone. simpl. by apply IH.
Qed.

(** X11. [Job.is_done] does not answer false for a failed batch: when the
    batches before it report done and a batch's own check raises, as it
    does for a batch in an error state, [Job.is_done] raises that error,
    and the batches after it are not looked at. *)
Theorem Job_is_done_surfaces_failure (self : Job) (w w1 w' : World)
    (before : list Batch) (batch : Batch) (after : list Batch) e :
  batches_of w self = before ++ batch :: after ->
  all_done before w w1 ->
  Batch_is_done batch false w1 = (Raise e, w') ->
  Job_is_done self w = (Raise e, w') /\
  examined_only (before ++ [batch]) w w'.
Proof.
  intros Hsplit Hall Hlast. split.
  - unfold Job_is_done, bind, get_batches. rewrite Hsplit.
    by eapply is_done_loop_raise.
  - eapply examined_only_trans; [by apply all_done_examined|].
    by eapply Batch_is_done_examined.
Qed.

(** X12. The results of a job with a failed batch: when the check that
    opens [Job.results] meets a batch whose own check raises, draining
    yields no row at all, not even those of the batches that completed,
    and ends with that error; no result request is sent. *)
Theorem Job_results_failed_batch (fuel : nat) (self : Job) (w w1 w' : World)
    (before : list Batch) (batch : Batch) (after : list Batch) e :
  batches_of w self = before ++ batch :: after ->
  all_done before w w1 ->
  Batch_is_done batch false w1 = (Raise e, w') ->
  Job_results fuel self w = ([], Raise e, w') /\
  examined_only (before ++ [batch]) w w'.
Proof.
  intros Hsplit Hall Hlast. split.
  - unfold Job_results, gen_bind at 1.
    unfold Job_is_done, bind, get_batches. rewrite Hsplit.
    by rewrite (is_done_loop_raise _ _ _ _ _ _ _ Hall Hlast).
  - eapply examined_only_trans; [by apply all_done_examined|].
    by eapply Batch_is_done_examined.
Qed.

(** *** Results after a wait that timed out, and results cut short *)

Lemma first_check_in_progress (self : Batch) (inv : ServerState -> Prop) (w : World) :
  never_completes self inv -> inv (remote w) -> status_of w self = JNull ->
  exists w1,
    Batch_is_done self false w = (Ok false, w1) /\
    trace w1 = trace w ++ [EvRequest (poll_request self)] /\
    inv (remote w1).
Proof.
  intros [Hpoll _] Hinv Hempty.
  destruct (Hpoll _ Hinv) as (resp & st & Hserve & (Hok & m & Hbody & Herr & Hstate) & Hinv').
  pose proof (Batch_status_fetched self false w _ _ (or_intror Hempty) Hserve) as Hstatus.
  cbv beta iota in Hstatus.
  rewrite (check_status_lt_400 _ Hok), Hbody in Hstatus.
  exists (cached (sent w (poll_request self) st) self (JObj m)).
  rewrite (Batch_is_done_verdict _ _ _ _ _ Hstatus).
  unfold verdict. rewrite Herr.
  destruct (json_eq_str (state_of m) COMPLETED) eqn:Heq.
  - apply json_eq_str_true in Heq. contradiction.
  - repeat split. exact Hinv'.
Qed.

(** The fetch of a plain batch's results sends its one request, whatever
    comes of it. *)
Lemma fetch_results_trace (self : Batch) (w : World) :
  trace (snd (gen_bind (session_get (batch_session self) (batch_endpoint self +:+ "/result"))
                (fun resp =>
                 gen_bind (lift (check_status resp)) (fun _ =>
                 gen_bind (lift (outcome_bind (resp_json resp) py_iter)) (fun rows =>
                 yield_each rows))) w))
  = trace w ++ [EvRequest (result_request self)].
Proof.
  unfold gen_bind at 1. unfold session_get, http.
  destruct (serve _ _) as [[resp|] st]; [|reflexivity].
  unfold gen_bind, lift.
  destruct (check_status resp) as [[]|e|]; try reflexivity.
  destruct (outcome_bind (resp_json resp) py_iter); reflexivity.
Qed.

(** X13. [Batch.results] does not check again after its wait.  For a
    batch that never completes and has no cached snapshot, draining the
    results polls once, waits with the defaults, which is 61 more polls
    and 600 seconds of sleep, returns from the wait without an error, and
    then sends the result request all the same. *)
Theorem Batch_results_after_timeout (fuel : nat) (self : Batch)
    (inv : ServerState -> Prop) (w : World) :
  (60 < fuel)%nat -> never_completes self inv -> inv (remote w) ->
  status_of w self = JNull ->
  exists w1,
    batch_prelude fuel self w = (Ok tt, w1) /\
    trace w1 = trace w ++ EvRequest (poll_request self)
                 :: EvRequest (poll_request self) :: sleep_and_poll self 10 60 /\
    sleep_time (sleep_and_poll self 10 60) = 600 /\
    trace (snd (Batch_results fuel self w)) = trace w1 ++ [EvRequest (result_request self)].
Proof.
  intros Hfuel Hnever Hinv Hempty.
  destruct (first_check_in_progress self inv w Hnever Hinv Hempty)
    as (w0 & Hcheck & Htrace0 & Hinv0).
  destruct (wait_loop_never_completes self (60 * 10) 10 inv ltac:(lia) Hnever fuel 0 w0 Hinv0)
    as (w1 & Hwait & Htrace1 & _).
  { exact Hfuel. }
  assert (batch_prelude fuel self w = (Ok tt, w1)) as Hprelude.
  { unfold batch_prelude, bind. rewrite Hcheck. simpl. exact Hwait. }
  exists w1. split; [exact Hprelude|]. split; [|split].
  - rewrite Htrace1, Htrace0, <- app_assoc. reflexivity.
  - by rewrite sleep_time_sleep_and_poll.
  - rewrite Batch_results_after_prelude. unfold gen_bind at 1. rewrite Hprelude.
    apply fetch_results_trace.
Qed.

Lemma fetch_chunks_prefix (self : Batch) :
  forall (ids rest : list json) (chunks : list (list json)) (w : World) st',
    serves_chunks self (remote w) ids chunks st' ->
    exists w1,
      gen_for (ids ++ rest) (fetch_chunk self) w =
        (let '(rows, o, w') := gen_for rest (fetch_chunk self) w1 in
         (concat chunks ++ rows, o, w')) /\
      remote w1 = st' /\
      trace w1 = trace w ++ ((fun id => EvRequest (chunk_request self id)) <$> ids).
Proof.
  induction ids as [|id ids IH]; intros rest chunks w st' Hserves.
  - destruct chunks; simpl in Hserves; [|contradiction]. subst st'.
    exists w. simpl. rewrite app_nil_r.
    destruct (gen_for rest (fetch_chunk self) w) as [[rows o] w']. by repeat split.
  - destruct chunks as [|rows chunks]; simpl in Hserves; [contradiction|].
    destruct Hserves as (resp & st1 & Hserve & Hok & Hbody & Hrest).
    destruct (IH rest chunks (sent w (chunk_request self id) st1) st' Hrest)
      as (w1 & Hrun & Hremote & Htrace).
    exists w1. simpl app. simpl gen_for. unfold gen_seq, fetch_chunk at 1.
    unfold gen_bind at 1. unfold session_get, http.
    unfold chunk_request in Hserve. rewrite Hserve.
    unfold gen_bind at 1. unfold lift at 1. rewrite (check_status_lt_400 _ Hok).
    unfold gen_bind at 1. unfold lift at 1. unfold resp_json. rewrite Hbody. simpl outcome_bind.
    unfold yield_each at 1.
    fold (chunk_request self id). fold (sent w (chunk_request self id) st1).
    rewrite Hrun.
    destruct (gen_for rest (fetch_chunk self) w1) as [[rows' o] w'].
    split; [by rewrite <- app_assoc|]. split; [assumption|].
    rewrite Htrace. simpl. by rewrite <- app_assoc.
Qed.

(** X14. The results of a query batch can be cut short: when the server
    serves the first chunks and answers the request for the next with a
    status of 400 or more, draining has yielded all the rows of the chunks
    served, in order, before it ends with the error; the chunks after the
    rejected one are not requested. *)
Theorem BatchQuery_results_partial (fuel : nat) (self : Batch) (w w0 : World)
    resp st (served : list json) (rejected : json) (rest : list json)
    (chunks : list (list json)) st1 resp' st2 :
  batch_prelude fuel self w = (Ok tt, w0) ->
  serve (remote w0) (result_request self) = (Some resp, st) ->
  accepted resp -> json_body resp = Some (JArr (served ++ rejected :: rest)) ->
  serves_chunks self st served chunks st1 ->
  serve st1 (chunk_request self rejected) = (Some resp', st2) ->
  400 <= status_code resp' ->
  exists w',
    BatchQuery_results fuel self w = (concat chunks, Raise (AttributeError "status"), w') /\
    trace w' = trace w0 ++ EvRequest (result_request self)
                 :: ((fun id => EvRequest (chunk_request self id)) <$> (served ++ [rejected])).
Proof.
  intros Hprelude Hserve Hok Hbody Hchunks Hserve' Hbad.
  destruct (fetch_chunks_prefix self served (rejected :: rest) chunks
              (sent w0 (result_request self) st) st1 Hchunks)
    as (w1 & Hrun & Hremote & Htrace).
  assert (gen_for (rejected :: rest) (fetch_chunk self) w1 =
            ([], Raise (AttributeError "status"), sent w1 (chunk_request self rejected) st2))
    as Hstop.
  { simpl gen_for. unfold gen_seq, fetch_chunk at 1.
    unfold gen_bind at 1. unfold session_get, http.
    rewrite <- Hremote in Hserve'. unfold chunk_request in Hserve'. rewrite Hserve'.
    unfold gen_bind at 1. unfold lift at 1. rewrite (check_status_ge_400 _ Hbad).
    reflexivity. }
  rewrite Hstop, app_nil_r in Hrun.
  eexists. split.
  - rewrite BatchQuery_results_after_prelude. unfold gen_bind at 1. rewrite Hprelude.
    unfold gen_bind at 1. unfold session_get, http.
    unfold result_request in Hserve. rewrite Hserve.
    unfold gen_bind at 1. unfold lift at 1. rewrite (check_status_lt_400 _ Hok).
    unfold gen_bind at 1. unfold lift at 1. unfold resp_json. rewrite Hbody.
    unfold gen_bind at 1. unfold lift at 1. simpl py_iter. exact Hrun.
  - unfold sent at 1. cbn [trace]. rewrite Htrace, fmap_app. simpl.
    rewrite <- !app_assoc. reflexivity.
Qed.

(** *** Creating jobs *)

Lemma job_description_lookup (object_name operation concurrency external_id_name : json) :
  let description := job_description object_name operation concurrency external_id_name in
  description !! "operation" = Some operation /\
  description !! "object" = Some object_name /\
  description !! "contentType" = Some (JStr "JSON") /\
  description !! "externalIdFieldName" =
    (if py_truthy external_id_name then Some external_id_name else None) /\
  description !! "concurrencyMode" =
    (if py_truthy concurrency then Some concurrency else None) /\
  dom description ⊆ {[ "operation"; "object"; "contentType";
                       "externalIdFieldName"; "concurrencyMode" ]}.
Proof.
  unfold job_description.
  destruct (py_truthy external_id_name), (py_truthy concurrency);
    repeat split; try (by simplify_map_eq); set_solver.
Qed.

(** X16. A call of [create_job] that passes its assertions sends one POST
    to the [/job] URI of the client.  Its body has the operation, the
    object name and the content type JSON; it has the external id field
    and the concurrency mode exactly when they were given and are not
    empty, and no other key.  When the server accepts, the job returned
    has the returned id, the client's session, its URI under the client's,
    and an empty batch list. *)
Theorem create_job_accepted (self : SalesforceBulk)
    (object_name operation concurrency external_id_name : json) :
  object_name <> JNull -> operation <> JNull ->
  let description := job_description object_name operation concurrency external_id_name in
  exists run,
    create_job self object_name operation concurrency external_id_name = Checked run /\
    (forall w, trace (snd (run w)) = trace w ++ [EvRequest (job_request self description)]) /\
    (forall w resp st m id,
       serve (remote w) (job_request self description) = (Some resp, st) ->
       accepted resp -> json_body resp = Some (JObj m) -> m !! "id" = Some id ->
       let job := mkJob (session self) (endpoint self +:+ "/job/" +:+ py_str id) id
                        (next_id w) in
       exists w', run w = (Ok job, w') /\ batches_of w' job = []) /\
    description !! "operation" = Some operation /\
    description !! "object" = Some object_name /\
    description !! "contentType" = Some (JStr "JSON") /\
    description !! "externalIdFieldName" =
      (if py_truthy external_id_name then Some external_id_name else None) /\
    description !! "concurrencyMode" =
      (if py_truthy concurrency then Some concurrency else None) /\
    dom description ⊆ {[ "operation"; "object"; "contentType";
                         "externalIdFieldName"; "concurrencyMode" ]}.
Proof.
  intros Hobject Hoperation description.
  eexists. split; [|split; [|split]].
  - unfold create_job.
    destruct object_name; try contradiction; destruct operation; try contradiction;
      reflexivity.
  - intros w. fold description.
    unfold bind at 1. unfold session_post_json, http, job_request.
    destruct (serve _ _) as [[resp|] st]; [|reflexivity].
    unfold bind at 1. unfold lift at 1.
    destruct (check_status resp) as [[]|e|]; try reflexivity.
    unfold bind at 1. unfold lift at 1.
    destruct (resp_json resp) as [parsed|e|]; try reflexivity.
    unfold bind at 1. unfold lift at 1.
    destruct (py_getitem parsed "id") as [id|e|]; reflexivity.
  - intros w resp st m id Hserve Hok Hbody Hid job. eexists.
    fold description.
    unfold bind at 1. unfold session_post_json, http.
    unfold job_request in Hserve. rewrite Hserve.
    unfold bind at 1. unfold lift at 1. rewrite (check_status_lt_400 _ Hok).
    unfold bind at 1. unfold lift at 1. unfold resp_json. rewrite Hbody.
    unfold bind at 1. unfold lift at 1. simpl py_getitem. rewrite Hid.
    unfold Job_init, set_batches, new_object, bind, ret. simpl.
    split; [reflexivity|]. unfold batches_of. simpl. by rewrite lookup_insert_eq.
  - apply job_description_lookup.
Qed.

(** X17. The five convenience calls are [create_job] with the operation
    fixed: [query], [insert], [upsert], [update], [delete]; the keyword
    arguments they pass on may name the concurrency and, except for
    [create_upsert_job], which gives it itself, the external id field; any
    other keyword is a [TypeError] of the call, and nothing has been sent. *)
Theorem create_job_wrappers (self : SalesforceBulk) (object_name external_id_name : json)
    (kwargs : gmap string json) :
  let concurrency := default JNull (kwargs !! "concurrency") in
  let external := default JNull (kwargs !! "external_id_name") in
  (dom kwargs ⊆ {[ "concurrency"; "external_id_name" ]} ->
   create_query_job self object_name kwargs
     = create_job self object_name (JStr "query") concurrency external /\
   create_insert_job self object_name kwargs
     = create_job self object_name (JStr "insert") concurrency external /\
   create_update_job self object_name kwargs
     = create_job self object_name (JStr "update") concurrency external /\
   create_delete_job self object_name kwargs
     = create_job self object_name (JStr "delete") concurrency external) /\
  (dom kwargs ⊆ {[ "concurrency" ]} ->
   create_upsert_job self object_name external_id_name kwargs
     = create_job self object_name (JStr "upsert") concurrency external_id_name) /\
  (forall key, key ∈ dom kwargs -> key <> "concurrency" ->
     create_upsert_job self object_name external_id_name kwargs = Checked (raise TypeError) /\
     (key <> "external_id_name" ->
      create_query_job self object_name kwargs = Checked (raise TypeError) /\
      create_insert_job self object_name kwargs = Checked (raise TypeError) /\
      create_update_job self object_name kwargs = Checked (raise TypeError) /\
      create_delete_job self object_name kwargs = Checked (raise TypeError))).
Proof.
  intros concurrency external.
  assert (({[ "concurrency"; "external_id_name" ]} ∖ dom (∅ : gmap string json) : gset string)
          = {[ "concurrency"; "external_id_name" ]}) as Hfree.
  { rewrite dom_empty_L. set_solver. }
  assert (forall v : json,
            ({[ "concurrency"; "external_id_name" ]}
               ∖ dom ({[ "external_id_name" := v ]} : gmap string json) : gset string)
            = {[ "concurrency" ]}) as Hfree'.
  { intros v. rewrite dom_singleton_L. set_solver. }
  split; [|split].
  - intros Hdom.
    unfold create_query_job, create_insert_job, create_update_job, create_delete_job,
      call_create_job.
    rewrite Hfree, bool_decide_eq_true_2 by exact Hdom.
    rewrite (left_id_L ∅ (∪)). by repeat split.
  - intros Hdom. unfold create_upsert_job, call_create_job.
    rewrite Hfree', bool_decide_eq_true_2 by exact Hdom.
    assert (kwargs !! "external_id_name" = None) as Hnone.
    { apply not_elem_of_dom. set_solver. }
    f_equal.
    + rewrite lookup_union_r; [reflexivity | by apply lookup_singleton_ne].
    + rewrite lookup_union_l'; [by rewrite lookup_singleton_eq|].
      rewrite lookup_singleton_eq. eauto.
  - intros key Hkey Hnot. split.
    + unfold create_upsert_job, call_create_job.
      rewrite Hfree', bool_decide_eq_false_2; [reflexivity | set_solver].
    + intros Hnot'.
      unfold create_query_job, create_insert_job, create_update_job, create_delete_job,
        call_create_job.
      rewrite Hfree, bool_decide_eq_false_2; [by repeat split | set_solver].
Qed.

(** *** Logging in *)

Lemma login_reads_body (username password : pystr) (host API_version : string)
    (w : World) answer st :
  serve (remote w) (login_request username password host API_version) = (answer, st) ->
  login username password host API_version w =
    (match answer with
     | Some resp => read_login (text resp)
     | None => Raise RequestException
     end,
     sent w (login_request username password host API_version) st).
Proof.
  intros Hserve. unfold login, bind at 1, requests_post, http.
  unfold login_request in Hserve. rewrite Hserve.
  destruct answer as [resp|]; [|reflexivity].
  unfold read_login, bind, lift, ret, content.
  destruct (ET_parse (text resp)) as [tree|]; [|reflexivity].
  destruct (find_text tree SERVER_URL) as [url|e|]; try reflexivity. simpl.
  destruct (hostname_of url) as [h|e|]; try reflexivity. simpl.
  destruct (find_text tree SESSION_ID) as [sid|e|]; reflexivity.
Qed.

Lemma read_login_raises (body : string) (e : exn) :
  read_login body = Raise e -> e = ParseError \/ exists name, e = AttributeError name.
Proof.
  unfold read_login, find_text, hostname_of.
  destruct (ET_parse body) as [tree|]; [|intros [= <-]; by left].
  destruct (ET_find_text tree SERVER_URL) as [[url|]|]; simpl;
    try (intros [= <-]; right; by eexists).
  destruct (ET_find_text tree SESSION_ID) as [sid|]; simpl; [discriminate|].
  intros [= <-]. right. by eexists.
Qed.

(** X18. [login] never looks at the status of the response: what it
    returns or raises is read off the body alone, so that two responses
    with the same body and different status codes give the same result,
    and a response with an error status and a well-formed body logs in.
    It sends exactly one request, and a transport failure is raised as
    it is. *)
Theorem login_ignores_status (username password : pystr) (host API_version : string)
    (w : World) :
  trace (snd (login username password host API_version w)) =
    trace w ++ [EvRequest (login_request username password host API_version)] /\
  (forall st, serve (remote w) (login_request username password host API_version) = (None, st) ->
     fst (login username password host API_version w) = Raise RequestException) /\
  (forall (w2 : World) resp1 resp2 st1 st2,
     serve (remote w) (login_request username password host API_version) = (Some resp1, st1) ->
     serve (remote w2) (login_request username password host API_version) = (Some resp2, st2) ->
     text resp1 = text resp2 ->
     fst (login username password host API_version w) =
     fst (login username password host API_version w2)).
Proof.
  split; [|split].
  - destruct (serve (remote w) (login_request username password host API_version))
      as [answer st] eqn:Hserve.
    by rewrite (login_reads_body _ _ _ _ _ _ _ Hserve).
  - intros st Hserve. by rewrite (login_reads_body _ _ _ _ _ _ _ Hserve).
  - intros w2 resp1 resp2 st1 st2 Hserve1 Hserve2 Hsame.
    rewrite (login_reads_body _ _ _ _ _ _ _ Hserve1),
      (login_reads_body _ _ _ _ _ _ _ Hserve2).
    simpl. by rewrite Hsame.
Qed.

Lemma SalesforceBulk_init_configured (sessionId : pystr) (host : string)
    (username password : pystr) (API_version : string) (w : World) :
  py_not sessionId && py_not username = false ->
  SalesforceBulk_init sessionId host username password API_version w =
    match login username password host API_version w with
    | (Ok logged, w') =>
        (Ok (mkSalesforceBulk
               ("https://" +:+ str_of (fst logged) +:+ "/services/async/" +:+ API_version)
               (mkSession (<["Content-Type" := Some "application/json"]>
                             (<["X-SFDC-Session" := snd logged]> default_headers)))), w')
    | (Raise e, w') => (Raise e, w')
    | (OutOfFuel, w') => (OutOfFuel, w')
    end.
Proof.
  intros Hcheck. unfold SalesforceBulk_init. rewrite Hcheck.
  unfold bind. destruct (login username password host API_version w) as [[logged|e|] w'];
    reflexivity.
Qed.

Lemma login_never_RuntimeError (username password : pystr) (host API_version : string)
    (w : World) message :
  fst (login username password host API_version w) <> Raise (RuntimeError message).
Proof.
  destruct (serve (remote w) (login_request username password host API_version))
    as [answer st] eqn:Hserve.
  rewrite (login_reads_body _ _ _ _ _ _ _ Hserve). simpl.
  destruct answer as [resp|]; [|discriminate].
  intros Hraise. apply read_login_raises in Hraise as [Hraise | [name Hraise]]; discriminate.
Qed.

(** X19. The configuration error of the constructor: it raises its
    [RuntimeError] exactly when the session id and the username are both
    [None] or empty, and then nothing has been sent and nothing has
    changed. *)
Theorem SalesforceBulk_init_configuration (sessionId : pystr) (host : string)
    (username password : pystr) (API_version : string) (w : World) :
  let absent (v : pystr) := v = None \/ v = Some "" in
  ((exists message,
      fst (SalesforceBulk_init sessionId host username password API_version w)
        = Raise (RuntimeError message))
   <-> absent sessionId /\ absent username) /\
  (absent sessionId /\ absent username ->
   snd (SalesforceBulk_init sessionId host username password API_version w) = w).
Proof.
  intros absent.
  assert (forall v : pystr, py_not v = true <-> absent v) as Hnot.
  { intros [s|]; unfold absent; simpl.
    - rewrite bool_decide_eq_true. split; [intros ->; by right | by intros [|[= ->]]].
    - split; [by left | reflexivity]. }
  destruct (py_not sessionId && py_not username) eqn:Hcheck.
  - apply andb_true_iff in Hcheck as [Hsid Huser].
    apply Hnot in Hsid, Huser.
    assert (SalesforceBulk_init sessionId host username password API_version w =
              (Raise (RuntimeError
                        "Must supply either sessionId/instance_url or username/password"), w))
      as Hrun.
    { unfold SalesforceBulk_init.
      destruct (py_not sessionId && py_not username) eqn:Hagain; [reflexivity|].
      apply andb_false_iff in Hagain as [Hagain | Hagain];
        [apply Hnot in Hsid | apply Hnot in Huser]; congruence. }
    rewrite Hrun. split; [|reflexivity]. split; [tauto | by eexists].
  - split.
    + split.
      * intros [message Hraise].
        rewrite (SalesforceBulk_init_configured _ _ _ _ _ _ Hcheck) in Hraise.
        pose proof (login_never_RuntimeError username password host API_version w message)
          as Hlogin.
        destruct (login username password host API_version w) as [[logged|e|] w'];
          simpl in *; congruence.
      * intros [Hsid Huser]. apply Hnot in Hsid, Huser. rewrite Hsid, Huser in Hcheck.
        discriminate.
    + intros [Hsid Huser]. apply Hnot in Hsid, Huser. rewrite Hsid, Huser in Hcheck.
      discriminate.
Qed.

Lemma string_append_assoc (a b c : string) : (a +:+ b) +:+ c = a +:+ (b +:+ c).
Proof.
  induction a as [|ch a IH]; [reflexivity|].
  change (String ch ((a +:+ b) +:+ c) = String ch (a +:+ (b +:+ c))).
  by rewrite IH.
Qed.

Lemma create_job_run_shape (self : SalesforceBulk)
    (object_name operation concurrency external_id_name : json) run (w w' : World) job :
  create_job self object_name operation concurrency external_id_name = Checked run ->
  run w = (Ok job, w') ->
  job_session job = session self /\
  job_endpoint job = endpoint self +:+ "/job/" +:+ py_str (job_id job) /\
  exists st,
    trace w' = trace w ++
      [EvRequest (job_request self
                    (job_description object_name operation concurrency external_id_name))] /\
    remote w' = st.
Proof.
  unfold create_job.
  destruct (is_None_json object_name); [discriminate|].
  destruct (is_None_json operation); [discriminate|].
  intros [= <-].
  unfold bind at 1. unfold session_post_json, http, job_request.
  destruct (serve _ _) as [[resp|] st]; [|discriminate].
  unfold bind at 1. unfold lift at 1.
  destruct (check_status resp) as [[]|e|]; try discriminate.
  unfold bind at 1. unfold lift at 1.
  destruct (resp_json resp) as [parsed|e|]; try discriminate.
  unfold bind at 1. unfold lift at 1.
  destruct (py_getitem parsed "id") as [id|e|]; try discriminate.
  unfold Job_init, set_batches, new_object, bind, ret. simpl.
  intros [= <- <-]. simpl. repeat split. by eexists.
Qed.

(** X20. The session that login opened is the one every job works with:
    for a client that the constructor returned, the job-creation request
    of [create_job] carries, as its session header, the session id that
    login returned, the job made has the same headers, and its URI lies
    under the asynchronous API of the server that login named. *)
Theorem client_session_propagates (sessionId : pystr) (host : string)
    (username password : pystr) (API_version : string) (w w1 : World)
    (client : SalesforceBulk) :
  SalesforceBulk_init sessionId host username password API_version w = (Ok client, w1) ->
  exists server_host session_id,
    login username password host API_version w = (Ok (server_host, session_id), w1) /\
    forall object_name operation concurrency external_id_name run w2 w3 job,
      create_job client object_name operation concurrency external_id_name = Checked run ->
      run w2 = (Ok job, w3) ->
      (exists req, trace w3 = trace w2 ++ [EvRequest req] /\
                   req_headers req !! "X-SFDC-Session" = Some session_id /\
                   req_headers req !! "Content-Type" = Some (Some "application/json")) /\
      headers (job_session job) !! "X-SFDC-Session" = Some session_id /\
      job_endpoint job =
        "https://" +:+ str_of server_host +:+ "/services/async/" +:+ API_version
        +:+ "/job/" +:+ py_str (job_id job).
Proof.
  intros Hinit.
  destruct (py_not sessionId && py_not username) eqn:Hcheck.
  { unfold SalesforceBulk_init in Hinit. rewrite Hcheck in Hinit. discriminate. }
  rewrite (SalesforceBulk_init_configured _ _ _ _ _ _ Hcheck) in Hinit.
  destruct (login username password host API_version w) as [[[server_host sid]|e|] w0];
    try discriminate.
  injection Hinit as <- <-. exists server_host, sid. split; [reflexivity|].
  intros object_name operation concurrency external_id_name run w2 w3 job Hcall Hrun.
  destruct (create_job_run_shape _ _ _ _ _ _ _ _ _ Hcall Hrun)
    as (Hsession & Hendpoint & st & Htrace & _).
  assert (forall h : gmap string pystr,
            (<["Content-Type" := Some "application/json"]> (<["X-SFDC-Session" := sid]> h))
              !! "X-SFDC-Session" = Some sid) as Hheader.
  { intros h. rewrite lookup_insert_ne by discriminate. apply lookup_insert_eq. }
  split; [|split].
  - eexists. split; [exact Htrace|]. simpl. split; [apply Hheader | apply lookup_insert_eq].
  - rewrite Hsession. simpl. apply Hheader.
  - rewrite Hendpoint. simpl. by rewrite !string_append_assoc.
Qed.

End Properties.

(** ** The statements at concrete inputs *)

(** Three rows in batches of two: two requests, two batches. *)
Lemma Job_post_chunks_witness :
  fst (@Job_post script_env job0 [JNum 1; JNum 2; JNum 3] 2
         (world0 [ok_json (created "B1"); ok_json (created "B2")]))
  = Ok (@new_batches script_env job0 [JStr "B1"; JStr "B2"] 2).
Proof.
  pose proof (@Job_post_chunks script_env job0 [JNum 1; JNum 2; JNum 3] 2
                (world0 [ok_json (created "B1"); ok_json (created "B2")])
                [JStr "B1"; JStr "B2"] []) as Hpost.
  cbv zeta in Hpost.
  destruct Hpost as (w' & Hrun & _).
  - lia.
  - simpl. eexists _, _, _. split; [reflexivity|]. split; [reflexivity|].
    split; [reflexivity|]. split; [reflexivity|].
    eexists _, _, _. split; [reflexivity|]. split; [reflexivity|].
    split; [reflexivity|]. split; reflexivity.
  - rewrite Hrun. reflexivity.
Defined.

(** The failed batch of the spec's scenario. *)
Lemma Batch_is_done_error_state_witness :
  fst (@Batch_is_done script_env api_states batch0 false
         (world0 [ok_json (JObj failed_snapshot)]))
  = Raise (BulkBatchFailed (JStr "J1") (JStr "B1") (JStr "bad row")).
Proof.
  pose proof (@Batch_is_done_error_state script_env api_states batch0 false
                (world0 [ok_json (JObj failed_snapshot)])
                (snd (@Batch_status script_env batch0 false
                        (world0 [ok_json (JObj failed_snapshot)])))
                failed_snapshot) as Herror.
  destruct Herror as [Hraise _]; [reflexivity|].
  destruct (Hraise eq_refl (JStr "J1") (JStr "B1") (JStr "bad row") eq_refl eq_refl eq_refl)
    as [Hfirst _].
  rewrite Hfirst. reflexivity.
Defined.

(** A snapshot without a state. *)
Lemma Batch_is_done_without_state_witness :
  fst (@Batch_is_done script_env api_states batch0 false (world0 [ok_json (created "B1")]))
  = Ok false.
Proof.
  rewrite (@Batch_is_done_without_state script_env api_states batch0 false
             (world0 [ok_json (created "B1")])
             (snd (@Batch_status script_env batch0 false (world0 [ok_json (created "B1")])))
             {[ "id" := JStr "B1" ]});
    reflexivity.
Defined.

(** The cache of a batch: empty at first, filled by the first call. *)
Lemma Batch_status_cache_witness :
  let w := world0 [ok_json (snapshot "Queued"); ok_json (snapshot "Completed")] in
  let w1 := snd (@Batch_status script_env batch0 false w) in
  @Batch_status script_env batch0 false w = (Ok (snapshot "Queued"), w1) /\
  @Batch_status script_env batch0 false w1 = (Ok (snapshot "Queued"), w1) /\
  @Batch_status script_env batch0 false w1 = (Ok (@status_of script_env w1 batch0), w1).
Proof.
  intros w w1.
  destruct (@Batch_status_cache script_env batch0 false w) as (_ & Hfetch & Hagain).
  destruct (@Batch_status_cache script_env batch0 false w1) as (Hcached & _ & _).
  destruct (Hfetch (or_intror eq_refl)) as [_ Hfetched].
  split; [|split].
  - apply (Hfetched (mkResponse 200 "" (Some (snapshot "Queued")))
             [ok_json (snapshot "Completed")] (snapshot "Queued"));
      reflexivity.
  - apply Hagain; [reflexivity | discriminate].
  - apply Hcached; [reflexivity | discriminate].
Defined.

(** [wait(30, 10)] against a server that always answers "InProgress". *)
Lemma Batch_wait_polls_witness :
  let answer := ok_json (snapshot "InProgress") in
  exists w',
    @Batch_wait (steady_env answer) api_states 4 batch0 30 10 (steady_world answer)
      = (Ok tt, w') /\
    @trace (steady_env answer) w' =
      [EvRequest (poll_request batch0);
       EvSleep 10; EvRequest (poll_request batch0);
       EvSleep 10; EvRequest (poll_request batch0);
       EvSleep 10; EvRequest (poll_request batch0)].
Proof.
  intros answer.
  destruct (@Batch_wait_polls (steady_env answer) api_states batch0 4 (steady_world answer))
    as (_ & _ & Hscenario).
  apply (Hscenario (fun _ => True)).
  - lia.
  - split.
    + intros st _. eexists _, _. split; [reflexivity|]. split; [|exact I].
      split; [reflexivity|]. eexists. split; [reflexivity|].
      split; [reflexivity | discriminate].
    + intros st seconds _. exact I.
  - exact I.
Defined.

(** A job of three batches of which the second is still queued. *)
Lemma Job_is_done_short_circuit_witness :
  let b1 := mkBatch PlainBatch session0 "svc/job/J1/batch/B1" (JStr "B1") 1 in
  let b2 := mkBatch PlainBatch session0 "svc/job/J1/batch/B2" (JStr "B2") 2 in
  let b3 := mkBatch PlainBatch session0 "svc/job/J1/batch/B3" (JStr "B3") 3 in
  let w := @mkWorld script_env
             [ok_json (snapshot "Completed"); ok_json (snapshot "Queued");
              ok_json (snapshot "Completed")]
             [] ∅ {[ 0%nat := [b1; b2; b3] ]} 4 in
  let w1 := snd (@Batch_is_done script_env api_states b1 false w) in
  let w2 := snd (@Batch_is_done script_env api_states b2 false w1) in
  @Job_is_done script_env api_states job0 w = (Ok false, w2) /\
  @examined_only script_env [b1; b2] w w2.
Proof.
  intros b1 b2 b3 w w1 w2.
  destruct (@Job_is_done_short_circuit script_env api_states job0 w w2) as (_ & _ & Hfalse).
  apply (Hfalse [b1] b2 [b3] w1).
  - reflexivity.
  - apply (@all_done_cons script_env api_states b1 [] w w1 w1); [reflexivity | constructor].
  - reflexivity.
Defined.

(** A job of a plain batch and a query batch with two result chunks:
    the rows of the first batch, then those of the chunks of the second. *)
Lemma results_in_order_witness :
  let b1 := mkBatch PlainBatch session0 "svc/job/J1/batch/B1" (JStr "B1") 1 in
  let b2 := mkBatch QueryBatch session0 "svc/job/J1/batch/B2" (JStr "B2") 2 in
  let w := @mkWorld script_env
             [ok_json (snapshot "Completed"); ok_json (snapshot "Completed");
              ok_json (JArr [JNum 1; JNum 2]);
              ok_json (JArr [JStr "r1"; JStr "r2"]);
              ok_json (JArr [JNum 3]); ok_json (JArr [JNum 4; JNum 5])]
             [] ∅ {[ 0%nat := [b1; b2] ]} 3 in
  exists w',
    @Job_results script_env api_states 61 job0 w
      = ([JNum 1; JNum 2; JNum 3; JNum 4; JNum 5], Ok tt, w') /\
    @remote script_env w' = [].
Proof.
  intros b1 b2 w.
  destruct (@results_in_order script_env api_states 61) as (_ & _ & _ & _ & Hjob & _).
  destruct (Hjob job0 w (snd (@job_prelude script_env api_states 61 job0 w))
              [[JNum 1; JNum 2]; [JNum 3; JNum 4; JNum 5]] [])
    as (w' & Hrun & Hremote & _).
  - reflexivity.
  - repeat constructor.
    + exists {[ "state" := JStr "Completed" ]}. split; [reflexivity|]. split; reflexivity.
    + exists {[ "state" := JStr "Completed" ]}. split; [reflexivity|]. split; reflexivity.
  - simpl. eexists _, _. split; [reflexivity|]. split; [reflexivity|].
    split; [reflexivity|].
    eexists _, _. split; [reflexivity|]. split; [reflexivity|].
    exists [JStr "r1"; JStr "r2"], [[JNum 3]; [JNum 4; JNum 5]], [].
    split; [reflexivity|]. split; [|split; reflexivity].
    simpl. eexists _, _. split; [reflexivity|]. split; [reflexivity|].
    split; [reflexivity|].
    eexists _, _. split; [reflexivity|]. split; [reflexivity|]. split; reflexivity.
  - exists w'. split; [exact Hrun | exact Hremote].
Defined.

(** A block that raises inside the scope of a job, with the close request
    accepted. *)
Lemma Job_scope_closes_witness :
  let block := fun _ : Job => @raise script_env unit (RuntimeError "boom") in
  let w := world0 [ok_json (JObj ∅)] in
  exists w',
    @with_job script_env job0 block w = (Raise (RuntimeError "boom"), w') /\
    @trace script_env w' =
      [EvRequest (mkRequest POST "svc/job/J1" ∅
                    (JsonBody (JObj {[ "state" := JStr "Closed" ]})))].
Proof.
  intros block w.
  destruct (@Job_scope_closes script_env job0 block w w (Raise (RuntimeError "boom")))
    as [_ Hexit].
  destruct (Hexit eq_refl ltac:(discriminate) (ok_json (JObj ∅)) [] eq_refl)
    as (r' & w' & Hrun & _ & Htrace & _ & _ & _ & Hsame & _).
  exists w'. split; [|exact Htrace].
  rewrite Hrun. f_equal.
  apply (Hsame (mkResponse 200 "" (Some (JObj ∅)))); reflexivity.
Defined.

(** A block that raises inside the scope of a job, and a close request
    that does not get through: the exception of the block does not
    propagate, that of the close does. *)
Lemma Job_scope_closes_counterexample :
  @with_job script_env job0 (fun _ : Job => @raise script_env unit (RuntimeError "boom"))
    (world0 [None])
  = (Raise RequestException,
     @mkWorld script_env []
       [EvRequest (mkRequest POST "svc/job/J1" ∅
                     (JsonBody (JObj {[ "state" := JStr "Closed" ]})))] ∅ ∅ 2) /\
  ~ (exists w',
       @with_job script_env job0
         (fun _ : Job => @raise script_env unit (RuntimeError "boom")) (world0 [None])
       = (Raise (RuntimeError "boom"), w')).
Proof.
  split; [reflexivity|]. intros [w' Hrun]. vm_compute in Hrun. discriminate.
Qed.

(** Construction with a session id only. *)
Lemma SalesforceBulk_init_always_logs_in_witness :
  let w := world0 [Some (mkResponse 200 "na1.salesforce.com" None)] in
  let client :=
    mkSalesforceBulk "https://na1.salesforce.com/services/async/36.0"
      (mkSession (<["Content-Type" := Some "application/json"]>
                    (<["X-SFDC-Session" := Some "session-of-na1.salesforce.com"]> ∅))) in
  let w' := snd (@SalesforceBulk_init script_env (Some "abc") "login.salesforce.com"
                   None None "36.0" w) in
  @trace script_env w' =
    [EvRequest
       (mkRequest POST "https://login.salesforce.com/services/Soap/u/36.0"
          ({[ "Content-Type" := Some "text/xml; charset=UTF-8";
              "SOAPAction" := Some "login" ]} ∪ ∅)
          (DataBody (envelope_head +:+ "None" +:+ envelope_middle +:+ "None"
                     +:+ envelope_tail)))] /\
  exists server_host session_id,
    @login script_env None None "login.salesforce.com" "36.0" w
      = (Ok (server_host, session_id), w') /\
    headers (session client) !! "X-SFDC-Session" = Some session_id /\
    session_id = Some "session-of-na1.salesforce.com".
Proof.
  intros w client w'.
  destruct (@SalesforceBulk_init_always_logs_in script_env (Some "abc")
              "login.salesforce.com" None None "36.0" w) as [Hgeneral Hparticular].
  split.
  - destruct Hparticular as [_ Htrace]; [reflexivity|]. exact Htrace.
  - destruct Hgeneral as (_ & _ & Hheader); [reflexivity|].
    destruct (Hheader client w') as
      (server_host & session_id & resp & st & tree & Hserve & Hparse & Hsid & Hlogin & Hhead);
      [reflexivity|].
    exists server_host, session_id. split; [exact Hlogin|]. split; [exact Hhead|].
    vm_compute in Hhead. congruence.
Defined.

(** ** Runs on the scripted server *)

(** A job of a plain batch and a query batch, drained: the rows of the
    first batch, then those of the chunks of the second. *)
Example Job_results_run :
  let b1 := mkBatch PlainBatch session0 "svc/job/J1/batch/B1" (JStr "B1") 1 in
  let b2 := mkBatch QueryBatch session0 "svc/job/J1/batch/B2" (JStr "B2") 2 in
  let w := @mkWorld script_env
             [ok_json (snapshot "Completed"); ok_json (snapshot "Completed");
              ok_json (JArr [JNum 1; JNum 2]);
              ok_json (JArr [JStr "r1"; JStr "r2"]);
              ok_json (JArr [JNum 3]); ok_json (JArr [JNum 4; JNum 5])]
             [] ∅ {[ 0%nat := [b1; b2] ]} 3 in
  fst (@Job_results script_env api_states 61 job0 w)
  = ([JNum 1; JNum 2; JNum 3; JNum 4; JNum 5], Ok tt).
Proof. reflexivity. Qed.

(** Five thousand rows in batches of the default size: two requests. *)
Example Job_post_default_size :
  length (@trace script_env
            (snd (@Job_post script_env job0 (repeat (JNum 0) 5000) DEFAULT_BATCH_SIZE
                    (world0 [ok_json (created "B1"); ok_json (created "B2")]))))
  = 2%nat.
Proof. vm_compute. reflexivity. Qed.

(** A snapshot in an error state that lacks the job id: the lookup fails. *)
Example Batch_is_done_missing_field :
  fst (@Batch_is_done script_env api_states batch0 false (world0 [ok_json (snapshot "Failed")]))
  = Raise (KeyError "jobId").
Proof. reflexivity. Qed.

(** A status body that is JSON [null] leaves the cache empty: the next
    call fetches again. *)
Example Batch_status_null_body :
  let w := world0 [ok_json JNull; ok_json (snapshot "Queued")] in
  let w1 := snd (@Batch_status script_env batch0 false w) in
  length (@trace script_env (snd (@Batch_status script_env batch0 false w1))) = 2%nat.
Proof. reflexivity. Qed.

(** A rejected batch-creation request ends [Job.post] at once. *)
Example Job_post_rejected :
  let w := world0 [Some (mkResponse 500 "busy" None); ok_json (created "B2")] in
  fst (@Job_post script_env job0 [JNum 1; JNum 2; JNum 3] 2 w)
    = Raise (AttributeError "status") /\
  length (@trace script_env (snd (@Job_post script_env job0 [JNum 1; JNum 2; JNum 3] 2 w)))
    = 1%nat.
Proof. split; reflexivity. Qed.

(** A block that raises, and a close request that is rejected: the error
    of the close takes the place of the block's. *)
Example with_job_close_rejected :
  let block := fun _ : Job => @raise script_env unit (RuntimeError "boom") in
  fst (@with_job script_env job0 block (world0 [Some (mkResponse 500 "busy" None)]))
  = Raise (AttributeError "status").
Proof. reflexivity. Qed.

(** With a poll interval of zero the loop of [wait] goes on as long as the
    batch is not done. *)
Example Batch_wait_zero_interval :
  let answer := ok_json (snapshot "InProgress") in
  fst (@Batch_wait (steady_env answer) api_states 50 batch0 30 0 (steady_world answer))
  = OutOfFuel.
Proof. vm_compute. reflexivity. Qed.

(** Construction with neither a session id nor a username fails before
    anything is sent. *)
Example SalesforceBulk_init_unconfigured :
  @SalesforceBulk_init script_env None "login.salesforce.com" None None "36.0" (world0 [])
  = (Raise (RuntimeError "Must supply either sessionId/instance_url or username/password"),
     world0 []).
Proof. reflexivity. Qed.

(** ** The further properties at concrete inputs *)

Lemma Job_post_sends_nothing_witness :
  @Job_post script_env job0 [JNum 1] 0 (world0 []) = (Raise ValueError, world0 []) /\
  @Job_post script_env job0 [] 2 (world0 []) = (Ok [], world0 []).
Proof.
  destruct (@Job_post_sends_nothing script_env job0 [JNum 1] 0 (world0 [])) as [Hzero _].
  destruct (@Job_post_sends_nothing script_env job0 [] 2 (world0 [])) as [_ Hempty].
  split; [apply Hzero; reflexivity | apply Hempty; right; split; [lia | reflexivity]].
Defined.

Lemma post_slices_partition_witness :
  exists starts,
    xrange 0 3 2 = Ok starts /\
    length starts = Z.to_nat (ceil_div 3 2) /\
    concat ((fun i => py_slice [JNum 1; JNum 2; JNum 3] i (i + 2)) <$> starts)
      = [JNum 1; JNum 2; JNum 3] /\
    Forall (fun i => (0 < length (py_slice [JNum 1; JNum 2; JNum 3] i (i + 2))
                      <= Z.to_nat 2)%nat) starts.
Proof. apply (post_slices_partition [JNum 1; JNum 2; JNum 3] 2). lia. Defined.

(** Three rows in batches of two, the second request rejected. *)
Lemma Job_post_not_atomic_witness :
  let w := world0 [ok_json (created "B1"); busy] in
  exists w',
    @Job_post script_env job0 [JNum 1; JNum 2; JNum 3] 2 w
      = (Raise (AttributeError "status"), w') /\
    @batches_of script_env w' job0 = @new_batches script_env job0 [JStr "B1"] 2.
Proof.
  intros w.
  destruct (@Job_post_not_atomic script_env job0 [JNum 1; JNum 2; JNum 3] 2 w 1
              [JStr "B1"] [busy] (mkResponse 500 "busy" None) [])
    as (w' & Hrun & _ & Hlist & _).
  - lia.
  - vm_compute. lia.
  - simpl. eexists _, _, _. split; [reflexivity|]. split; [reflexivity|].
    split; [reflexivity|]. split; reflexivity.
  - reflexivity.
  - simpl. lia.
  - exists w'. split; [exact Hrun | exact Hlist].
Defined.

Lemma Job_query_appends_witness :
  let w := world0 [ok_json (created "Q1")] in
  let batch := mkBatch QueryBatch session0 "svc/job/J1/batch/Q1" (JStr "Q1") 2 in
  exists w',
    @Job_query script_env job0 "SELECT Id FROM Account" w = (Ok batch, w') /\
    @batches_of script_env w' job0 = [batch].
Proof.
  intros w batch.
  destruct (@Job_query_appends script_env api_states job0 "SELECT Id FROM Account" w
              (mkResponse 200 "" (Some (created "Q1"))) [])
    as [Haccepted _]; [reflexivity|].
  destruct (Haccepted {[ "id" := JStr "Q1" ]} (JStr "Q1"))
    as (w' & Hrun & _ & Hlist & _); [reflexivity..|].
  exists w'. split; [exact Hrun | exact Hlist].
Defined.

Lemma Job_close_abort_witness :
  @Job_close script_env job0 (world0 [ok_json JNull])
  = (Ok tt,
     @mkWorld script_env []
       [EvRequest (mkRequest POST "svc/job/J1" ∅
                     (JsonBody (JObj {[ "state" := JStr "Closed" ]})))] ∅ ∅ 2) /\
  @Job_abort script_env job0 (world0 [None])
  = (Raise RequestException,
     @mkWorld script_env []
       [EvRequest (mkRequest POST "svc/job/J1" ∅
                     (JsonBody (JObj {[ "state" := JStr "Aborted" ]})))] ∅ ∅ 2).
Proof.
  destruct (@Job_close_abort script_env job0 (world0 [ok_json JNull])) as (Hclose & _ & _).
  destruct (@Job_close_abort script_env job0 (world0 [None])) as (_ & Habort & _).
  destruct (Hclose (ok_json JNull) [] eq_refl)
    as (r & [st tr ss bl n] & Hrun & Hremote & Htrace & Hstat & Hlists & Hok & _).
  destruct (Habort None [] eq_refl)
    as (r' & [st' tr' ss' bl' n'] & Hrun' & Hremote' & Htrace' & Hstat' & Hlists' & _ & _ & Hnone).
  simpl in *. subst. split.
  - rewrite Hrun. rewrite (Hok (mkResponse 200 "" (Some JNull)) eq_refl eq_refl).
    f_equal. f_equal. pose proof (f_equal (fun p => next_id (snd p)) Hrun) as Hn.
    simpl in Hn. exact (eq_sym Hn).
  - rewrite Hrun'. rewrite (Hnone eq_refl).
    f_equal. f_equal. pose proof (f_equal (fun p => next_id (snd p)) Hrun') as Hn.
    simpl in Hn. exact (eq_sym Hn).
Defined.

(** A reload that is rejected, with a snapshot in the cache. *)
Lemma Batch_status_failure_keeps_cache_witness :
  let w := @mkWorld script_env [busy] [] {[ 1%nat := snapshot "Queued" ]} ∅ 2 in
  let w' := snd (@Batch_status script_env batch0 true w) in
  @status_of script_env w' batch0 = snapshot "Queued".
Proof.
  intros w w'.
  destruct (@Batch_status_failure_keeps_cache script_env batch0 true w w'
              (AttributeError "status")) as (Hcache & _); [reflexivity|].
  unfold status_of. rewrite Hcache. reflexivity.
Defined.

Lemma Batch_is_done_stable_witness :
  let w := world0 [ok_json (snapshot "Completed")] in
  let w' := snd (@Batch_is_done script_env api_states batch0 true w) in
  @Batch_is_done script_env api_states batch0 false w' = (Ok true, w').
Proof.
  intros w w'.
  apply (@Batch_is_done_stable script_env api_states batch0 true w w' (Ok true));
    [reflexivity | left; by eexists].
Defined.

Lemma Batch_wait_first_poll_witness :
  let w := world0 [ok_json (snapshot "Completed")] in
  let w1 := @cached script_env
              (@sent script_env w (poll_request batch0) []) batch0 (snapshot "Completed") in
  @Batch_wait script_env api_states 1 batch0 600 10 w = (Ok tt, w1) /\
  @Batch_is_done script_env api_states batch0 false w1 = (Ok true, w1).
Proof.
  intros w w1.
  destruct (@Batch_wait_first_poll script_env api_states batch0 1 600 10 w
              (mkResponse 200 "" (Some (snapshot "Completed"))) []
              {[ "state" := JStr "Completed" ]})
    as (Hdone & _ & _); [lia | reflexivity..|].
  apply Hdone; reflexivity.
Defined.

(** Two batches that never complete, waited on for 30 seconds each. *)
Lemma Job_wait_sequential_witness :
  let answer := ok_json (snapshot "InProgress") in
  let b1 := mkBatch PlainBatch session0 "svc/job/J1/batch/B1" (JStr "B1") 1 in
  let b2 := mkBatch PlainBatch session0 "svc/job/J1/batch/B2" (JStr "B2") 2 in
  let w := @mkWorld (steady_env answer) tt [] ∅ {[ 0%nat := [b1; b2] ]} 3 in
  exists w' events,
    @Job_wait (steady_env answer) api_states 4 job0 30 10 w = (Ok tt, w') /\
    @trace (steady_env answer) w' = events /\
    sleep_time events = 60.
Proof.
  intros answer b1 b2 w.
  destruct (@Job_wait_sequential (steady_env answer) api_states job0 4 30 10
              (fun _ => True) w)
    as (w' & events & Hrun & Htrace & _ & Htime & _).
  - lia.
  - vm_compute. lia.
  - intros batch _. split.
    + intros st _. eexists _, _. split; [reflexivity|]. split; [|exact I].
      split; [reflexivity|]. eexists. split; [reflexivity|].
      split; [reflexivity | discriminate].
    + intros st seconds _. exact I.
  - exact I.
  - exists w', events. split; [exact Hrun|]. split; [exact Htrace|].
    rewrite Htime. reflexivity.
Defined.

(** A job whose second batch failed. *)
Lemma Job_is_done_surfaces_failure_witness :
  let b1 := mkBatch PlainBatch session0 "svc/job/J1/batch/B1" (JStr "B1") 1 in
  let b2 := mkBatch PlainBatch session0 "svc/job/J1/batch/B2" (JStr "B2") 2 in
  let w := @mkWorld script_env
             [ok_json (snapshot "Completed"); ok_json (JObj failed_snapshot)]
             [] ∅ {[ 0%nat := [b1; b2] ]} 3 in
  fst (@Job_is_done script_env api_states job0 w)
  = Raise (BulkBatchFailed (JStr "J1") (JStr "B1") (JStr "bad row")).
Proof.
  intros b1 b2 w.
  destruct (@Job_is_done_surfaces_failure script_env api_states job0 w
              (snd (@Batch_is_done script_env api_states b1 false w))
              (snd (@Batch_is_done script_env api_states b2 false
                      (snd (@Batch_is_done script_env api_states b1 false w))))
              [b1] b2 [] (BulkBatchFailed (JStr "J1") (JStr "B1") (JStr "bad row")))
    as [Hrun _].
  - reflexivity.
  - eapply (@all_done_cons script_env api_states); [reflexivity | constructor].
  - reflexivity.
  - rewrite Hrun. reflexivity.
Defined.

Lemma Job_results_failed_batch_witness :
  let b1 := mkBatch PlainBatch session0 "svc/job/J1/batch/B1" (JStr "B1") 1 in
  let b2 := mkBatch PlainBatch session0 "svc/job/J1/batch/B2" (JStr "B2") 2 in
  let w := @mkWorld script_env
             [ok_json (snapshot "Completed"); ok_json (JObj failed_snapshot);
              ok_json (JArr [JNum 1])]
             [] ∅ {[ 0%nat := [b1; b2] ]} 3 in
  fst (@Job_results script_env api_states 61 job0 w)
  = ([], Raise (BulkBatchFailed (JStr "J1") (JStr "B1") (JStr "bad row"))).
Proof.
  intros b1 b2 w.
  destruct (@Job_results_failed_batch script_env api_states 61 job0 w
              (snd (@Batch_is_done script_env api_states b1 false w))
              (snd (@Batch_is_done script_env api_states b2 false
                      (snd (@Batch_is_done script_env api_states b1 false w))))
              [b1] b2 [] (BulkBatchFailed (JStr "J1") (JStr "B1") (JStr "bad row")))
    as [Hrun _].
  - reflexivity.
  - eapply (@all_done_cons script_env api_states); [reflexivity | constructor].
  - reflexivity.
  - rewrite Hrun. reflexivity.
Defined.

(** The results of a batch that never completes are requested after the
    wait. *)
Lemma Batch_results_after_timeout_witness :
  let answer := ok_json (snapshot "InProgress") in
  exists w1,
    @batch_prelude (steady_env answer) api_states 61 batch0 (steady_world answer)
      = (Ok tt, w1) /\
    @trace (steady_env answer)
      (snd (@Batch_results (steady_env answer) api_states 61 batch0 (steady_world answer)))
    = @trace (steady_env answer) w1 ++ [EvRequest (result_request batch0)].
Proof.
  intros answer.
  destruct (@Batch_results_after_timeout (steady_env answer) api_states 61 batch0
              (fun _ => True) (steady_world answer))
    as (w1 & Hprelude & _ & _ & Htrace).
  - lia.
  - split.
    + intros st _. eexists _, _. split; [reflexivity|]. split; [|exact I].
      split; [reflexivity|]. eexists. split; [reflexivity|].
      split; [reflexivity | discriminate].
    + intros st seconds _. exact I.
  - exact I.
  - reflexivity.
  - exists w1. split; [exact Hprelude | exact Htrace].
Defined.

(** A query batch of three chunks, the second of which is rejected. *)
Lemma BatchQuery_results_partial_witness :
  let w := world0 [ok_json (snapshot "Completed");
                   ok_json (JArr [JStr "r1"; JStr "r2"; JStr "r3"]);
                   ok_json (JArr [JNum 1; JNum 2]); busy; ok_json (JArr [JNum 3])] in
  exists w',
    @BatchQuery_results script_env api_states 61 query0 w
      = ([JNum 1; JNum 2], Raise (AttributeError "status"), w') /\
    length (@trace script_env w') = 4%nat.
Proof.
  intros w.
  destruct (@BatchQuery_results_partial script_env api_states 61 query0 w
              (snd (@batch_prelude script_env api_states 61 query0 w))
              (mkResponse 200 "" (Some (JArr [JStr "r1"; JStr "r2"; JStr "r3"])))
              [ok_json (JArr [JNum 1; JNum 2]); busy; ok_json (JArr [JNum 3])]
              [JStr "r1"] (JStr "r2") [JStr "r3"] [[JNum 1; JNum 2]]
              [busy; ok_json (JArr [JNum 3])]
              (mkResponse 500 "busy" None) [ok_json (JArr [JNum 3])])
    as (w' & Hrun & Htrace).
  - reflexivity.
  - reflexivity.
  - reflexivity.
  - reflexivity.
  - simpl. eexists _, _. split; [reflexivity|]. split; [reflexivity|].
    split; reflexivity.
  - reflexivity.
  - simpl. lia.
  - exists w'. split; [exact Hrun|]. rewrite Htrace. reflexivity.
Defined.

(** An upsert job on Account. *)
Lemma create_job_accepted_witness :
  let description :=
    job_description (JStr "Account") (JStr "upsert") JNull (JStr "Ext__c") in
  exists run,
    @create_job script_env client0 (JStr "Account") (JStr "upsert") JNull (JStr "Ext__c")
      = Checked run /\
    fst (run (world0 [ok_json (created "J9")]))
      = Ok (mkJob session0 "svc/job/J9" (JStr "J9") 2) /\
    description !! "externalIdFieldName" = Some (JStr "Ext__c") /\
    description !! "concurrencyMode" = None.
Proof.
  intros description.
  destruct (@create_job_accepted script_env client0 (JStr "Account") (JStr "upsert") JNull
              (JStr "Ext__c"))
    as (run & Hcall & _ & Haccepted & _ & _ & _ & Hexternal & Hconcurrency & _);
    [discriminate | discriminate |].
  exists run. split; [exact Hcall|]. split; [|split; assumption].
  destruct (Haccepted (world0 [ok_json (created "J9")])
              (mkResponse 200 "" (Some (created "J9"))) []
              {[ "id" := JStr "J9" ]} (JStr "J9"))
    as (w' & Hrun & _); [reflexivity..|].
  rewrite Hrun. reflexivity.
Defined.

Lemma create_job_wrappers_witness :
  @create_upsert_job script_env client0 (JStr "Account") (JStr "Ext__c")
    {[ "concurrency" := JStr "Serial" ]}
  = @create_job script_env client0 (JStr "Account") (JStr "upsert") (JStr "Serial")
      (JStr "Ext__c") /\
  @create_query_job script_env client0 (JStr "Account") {[ "operation" := JStr "insert" ]}
  = Checked (raise TypeError).
Proof.
  destruct (@create_job_wrappers script_env client0 (JStr "Account") (JStr "Ext__c")
              {[ "concurrency" := JStr "Serial" ]}) as (_ & Hupsert & _).
  destruct (@create_job_wrappers script_env client0 (JStr "Account") (JStr "Ext__c")
              {[ "operation" := JStr "insert" ]}) as (_ & _ & Hbad).
  split.
  - apply Hupsert. rewrite dom_singleton_L. reflexivity.
  - destruct (Hbad "operation") as [_ Hquery].
    + rewrite dom_singleton_L. by apply elem_of_singleton.
    + discriminate.
    + by destruct Hquery as [Hquery _]; [discriminate|].
Defined.

(** A login answered with status 500 and a well-formed body. *)
Lemma login_ignores_status_witness :
  fst (@login script_env (Some "user") (Some "secret") "login.salesforce.com" "36.0"
         (world0 [Some (mkResponse 500 "na1.salesforce.com" None)]))
  = fst (@login script_env (Some "user") (Some "secret") "login.salesforce.com" "36.0"
           (world0 [Some (mkResponse 200 "na1.salesforce.com" None)])).
Proof.
  destruct (@login_ignores_status script_env (Some "user") (Some "secret")
              "login.salesforce.com" "36.0"
              (world0 [Some (mkResponse 500 "na1.salesforce.com" None)]))
    as (_ & _ & Hsame).
  apply (Hsame (world0 [Some (mkResponse 200 "na1.salesforce.com" None)])
           (mkResponse 500 "na1.salesforce.com" None)
           (mkResponse 200 "na1.salesforce.com" None) [] []);
    reflexivity.
Defined.

(** Empty strings for the session id and the username. *)
Lemma SalesforceBulk_init_configuration_witness :
  let w := world0 [Some (mkResponse 200 "na1.salesforce.com" None)] in
  (exists message,
     fst (@SalesforceBulk_init script_env (Some "") "login.salesforce.com" (Some "")
            (Some "secret") "36.0" w) = Raise (RuntimeError message)) /\
  snd (@SalesforceBulk_init script_env (Some "") "login.salesforce.com" (Some "")
         (Some "secret") "36.0" w) = w.
Proof.
  intros w.
  destruct (@SalesforceBulk_init_configuration script_env (Some "") "login.salesforce.com"
              (Some "") (Some "secret") "36.0" w) as [Hiff Hsame].
  split; [apply Hiff | apply Hsame]; split; by right.
Defined.

(** A client, and a job made with it. *)
Lemma client_session_propagates_witness :
  let w := world0 [Some (mkResponse 200 "na1.salesforce.com" None);
                   ok_json (created "J9")] in
  let made := @SalesforceBulk_init script_env None "login.salesforce.com" (Some "user")
                (Some "secret") "36.0" w in
  let client :=
    mkSalesforceBulk "https://na1.salesforce.com/services/async/36.0"
      (mkSession (<["Content-Type" := Some "application/json"]>
                    (<["X-SFDC-Session" := Some "session-of-na1.salesforce.com"]> ∅))) in
  let job := mkJob (session client)
               "https://na1.salesforce.com/services/async/36.0/job/J9" (JStr "J9") 2 in
  made = (Ok client, snd made) /\
  headers (job_session job) !! "X-SFDC-Session" = Some (Some "session-of-na1.salesforce.com").
Proof.
  intros w made client job.
  assert (made = (Ok client, snd made)) as Hmade by reflexivity.
  split; [exact Hmade|].
  destruct (@client_session_propagates script_env None "login.salesforce.com" (Some "user")
              (Some "secret") "36.0" w (snd made) client Hmade)
    as (server_host & session_id & Hlogin & Hjobs).
  assert (session_id = Some "session-of-na1.salesforce.com") as ->.
  { vm_compute in Hlogin. congruence. }
  destruct (@create_job_accepted script_env client (JStr "Account") (JStr "insert") JNull JNull)
    as (run & Hcall & _ & Haccepted & _); [discriminate | discriminate |].
  destruct (Haccepted (snd made) (mkResponse 200 "" (Some (created "J9"))) []
              {[ "id" := JStr "J9" ]} (JStr "J9"))
    as (w3 & Hrun & _); [reflexivity..|].
  destruct (Hjobs (JStr "Account") (JStr "insert") JNull JNull run (snd made) w3 _ Hcall Hrun)
    as (_ & Hheader & _).
  exact Hheader.
Defined.
